(** * droneMetrologyExporter: the SRT telemetry parser

    A shallow embedding of [parseSRT], [parseSrtTime], [makeTime] and
    [BearingTo] (src/main.go) and of the earlier parser variant
    (src/unnamed/part_000), together with the part of Go's [strings],
    [strconv], [regexp], [time] and [math] packages they call.

    Conventions.
    - A Go [string] / [[]byte] is a Rocq [string]: a list of 8-bit bytes.
    - Go's [int] is the 64-bit two's complement integer, held in [Z].
    - Go's [float64] is the kernel's binary64 type [float]; [+ - * /] are the
      IEEE operations.  [math.Sin], [math.Cos] and [math.Atan2] have no
      counterpart here and are fields of the run-time record [Runtime], next
      to the wall clock read by [time.Now]; of their results only the
      documented NaN cases are fixed.
    - [*MetrologySample] is an address into an explicit heap, so that two
      entries of a [Metrology] may be the same object. *)

From Stdlib Require Import ZArith List String Ascii Bool Lia.
From Stdlib Require Import PrimFloat SpecFloat FloatOps FloatAxioms.
From stdpp Require Import base list.

Infix "+:+" := String.append (at level 60, right associativity).

Set Warnings "-inexact-float".
Local Open Scope Z_scope.

(* ================================================================== *)
(** * Bytes and strings *)

Module GoString.

Definition byte_val (c : ascii) : N := N_of_ascii c.

Definition byte_in (lo hi c : ascii) : bool :=
  (byte_val lo <=? byte_val c)%N && (byte_val c <=? byte_val hi)%N.

Definition is_digit (c : ascii) : bool := byte_in "0" "9" c.

Definition LF : ascii := ascii_of_nat 10.

Fixpoint all_bytes (p : ascii -> bool) (s : string) : bool :=
  match s with
  | EmptyString => true
  | String c s' => p c && all_bytes p s'
  end.

Fixpoint has_byte (c : ascii) (s : string) : bool :=
  match s with
  | EmptyString => false
  | String x s' => Ascii.eqb x c || has_byte c s'
  end.

(** [s[n:]]; the caller checks the bound. *)
Fixpoint drop_bytes (n : nat) (s : string) : string :=
  match n, s with
  | O, _ => s
  | S n', String _ s' => drop_bytes n' s'
  | S _, EmptyString => EmptyString
  end.

(** [strings.Split(s, sep)] for a one-byte separator: one piece more than
    there are separators, so the empty string splits into one empty piece. *)
Fixpoint split_aux (sep : ascii) (s : string) : string * list string :=
  match s with
  | EmptyString => (EmptyString, [])
  | String c s' =>
      let '(p, ps) := split_aux sep s' in
      if Ascii.eqb c sep then (EmptyString, p :: ps) else (String c p, ps)
  end.

Definition strings_Split (s : string) (sep : ascii) : list string :=
  let '(p, ps) := split_aux sep s in p :: ps.

(** [strings.ReplaceAll(s, old, new)] for one-byte [old] and [new]. *)
Fixpoint strings_ReplaceAll (s : string) (old new : ascii) : string :=
  match s with
  | EmptyString => EmptyString
  | String c s' =>
      String (if Ascii.eqb c old then new else c) (strings_ReplaceAll s' old new)
  end.

(** [strings.Count(s, sep)] for a one-byte [sep]. *)
Fixpoint strings_Count (s : string) (sep : ascii) : Z :=
  match s with
  | EmptyString => 0
  | String c s' => (if Ascii.eqb c sep then 1 else 0) + strings_Count s' sep
  end.

(** The width in bytes of the first rune of [s], as
    [utf8.DecodeRuneInString] reports it: an ill-formed or truncated
    sequence is one byte wide. *)
Definition rune_width (s : string) : nat :=
  let cont lo hi (c : ascii) := (lo <=? byte_val c)%N && (byte_val c <=? hi)%N in
  let tail2 lo hi :=
    match s with
    | String _ (String c1 _) => if cont lo hi c1 then 2%nat else 1%nat
    | _ => 1%nat
    end in
  let tail3 lo hi :=
    match s with
    | String _ (String c1 (String c2 _)) =>
        if cont lo hi c1 && cont 128%N 191%N c2 then 3%nat else 1%nat
    | _ => 1%nat
    end in
  let tail4 lo hi :=
    match s with
    | String _ (String c1 (String c2 (String c3 _))) =>
        if cont lo hi c1 && cont 128%N 191%N c2 && cont 128%N 191%N c3
        then 4%nat else 1%nat
    | _ => 1%nat
    end in
  match s with
  | EmptyString => 0%nat
  | String c0 _ =>
      let b := byte_val c0 in
      if (b <? 194)%N then 1%nat
      else if (b <? 224)%N then tail2 128%N 191%N
      else if (b =? 224)%N then tail3 160%N 191%N
      else if (b =? 237)%N then tail3 128%N 159%N
      else if (b <? 240)%N then tail3 128%N 191%N
      else if (b =? 240)%N then tail4 144%N 191%N
      else if (b <? 244)%N then tail4 128%N 191%N
      else if (b =? 244)%N then tail4 128%N 143%N
      else 1%nat
  end.

End GoString.
Import GoString.

(* ================================================================== *)
(** * Regular expressions

    The fragment of Go's [regexp] syntax that the four patterns of the
    program are written in: literals, escaped literals, [.], bracket
    classes of bytes and byte ranges, [*] and [+] on a literal or a class,
    capturing groups that are not nested, [^] and [$].  Matching is
    leftmost-first with greedy repetition, as [regexp] defines it. *)

Module Regexp.

(** A one-byte matcher. *)
Inductive cset : Type :=
| CLit (c : ascii)
| CSet (ranges : list (ascii * ascii)).

Inductive regex : Type :=
| REps
| RBol                       (* ^ : start of text *)
| REol                       (* $ : end of text *)
| RChar (c : cset)
| RAny                       (* . : any rune but a line feed *)
| RStar (c : cset)
| RPlus (c : cset)
| RGroup (r : regex)
| RCat (r1 r2 : regex).

Definition cset_mem (c : cset) (x : ascii) : bool :=
  match c with
  | CLit y => Ascii.eqb x y
  | CSet rs => existsb (fun '(lo, hi) => byte_in lo hi x) rs
  end.

(** ** Reading a pattern *)

(** The inside of a bracket class, after the opening bracket. *)
Fixpoint parse_set (s : string) (acc : list (ascii * ascii))
  : option (list (ascii * ascii) * string) :=
  match s with
  | EmptyString => None
  | String c s1 =>
      if Ascii.eqb c "]" then Some (rev acc, s1)
      else if Ascii.eqb c "\" then None
      else
        match s1 with
        | String d (String e s3) =>
            if Ascii.eqb d "-" && negb (Ascii.eqb e "]")
            then parse_set s3 ((c, e) :: acc)
            else parse_set s1 ((c, c) :: acc)
        | _ => parse_set s1 ((c, c) :: acc)
        end
  end.

Definition is_meta (c : ascii) : bool :=
  existsb (Ascii.eqb c) ["*"; "+"; "?"; "|"; "{"; "}"; "]"]%char.

(** A repetition operator after a one-byte matcher. *)
Definition postfix (c : cset) (s : string) : regex * string :=
  match s with
  | String "*" s' => (RStar c, s')
  | String "+" s' => (RPlus c, s')
  | _ => (RChar c, s)
  end.

Definition no_postfix (s : string) : bool :=
  match s with
  | String c _ => negb (Ascii.eqb c "*" || Ascii.eqb c "+" || Ascii.eqb c "?" || Ascii.eqb c "{")
  | EmptyString => true
  end.

Fixpoint parse_seq (fuel : nat) (in_group : bool) (s : string)
  : option (regex * string) :=
  match fuel with
  | O => None
  | S fuel' =>
      let next item rest :=
        match parse_seq fuel' in_group rest with
        | Some (r, rest') => Some (RCat item r, rest')
        | None => None
        end in
      match s with
      | EmptyString => if in_group then None else Some (REps, EmptyString)
      | String c s1 =>
          if Ascii.eqb c ")" then (if in_group then Some (REps, s1) else None)
          else if Ascii.eqb c "(" then
            if in_group then None
            else
              match parse_seq fuel' true s1 with
              | Some (body, rest) =>
                  if no_postfix rest then next (RGroup body) rest else None
              | None => None
              end
          else if Ascii.eqb c "^" then next RBol s1
          else if Ascii.eqb c "$" then next REol s1
          else if Ascii.eqb c "." then
            (if no_postfix s1 then next RAny s1 else None)
          else if Ascii.eqb c "[" then
            match parse_set s1 [] with
            | Some (rs, rest) => let '(item, rest') := postfix (CSet rs) rest in next item rest'
            | None => None
            end
          else if Ascii.eqb c "\" then
            match s1 with
            | String e s2 => let '(item, rest') := postfix (CLit e) s2 in next item rest'
            | EmptyString => None
            end
          else if is_meta c then None
          else let '(item, rest') := postfix (CLit c) s1 in next item rest'
      end
  end.

Definition Compile (pattern : string) : option regex :=
  match parse_seq (S (String.length pattern)) false pattern with
  | Some (r, _) => Some r
  | None => None
  end.

(** [regexp.MustCompile]; a pattern outside the fragment yields a regex
    that matches nothing (Go would stop the program). *)
Definition MustCompile (pattern : string) : regex :=
  match Compile pattern with
  | Some r => r
  | None => RChar (CSet [])
  end.

(** ** Matching *)

Definition result := option (list string).

(** [c*], longest first, then shorter on failure of what follows. *)
Fixpoint star_loop (c : cset) (k : nat -> string -> result) (i : nat) (s : string)
  : result :=
  match s with
  | String x s' =>
      if cset_mem c x then
        match star_loop c k (S i) s' with
        | Some m => Some m
        | None => k i s
        end
      else k i s
  | EmptyString => k i s
  end.

(** [exec r i s caps k]: match [r] at byte offset [i], where [s] is the
    text from [i] on; [caps] are the groups closed so far and [k] is what
    follows [r]. *)
Fixpoint exec (r : regex) (i : nat) (s : string) (caps : list string)
  (k : nat -> string -> list string -> result) : result :=
  match r with
  | REps => k i s caps
  | RBol => if Nat.eqb i 0 then k i s caps else None
  | REol => match s with EmptyString => k i s caps | String _ _ => None end
  | RChar c =>
      match s with
      | String x s' => if cset_mem c x then k (S i) s' caps else None
      | EmptyString => None
      end
  | RAny =>
      match s with
      | String x _ =>
          if Ascii.eqb x LF then None
          else let w := rune_width s in k (i + w)%nat (drop_bytes w s) caps
      | EmptyString => None
      end
  | RStar c => star_loop c (fun j s' => k j s' caps) i s
  | RPlus c =>
      match s with
      | String x s' =>
          if cset_mem c x then star_loop c (fun j s' => k j s' caps) (S i) s' else None
      | EmptyString => None
      end
  | RGroup r' =>
      exec r' i s caps (fun j s' caps' => k j s' (caps' ++ [substring 0 (j - i) s]))
  | RCat r1 r2 =>
      exec r1 i s caps (fun j s' caps' => exec r2 j s' caps' k)
  end.

Definition accept (i : nat) (s : string) : nat -> string -> list string -> result :=
  fun j _ caps => Some (substring 0 (j - i) s :: caps).

(** The leftmost offset at which [r] matches. *)
Fixpoint search (r : regex) (i : nat) (s : string) : result :=
  match exec r i s [] (accept i s) with
  | Some m => Some m
  | None =>
      match s with
      | String _ s' => search r (S i) s'
      | EmptyString => None
      end
  end.

(** [re.FindStringSubmatch(s)]: the match and its groups, or [nil]. *)
Definition FindStringSubmatch (r : regex) (s : string) : list string :=
  match search r 0 s with
  | Some m => m
  | None => []
  end.

End Regexp.
Import Regexp.

(* ================================================================== *)
(** * Numeric conversions ([strconv]) *)

Inductive error : Type :=
| NumError (fn num : string) (range : bool)   (* strconv.NumError; [range]: ErrRange, else ErrSyntax *)
| RegexpDidntMatch (token : string).          (* fmt.Errorf("[srt] Regexp didnt match: %s", in) *)

Module Strconv.

Definition maxUint64 : Z := 2 ^ 64 - 1.
Definition maxInt64 : Z := 2 ^ 63 - 1.
Definition minInt64 : Z := - 2 ^ 63.

(** [int] arithmetic wraps around. *)
Definition wrap64 (z : Z) : Z := (z + 2 ^ 63) mod 2 ^ 64 - 2 ^ 63.

Definition digit_val (c : ascii) : Z := Z.of_N (byte_val c) - 48.

(** The digit loop of [ParseUint(s, 10, 64)]: the first byte that is not a
    digit is a syntax error, the first step that leaves 64 bits a range
    error with the largest value. *)
Fixpoint parseUint_loop (s : string) (n : Z) : Z * option bool :=
  match s with
  | EmptyString => (n, None)
  | String c s' =>
      if is_digit c then
        if n >=? maxUint64 / 10 + 1 then (maxUint64, Some true)
        else
          let n1 := n * 10 + digit_val c in
          if n1 >? maxUint64 then (maxUint64, Some true)
          else parseUint_loop s' n1
      else (0, Some false)
  end.

Definition ParseUint (s : string) : Z * option bool :=
  match s with
  | EmptyString => (0, Some false)
  | _ => parseUint_loop s 0
  end.

(** [ParseInt(s, 10, 0)]. *)
Definition ParseInt (s : string) : Z * option bool :=
  match s with
  | EmptyString => (0, Some false)
  | String c0 s' =>
      let neg := Ascii.eqb c0 "-" in
      let body := if Ascii.eqb c0 "+" || neg then s' else s in
      match ParseUint body with
      | (_, Some false) => (0, Some false)
      | (un, _) =>
          if negb neg && (un >=? 2 ^ 63) then (maxInt64, Some true)
          else if neg && (un >? 2 ^ 63) then (minInt64, Some true)
          else (if neg then - un else un, None)
      end
  end.

(** [strconv.Atoi]: [ParseInt(s, 10, 0)] as an [int]. *)
Definition Atoi (s : string) : Z * option error :=
  match ParseInt s with
  | (n, None) => (n, None)
  | (n, Some range) => (n, Some (NumError "Atoi" s range))
  end.

(** The binary64 nearest to [(-1)^neg * m / 10^k], ties to even. *)
Definition decimal_to_float (neg : bool) (m : Z) (k : nat) : float :=
  match m with
  | Zpos p =>
      SF2Prim (SFdiv prec emax (S754_finite neg p 0)
                             (S754_finite false (Z.to_pos (10 ^ Z.of_nat k)) 0))
  | _ => if neg then neg_zero else zero
  end.

(** The mantissa loop of [readFloat]: digits with at most one point;
    returns the digits read as an integer, the number of them after the
    point, whether a digit was seen, and what is left. *)
Fixpoint read_mantissa (s : string) (m : Z) (k : nat) (sawdot sawdigits : bool)
  : Z * nat * bool * string :=
  match s with
  | String c s' =>
      if Ascii.eqb c "." then
        if sawdot then (m, k, sawdigits, s)
        else read_mantissa s' m k true sawdigits
      else if is_digit c then
        read_mantissa s' (m * 10 + digit_val c) (if sawdot then S k else k) sawdot true
      else (m, k, sawdigits, s)
  | EmptyString => (m, k, sawdigits, s)
  end.

(** [strconv.ParseFloat(s, 64)] on plain decimal text: an optional sign,
    digits and at most one point.  The program applies it to captures
    over the bytes [0-9], [.] and [-] only; exponents, hexadecimal
    mantissas, underscores and the words for infinity and not-a-number,
    which need other bytes, are not modelled and are read as a syntax
    error.  A syntax error comes with the value 0, a range error with an
    infinity. *)
Definition ParseFloat (s : string) : float * option error :=
  let '(neg, body) :=
    match s with
    | String c s' =>
        if Ascii.eqb c "-" then (true, s')
        else if Ascii.eqb c "+" then (false, s')
        else (false, s)
    | EmptyString => (false, s)
    end in
  let '(m, k, sawdigits, rest) := read_mantissa body 0 0 false false in
  match sawdigits, rest with
  | true, EmptyString =>
      let f := decimal_to_float neg m k in
      if is_infinity f then (f, Some (NumError "ParseFloat" s true)) else (f, None)
  | _, _ => (zero, Some (NumError "ParseFloat" s false))
  end.

End Strconv.
Import Strconv.

(* ================================================================== *)
(** * Instants ([time]) *)

(** A [time.Time] in UTC: the nanoseconds since 0001-01-01 00:00:00, the
    instant of the zero value [time.Time{}]. *)
Record time_Time : Type := mkTime { unix_year1_ns : Z }.

Module GoTime.

Definition zero_Time : time_Time := mkTime 0.

(** Days from 0001-01-01 to the first of January of year [y], in the
    proleptic Gregorian calendar. *)
Definition days_before_year (y : Z) : Z :=
  365 * (y - 1) + (y - 1) / 4 - (y - 1) / 100 + (y - 1) / 400.

Definition is_leap (y : Z) : bool :=
  (y mod 4 =? 0) && (negb (y mod 100 =? 0) || (y mod 400 =? 0)).

Definition days_before_month (y m : Z) : Z :=
  nth (Z.to_nat (m - 1)) [0; 31; 59; 90; 120; 151; 181; 212; 243; 273; 304; 334] 0
  + (if is_leap y && (3 <=? m) then 1 else 0).

(** [time.Date(year, month, day, hour, min, sec, nsec, time.UTC)]: fields
    outside their usual ranges carry over into the next larger one.  The
    calendar arithmetic is exact in [Z]. *)
Definition time_Date (year month day hour min sec nsec : Z) : time_Time :=
  let y := year + (month - 1) / 12 in
  let m := (month - 1) mod 12 + 1 in
  let days := days_before_year y + days_before_month y m + (day - 1) in
  mkTime ((((days * 24 + hour) * 60 + min) * 60 + sec) * 1000000000 + nsec).

(** [t.Clock()] and [t.Nanosecond()]. *)
Definition Clock (t : time_Time) : Z * Z * Z :=
  let sod := (unix_year1_ns t / 1000000000) mod 86400 in
  (sod / 3600, (sod mod 3600) / 60, sod mod 60).

Definition Nanosecond (t : time_Time) : Z := unix_year1_ns t mod 1000000000.

(** Whole days between 0001-01-01 and [t]. *)
Definition day_number (t : time_Time) : Z := unix_year1_ns t / (86400 * 1000000000).

End GoTime.
Import GoTime.

(* ================================================================== *)
(** * What the program takes from its run time *)

(** The program calls [math.Sin], [math.Cos], [math.Atan2] and [time.Now];
    none of them is code of the repository.  Their results are left open,
    but for the two special cases that the package [math] documents and
    that decide what the parser stores for a coordinate that is not finite:
    Sin(NaN) = NaN and Atan2(NaN, x) = NaN. *)
Record Runtime : Type := {
  math_Sin : float -> float;
  math_Cos : float -> float;
  math_Atan2 : float -> float -> float;
  (** [time_Now n]: what the [n]-th call of [time.Now()] returns. *)
  time_Now : nat -> time_Time;
  math_Sin_NaN : math_Sin nan = nan;
  math_Atan2_NaN : forall x, math_Atan2 nan x = nan
}.

(** What the program prints: [fmt.Printf("srt: start error at line %c: %v", c, err)]. *)
Inductive event : Type :=
| Printf_start_error (c : nat) (err : error).

(* ================================================================== *)
(** * The time parser (shared by both variants) *)

Definition math_Pi : float := 0x1.921fb54442d18p+1%float.

(** makeTime is a helper to create a time duration. *)
Definition makeTime (h m s ms : Z) : time_Time :=
  time_Date 0 1 1 h m s (wrap64 (wrap64 (ms * 1000) * 1000)).

Definition r_time : regex :=
  Eval vm_compute in MustCompile "([0-9]+):([0-9]+):([0-9]+):([0-9]+)".

(** The text [parseSrtTime] matches: [,] and [.] turned into [:], and
    [:000] appended when that leaves exactly two colons. *)
Definition normalize_time (token : string) : string :=
  let in1 := strings_ReplaceAll token "," ":" in
  let in2 := strings_ReplaceAll in1 "." ":" in
  if strings_Count in2 ":" =? 2 then (in2 ++ ":000")%string else in2.

(** parseSrtTime parses a srt subtitle time (duration since start of film).
    [clock] counts the calls of [time.Now()] made so far; the result carries
    the new count. *)
Definition parseSrtTime (rt : Runtime) (clock : nat) (token : string)
  : time_Time * option error * nat :=
  let text := normalize_time token in
  let matches := FindStringSubmatch r_time text in
  let fail err := (time_Now rt clock, Some err, S clock) in
  if (length matches <? 5)%nat then fail (RegexpDidntMatch text)
  else
    match Atoi (nth 1 matches EmptyString) with
    | (_, Some err) => fail err
    | (h, None) =>
        match Atoi (nth 2 matches EmptyString) with
        | (_, Some err) => fail err
        | (m, None) =>
            match Atoi (nth 3 matches EmptyString) with
            | (_, Some err) => fail err
            | (s, None) =>
                match Atoi (nth 4 matches EmptyString) with
                | (_, Some err) => fail err
                | (ms, None) => (makeTime h m s ms, None, clock)
                end
            end
        end
    end.

Definition r1 : regex := Eval vm_compute in MustCompile "^([0-9]*)$".
Definition r2 : regex := Eval vm_compute in MustCompile "([0-9:.,]*) --> ([0-9:.,]*)".
Definition r3 : regex :=
  Eval vm_compute in
    MustCompile "F/([0-9.]*), SS ([0-9.]*), ISO ([0-9.]*), EV ([0-9.-]*), DZOOM ([0-9.]*), GPS \(([0-9.-]*), ([0-9.-]*), ([0-9.-]*)\), D ([0-9.-]*)m, H ([0-9.-]*)m, H\.S ([0-9.-]*)m/s. V\.S ([0-9.-]*)m/s".

(** [xs[i]]: an index out of range stops the program. *)
Definition elem_at {A : Type} (xs : list A) (i : Z) : option A :=
  if i <? 0 then None else xs !! Z.to_nat i.

(* ================================================================== *)
(** * The parser of src/main.go *)

Record MetrologySample : Type := mkSample {
  ID : Z;
  Start : time_Time;
  End_ : time_Time;              (* the field [End] *)
  FStop : float;
  Shutter : float;
  ISO : Z;
  EV : float;
  Zoom : Z;
  Latitude : float;
  Longitude : float;
  Sources : Z;                   (* number of connected satellite *)
  Bearing : float;               (* Direction in degree (0 = north) *)
  DTH : float;                   (* distance to home in meters *)
  Altitude : float;              (* in meters *)
  HorizontalSpeed : float;       (* in meters/seconds *)
  VerticalSpeed : float          (* in meters/seconds *)
}.

(** [MetrologySample{}] *)
Definition sample0 : MetrologySample :=
  mkSample 0 zero_Time zero_Time zero zero 0 zero 0 zero zero 0 zero zero zero zero zero.

Definition set_ID (v : Z) (d : MetrologySample) : MetrologySample :=
  mkSample v (Start d) (End_ d) (FStop d) (Shutter d) (ISO d) (EV d) (Zoom d)
    (Latitude d) (Longitude d) (Sources d) (Bearing d) (DTH d) (Altitude d)
    (HorizontalSpeed d) (VerticalSpeed d).

Definition set_Start (v : time_Time) (d : MetrologySample) : MetrologySample :=
  mkSample (ID d) v (End_ d) (FStop d) (Shutter d) (ISO d) (EV d) (Zoom d)
    (Latitude d) (Longitude d) (Sources d) (Bearing d) (DTH d) (Altitude d)
    (HorizontalSpeed d) (VerticalSpeed d).

Definition set_End (v : time_Time) (d : MetrologySample) : MetrologySample :=
  mkSample (ID d) (Start d) v (FStop d) (Shutter d) (ISO d) (EV d) (Zoom d)
    (Latitude d) (Longitude d) (Sources d) (Bearing d) (DTH d) (Altitude d)
    (HorizontalSpeed d) (VerticalSpeed d).

Definition set_Bearing (v : float) (d : MetrologySample) : MetrologySample :=
  mkSample (ID d) (Start d) (End_ d) (FStop d) (Shutter d) (ISO d) (EV d) (Zoom d)
    (Latitude d) (Longitude d) (Sources d) v (DTH d) (Altitude d)
    (HorizontalSpeed d) (VerticalSpeed d).

(** The twelve assignments [data.FStop, _ = ...] to [data.VerticalSpeed, _ = ...]
    of a data line, from the submatches [c1] ... [c11]. *)
Definition set_decoded (c1 c2 c3 c4 c5 c6 c7 c8 c9 c10 c11 : string)
  (d : MetrologySample) : MetrologySample :=
  mkSample (ID d) (Start d) (End_ d)
    (fst (ParseFloat c1))        (* FStop *)
    (fst (ParseFloat c2))        (* Shutter *)
    (fst (Atoi c3))              (* ISO *)
    (fst (ParseFloat c4))        (* EV *)
    (fst (Atoi c5))              (* Zoom *)
    (fst (ParseFloat c7))        (* Latitude *)
    (fst (ParseFloat c6))        (* Longitude *)
    (fst (Atoi c8))              (* Sources *)
    (Bearing d)
    (fst (ParseFloat c9))        (* DTH *)
    (fst (ParseFloat c10))       (* Altitude *)
    (fst (ParseFloat c11))       (* HorizontalSpeed *)
    (fst (ParseFloat c11)).      (* VerticalSpeed *)

(** Represents a Physical Point in geographic notation [lat, lng]. *)
Record Point : Type := mkPoint { lat : float; lng : float }.

Definition BearingTo (rt : Runtime) (p1 p2 : Point) : float :=
  let dLon := ((lng p2 - lng p1) * math_Pi / 180)%float in
  let lat1 := (lat p1 * math_Pi / 180)%float in
  let lat2 := (lat p2 * math_Pi / 180)%float in
  let y := (math_Sin rt dLon * math_Cos rt lat2)%float in
  let x := (math_Cos rt lat1 * math_Sin rt lat2
            - math_Sin rt lat1 * math_Cos rt lat2 * math_Cos rt dLon)%float in
  let brng := (math_Atan2 rt y x * 180 / math_Pi)%float in
  brng.

(** The variables of [parseSRT] that live across lines.  [heap] holds every
    [MetrologySample] allocated so far; [data] and the entries of
    [metrology] are addresses into it. *)
Record state : Type := mkState {
  heap : list MetrologySample;
  metrology : list nat;
  data : nat;
  dataLen : Z;
  clock : nat;                   (* calls of [time.Now()] so far *)
  stdout : list event
}.

(** [data := &MetrologySample{}; dataLen := 0] *)
Definition init_state : state := mkState [sample0] [] 0 0 0 [].

(** [data = &MetrologySample{}] *)
Definition alloc_data (st : state) : state :=
  mkState (heap st ++ [sample0]) (metrology st) (length (heap st))
    (dataLen st) (clock st) (stdout st).

(** [data.F = ...] *)
Definition store (f : MetrologySample -> MetrologySample) (st : state) : state :=
  mkState (alter f (data st) (heap st)) (metrology st) (data st)
    (dataLen st) (clock st) (stdout st).

(** One token of a time-range line: [t, err = parseSrtTime(token)], the
    assignment of [t] by [set], and the report of [err]. *)
Definition time_field (rt : Runtime) (c : nat) (token : string)
  (set : time_Time -> MetrologySample -> MetrologySample) (st : state) : state :=
  let '(t, err, clock') := parseSrtTime rt (clock st) token in
  let st' := store (set t) st in
  mkState (heap st') (metrology st') (data st') (dataLen st') clock'
    (match err with
     | Some e => stdout st ++ [Printf_start_error c e]
     | None => stdout st
     end).

(** The branch of a data line after the twelve assignments. *)
Definition emit (rt : Runtime) (st : state) : option state :=
  st1 ← (if 1 <? dataLen st then
           prev ← elem_at (metrology st) (dataLen st - 1);
           p ← heap st !! prev;
           d ← heap st !! data st;
           let bearing :=
             BearingTo rt (mkPoint (Latitude p) (Longitude p))
                          (mkPoint (Latitude d) (Longitude d)) in
           if (bearing =? 0)%float || (bearing =? 180)%float
           then Some (store (set_Bearing (Bearing p)) st)
           else Some (store (set_Bearing bearing) st)
         else Some st);
  Some (mkState (heap st1) (metrology st1 ++ [data st1]) (data st1)
          (dataLen st1 + 1) (clock st1) (stdout st1)).

(** The body of [for c, l := range lines]; [None] is a run-time panic. *)
Definition step (rt : Runtime) (c : nat) (l : string) (st : state) : option state :=
  if String.eqb l EmptyString then Some (alloc_data st)
  else
    let idMatches := FindStringSubmatch r1 l in
    if (length idMatches =? 2)%nat then
      m1 ← idMatches !! 1%nat;
      Some (store (set_ID (fst (Atoi m1))) st)
    else
      let timeMatches := FindStringSubmatch r2 l in
      if (length timeMatches =? 3)%nat then
        t1 ← timeMatches !! 1%nat;
        let st1 := time_field rt c t1 set_Start st in
        t2 ← timeMatches !! 2%nat;
        Some (time_field rt c t2 set_End st1)
      else
        let dataMatches := FindStringSubmatch r3 l in
        if (3 <=? length dataMatches)%nat then
          c1 ← dataMatches !! 1%nat;
          c2 ← dataMatches !! 2%nat;
          c3 ← dataMatches !! 3%nat;
          c4 ← dataMatches !! 4%nat;
          c5 ← dataMatches !! 5%nat;
          c6 ← dataMatches !! 6%nat;
          c7 ← dataMatches !! 7%nat;
          c8 ← dataMatches !! 8%nat;
          c9 ← dataMatches !! 9%nat;
          c10 ← dataMatches !! 10%nat;
          c11 ← dataMatches !! 11%nat;
          emit rt (store (set_decoded c1 c2 c3 c4 c5 c6 c7 c8 c9 c10 c11) st)
        else Some st.

Fixpoint run (rt : Runtime) (c : nat) (lines : list string) (st : state)
  : option state :=
  match lines with
  | [] => Some st
  | l :: ls => st' ← step rt c l st; run rt (S c) ls st'
  end.

(** parse SRT file.  [None]: the call panicked. *)
Definition parseSRT (rt : Runtime) (b : string) : option state :=
  if (String.length b <? 3)%nat then None
  else
    let s := drop_bytes 3 b in
    let lines := strings_Split s LF in
    run rt 0 lines init_state.

(** The returned [Metrology], each entry read through its pointer. *)
Definition deref (st : state) (p : nat) : MetrologySample :=
  default sample0 (heap st !! p).

Definition samples (st : state) : list MetrologySample :=
  deref st <$> metrology st.

(* ================================================================== *)
(** * The parser of src/unnamed/part_000

    This variant allocates [data] anew for every line that is not blank, so
    a sample never shares its record; it has no bearing, and it reads the
    third GPS number into [Direction]. *)

Module Legacy.

Record MetrologySample : Type := mkSample {
  ID : Z;
  Start : time_Time;
  End_ : time_Time;
  FStop : float;
  Shutter : float;
  ISO : Z;
  EV : float;
  Zoom : Z;
  Latitude : float;
  Longitude : float;
  Direction : Z;
  DTH : float;                 (* distance to home in meters *)
  Altitude : float;            (* in meters *)
  HorizontalSpeed : float;     (* in meters/seconds *)
  VerticalSpeed : float        (* in meters/seconds *)
}.

Definition sample0 : MetrologySample :=
  mkSample 0 zero_Time zero_Time zero zero 0 zero 0 zero zero 0 zero zero zero zero.

Definition set_decoded (c1 c2 c3 c4 c5 c6 c7 c8 c9 c10 c11 : string)
  (d : MetrologySample) : MetrologySample :=
  mkSample (ID d) (Start d) (End_ d)
    (fst (ParseFloat c1))      (* FStop *)
    (fst (ParseFloat c2))      (* Shutter *)
    (fst (Atoi c3))            (* ISO *)
    (fst (ParseFloat c4))      (* EV *)
    (fst (Atoi c5))            (* Zoom *)
    (fst (ParseFloat c6))      (* Latitude *)
    (fst (ParseFloat c7))      (* Longitude *)
    (fst (Atoi c8))            (* Direction *)
    (fst (ParseFloat c9))      (* DTH *)
    (fst (ParseFloat c10))     (* Altitude *)
    (fst (ParseFloat c11))     (* HorizontalSpeed *)
    (fst (ParseFloat c11)).    (* VerticalSpeed *)

Record state : Type := mkState {
  metrology : list MetrologySample;
  clock : nat;
  stdout : list event
}.

Definition init_state : state := mkState [] 0 [].

(** One token of a time-range line; the time goes into the [data] of this
    line only, which is dropped at [continue]. *)
Definition time_field (rt : Runtime) (c : nat) (token : string) (st : state) : state :=
  let '(_, err, clock') := parseSrtTime rt (clock st) token in
  mkState (metrology st) clock'
    (match err with
     | Some e => stdout st ++ [Printf_start_error c e]
     | None => stdout st
     end).

Definition step (rt : Runtime) (c : nat) (l : string) (st : state) : option state :=
  if String.eqb l EmptyString then Some st
  else
    let data := sample0 in
    let idMatches := FindStringSubmatch r1 l in
    if (length idMatches =? 2)%nat then
      m1 ← idMatches !! 1%nat;
      Some st
    else
      let timeMatches := FindStringSubmatch r2 l in
      if (length timeMatches =? 3)%nat then
        t1 ← timeMatches !! 1%nat;
        let st1 := time_field rt c t1 st in
        t2 ← timeMatches !! 2%nat;
        Some (time_field rt c t2 st1)
      else
        let dataMatches := FindStringSubmatch r3 l in
        if (3 <=? length dataMatches)%nat then
          c1 ← dataMatches !! 1%nat;
          c2 ← dataMatches !! 2%nat;
          c3 ← dataMatches !! 3%nat;
          c4 ← dataMatches !! 4%nat;
          c5 ← dataMatches !! 5%nat;
          c6 ← dataMatches !! 6%nat;
          c7 ← dataMatches !! 7%nat;
          c8 ← dataMatches !! 8%nat;
          c9 ← dataMatches !! 9%nat;
          c10 ← dataMatches !! 10%nat;
          c11 ← dataMatches !! 11%nat;
          Some (mkState
                  (metrology st ++ [set_decoded c1 c2 c3 c4 c5 c6 c7 c8 c9 c10 c11 data])
                  (clock st) (stdout st))
        else Some st.

Fixpoint run (rt : Runtime) (c : nat) (lines : list string) (st : state)
  : option state :=
  match lines with
  | [] => Some st
  | l :: ls => st' ← step rt c l st; run rt (S c) ls st'
  end.

Definition parseSRT (rt : Runtime) (b : string) : option state :=
  if (String.length b <? 3)%nat then None
  else
    let s := drop_bytes 3 b in
    let lines := strings_Split s LF in
    run rt 0 lines init_state.

End Legacy.

(* ================================================================== *)
(** * Specification-level definitions *)

Local Open Scope string_scope.
Local Open Scope list_scope.
Local Open Scope nat_scope.

Inductive matches : regex -> nat -> string -> string -> list string -> Prop :=
| M_eps i rest : matches REps i "" rest []
| M_bol rest : matches RBol 0 "" rest []
| M_eol i : matches REol i "" "" []
| M_char c i x rest :
    cset_mem c x = true -> matches (RChar c) i (String x "") rest []
| M_any i x s :
    Ascii.eqb x LF = false ->
    matches RAny i (substring 0 (rune_width (String x s)) (String x s))
      (drop_bytes (rune_width (String x s)) (String x s)) []
| M_star c i w rest :
    all_bytes (cset_mem c) w = true -> matches (RStar c) i w rest []
| M_plus c i x w rest :
    cset_mem c x = true -> all_bytes (cset_mem c) w = true ->
    matches (RPlus c) i (String x w) rest []
| M_group r i w rest cs :
    matches r i w rest cs -> matches (RGroup r) i w rest (cs ++ [w])
| M_cat r1 r2 i w1 w2 rest cs1 cs2 :
    matches r1 i w1 (w2 +:+ rest) cs1 ->
    matches r2 (i + String.length w1) w2 rest cs2 ->
    matches (RCat r1 r2) i (w1 +:+ w2) rest (cs1 ++ cs2).

Fixpoint ngroups (r : regex) : nat :=
  match r with
  | RGroup r' => S (ngroups r')
  | RCat r1 r2 => ngroups r1 + ngroups r2
  | _ => 0
  end.

Definition stops (c : cset) (rest : string) : Prop :=
  match rest with
  | EmptyString => True
  | String x _ => cset_mem c x = false
  end.

Fixpoint requires (r : regex) (x : ascii) : bool :=
  match r with
  | RChar (CLit y) => Ascii.eqb x y
  | RPlus (CLit y) => Ascii.eqb x y
  | RGroup r' => requires r' x
  | RCat r1 r2 => requires r1 x || requires r2 x
  | _ => false
  end.

Definition cls_digit : cset := CSet [("0", "9")]%char.

Definition cls_num : cset := CSet [("0", "9"); (".", ".")]%char.

Definition cls_snum : cset := CSet [("0", "9"); (".", "."); ("-", "-")]%char.

Definition cls_time : cset := CSet [("0", "9"); (":", ":"); (".", "."); (",", ",")]%char.

Definition data_line_text (f ss iso ev zoom lon lat sat d h hs vs : string) : string :=
  "F/" +:+ f +:+ ", SS " +:+ ss +:+ ", ISO " +:+ iso +:+ ", EV " +:+ ev
  +:+ ", DZOOM " +:+ zoom +:+ ", GPS (" +:+ lon +:+ ", " +:+ lat +:+ ", " +:+ sat
  +:+ "), D " +:+ d +:+ "m, H " +:+ h +:+ "m, H.S " +:+ hs +:+ "m/s, V.S " +:+ vs +:+ "m/s".

Definition time_range_text (t1 t2 : string) : string := t1 +:+ " --> " +:+ t2.

(** The twelve numbers of a data line are written with the bytes that the
    groups of [r3] admit. *)
Definition data_fields_ok (f ss iso ev zoom lon lat sat d h hs vs : string) : bool :=
  all_bytes (cset_mem cls_num) f && all_bytes (cset_mem cls_num) ss
  && all_bytes (cset_mem cls_num) iso && all_bytes (cset_mem cls_snum) ev
  && all_bytes (cset_mem cls_num) zoom && all_bytes (cset_mem cls_snum) lon
  && all_bytes (cset_mem cls_snum) lat && all_bytes (cset_mem cls_snum) sat
  && all_bytes (cset_mem cls_snum) d && all_bytes (cset_mem cls_snum) h
  && all_bytes (cset_mem cls_snum) hs && all_bytes (cset_mem cls_snum) vs.

Definition digits1 (d : string) : Prop := d <> "" /\ all_bytes is_digit d = true.

(** Patterns as chains of literals and captured class repetitions *)
Fixpoint lits (p : string) (r : regex) : regex :=
  match p with
  | EmptyString => r
  | String c p' => RCat (RChar (CLit c)) (lits p' r)
  end.

Definition grp_star (c : cset) (r : regex) : regex := RCat (RGroup (RCat (RStar c) REps)) r.

Definition grp_plus (c : cset) (r : regex) : regex := RCat (RGroup (RCat (RPlus c) REps)) r.

Definition time_text (d1 d2 d3 d4 : string) : string :=
  d1 +:+ ":" +:+ d2 +:+ ":" +:+ d3 +:+ ":" +:+ d4.

Definition four_groups (text : string) : Prop :=
  exists pre d1 d2 d3 d4 post,
    text = pre +:+ time_text d1 d2 d3 d4 +:+ post
    /\ digits1 d1 /\ digits1 d2 /\ digits1 d3 /\ digits1 d4.

Fixpoint decimal_from (s : string) (n : Z) : Z :=
  match s with
  | EmptyString => n
  | String c s' => decimal_from s' (n * 10 + digit_val c)
  end.

Definition decimal (s : string) : Z := decimal_from s 0.

Definition is_sep (c : ascii) : Prop := c = ":"%char \/ c = ","%char \/ c = "."%char.

(** parseSrtTime on matched groups *)
Definition fits_int (d : string) : bool := (decimal d <=? maxInt64)%Z.

Inductive line_kind : Type :=
| Blank
| IndexLine (m1 : string)
| TimeRange (t1 t2 : string)
| DataLine (caps : list string)
| Unmatched.

(** The order in which [parseSRT] tries a line: first match wins. *)
Definition classify_line (l : string) : line_kind :=
  if String.eqb l "" then Blank
  else
    match FindStringSubmatch r1 l with
    | [_; m1] => IndexLine m1
    | _ =>
        match FindStringSubmatch r2 l with
        | [_; t1; t2] => TimeRange t1 t2
        | _ =>
            let caps := FindStringSubmatch r3 l in
            if 3 <=? length caps then DataLine caps else Unmatched
        end
    end.

Definition set_decoded_caps (caps : list string) : MetrologySample -> MetrologySample :=
  set_decoded (nth 1 caps "") (nth 2 caps "") (nth 3 caps "") (nth 4 caps "")
    (nth 5 caps "") (nth 6 caps "") (nth 7 caps "") (nth 8 caps "") (nth 9 caps "")
    (nth 10 caps "") (nth 11 caps "").

Definition Inv (st : state) : Prop :=
  data st < length (heap st)
  /\ dataLen st = Z.of_nat (length (metrology st))
  /\ Forall (fun p => p < length (heap st)) (metrology st).

Definition point_of (s : MetrologySample) : Point := mkPoint (Latitude s) (Longitude s).

(** The bearing that [parseSRT] stores once two samples are out: the one
    from [prev] to [cur], or the bearing of [prev] when that is 0 or 180. *)
Definition next_bearing (rt : Runtime) (prev cur : MetrologySample) : float :=
  let b := BearingTo rt (point_of prev) (point_of cur) in
  if (b =? 0)%float || (b =? 180)%float then Bearing prev else b.

Definition is_data (l : string) : bool :=
  match classify_line l with DataLine _ => true | _ => false end.

Definition count_data (lines : list string) : nat :=
  length (List.filter is_data lines).

Definition decoded_fields (s : MetrologySample)
  : float * float * Z * float * Z * float * float * Z * float * float * float * float :=
  (FStop s, Shutter s, ISO s, EV s, Zoom s, Latitude s, Longitude s, Sources s,
   DTH s, Altitude s, HorizontalSpeed s, VerticalSpeed s).

(** The lines up to the first blank one. *)
Fixpoint until_blank (lines : list string) : list string :=
  match lines with
  | [] => []
  | l :: ls => if String.eqb l "" then [] else l :: until_blank ls
  end.

(** effect of one line *)
Record step_frame (st st' : state) : Prop := {
  sf_inv : Inv st';
  sf_heap_len : length (heap st) <= length (heap st');
  sf_data_mono : data st <= data st';
  sf_frozen : forall q, q < data st -> heap st' !! q = heap st !! q;
  sf_metrology : exists extra, metrology st' = metrology st ++ extra;
  sf_clock : clock st <= clock st'
}.

Definition legacy_set_decoded_caps (caps : list string)
  : Legacy.MetrologySample -> Legacy.MetrologySample :=
  Legacy.set_decoded (nth 1 caps "") (nth 2 caps "") (nth 3 caps "") (nth 4 caps "")
    (nth 5 caps "") (nth 6 caps "") (nth 7 caps "") (nth 8 caps "") (nth 9 caps "")
    (nth 10 caps "") (nth 11 caps "").

Definition utf8_bom : string :=
  String (ascii_of_nat 239) (String (ascii_of_nat 187) (String (ascii_of_nat 191) "")).

Definition join_lines (ls : list string) : string := String.concat (String LF "") ls.

Definition sample_data_line : string :=
  "F/2.8, SS 141.87, ISO 110, EV -0.7, DZOOM 1.000, GPS (-69.9191, 46.8451, 19), D 31.42m, H 11.80m, H.S 1.00m/s, V.S 0.70m/s".

Definition sample_caps : list string :=
  [sample_data_line; "2.8"; "141.87"; "110"; "-0.7"; "1.000"; "-69.9191"; "46.8451"; "19";
   "31.42"; "11.80"; "1.00"; "0.70"].

Definition speeds_agree (s : MetrologySample) : Prop := VerticalSpeed s = HorizontalSpeed s.

Definition legacy_speeds_agree (s : Legacy.MetrologySample) : Prop :=
  Legacy.VerticalSpeed s = Legacy.HorizontalSpeed s.

Definition sample_block_input : string :=
  utf8_bom +:+ join_lines ["44"; "00:00:43,000 --> 00:00:44,000"; sample_data_line; ""].

(** What a conversion whose error is dropped leaves in the field. *)
Definition coerced_int (text : string) (v : Z) : Prop :=
  v = fst (Atoi text)
  /\ match snd (Atoi text) with
     | None => True
     | Some (NumError _ _ false) => v = 0%Z
     | Some (NumError _ _ true) => v = maxInt64 \/ v = minInt64
     | Some (RegexpDidntMatch _) => False
     end.

Definition coerced_float (text : string) (v : float) : Prop :=
  v = fst (ParseFloat text)
  /\ match snd (ParseFloat text) with
     | None => True
     | Some (NumError _ _ false) => v = zero
     | Some (NumError _ _ true) => is_infinity v = true
     | Some (RegexpDidntMatch _) => False
     end.

Definition C6_data_line : string :=
  "F/2.8, SS 141.87, ISO 99999999999999999999, EV -0.7, DZOOM 1.000, GPS (-69.9191, 46.8451, 19), D 31.42m, H 11.80m, H.S 1.00m/s, V.S 0.70m/s".

Definition C6_input : string :=
  utf8_bom +:+ join_lines ["44"; "00:00:43,000 --> 00:00:44,000"; C6_data_line; ""].

Definition C8_time_line : string := "1:2 --> 00:00:44,000".

Definition C8_input : string :=
  utf8_bom +:+ join_lines ["44"; C8_time_line; sample_data_line; ""].

Definition time_error (rt : Runtime) (n : nat) (tok : string) : option error :=
  snd (fst (parseSrtTime rt n tok)).

Definition C7_token : string := "99999999999999999999:00:00,000".

Definition bearing_unset (s : MetrologySample) : Prop := Bearing s = zero.

Definition BearingInv (st : state) : Prop :=
  length (metrology st) < 2 -> Forall bearing_unset (heap st).

Definition exact_0_or_180 (b : float) : bool := ((b =? 0) || (b =? 180))%float.

Definition huge_number : string := "1" +:+ string_of_list_ascii (repeat "0"%char 400).

Definition C3_data_line : string :=
  data_line_text "2.8" "141.87" "110" "-0.7" "1.000" huge_number "46.8451" "19"
    "31.42" "11.80" "1.00" "0.70".

Definition C3_input : string :=
  utf8_bom +:+ join_lines [C3_data_line; ""; C3_data_line; ""; C3_data_line; ""].

(** A time token as SRT files write it: H:MM:SS,mmm. *)
Definition srt_time (h m s ms : string) : string :=
  h +:+ ":" +:+ m +:+ ":" +:+ s +:+ "," +:+ ms.

(** The text of one srt_block: index line, time-range line, data line. *)
Record srt_block : Type := mkBlock {
  b_index : string;
  b_h1 : string; b_m1 : string; b_s1 : string; b_ms1 : string;
  b_h2 : string; b_m2 : string; b_s2 : string; b_ms2 : string;
  b_fstop : string; b_shutter : string; b_iso : string; b_ev : string; b_zoom : string;
  b_gps1 : string; b_gps2 : string; b_gps3 : string;
  b_dth : string; b_alt : string; b_hs : string; b_vs : string
}.

(** A non-empty run of digits whose value fits an [int]. *)
Definition int_digits (d : string) : bool :=
  negb (String.eqb d "") && all_bytes is_digit d && fits_int d.

Definition well_formed (b : srt_block) : bool :=
  int_digits (b_index b)
  && int_digits (b_h1 b) && int_digits (b_m1 b) && int_digits (b_s1 b) && int_digits (b_ms1 b)
  && int_digits (b_h2 b) && int_digits (b_m2 b) && int_digits (b_s2 b) && int_digits (b_ms2 b)
  && all_bytes (cset_mem cls_num) (b_fstop b)
  && all_bytes (cset_mem cls_num) (b_shutter b)
  && all_bytes (cset_mem cls_num) (b_iso b)
  && all_bytes (cset_mem cls_snum) (b_ev b)
  && all_bytes (cset_mem cls_num) (b_zoom b)
  && all_bytes (cset_mem cls_snum) (b_gps1 b)
  && all_bytes (cset_mem cls_snum) (b_gps2 b)
  && all_bytes (cset_mem cls_snum) (b_gps3 b)
  && all_bytes (cset_mem cls_snum) (b_dth b)
  && all_bytes (cset_mem cls_snum) (b_alt b)
  && all_bytes (cset_mem cls_snum) (b_hs b)
  && all_bytes (cset_mem cls_snum) (b_vs b).

Definition block_lines (b : srt_block) : list string :=
  [ b_index b;
    time_range_text (srt_time (b_h1 b) (b_m1 b) (b_s1 b) (b_ms1 b))
                    (srt_time (b_h2 b) (b_m2 b) (b_s2 b) (b_ms2 b));
    data_line_text (b_fstop b) (b_shutter b) (b_iso b) (b_ev b) (b_zoom b)
      (b_gps1 b) (b_gps2 b) (b_gps3 b) (b_dth b) (b_alt b) (b_hs b) (b_vs b) ].

(** What [parseSRT] makes of a well-formed srt_block. *)
Definition block_sample (b : srt_block) : MetrologySample :=
  mkSample (decimal (b_index b))
    (makeTime (decimal (b_h1 b)) (decimal (b_m1 b)) (decimal (b_s1 b)) (decimal (b_ms1 b)))
    (makeTime (decimal (b_h2 b)) (decimal (b_m2 b)) (decimal (b_s2 b)) (decimal (b_ms2 b)))
    (fst (ParseFloat (b_fstop b)))
    (fst (ParseFloat (b_shutter b)))
    (fst (Atoi (b_iso b)))
    (fst (ParseFloat (b_ev b)))
    (fst (Atoi (b_zoom b)))
    (fst (ParseFloat (b_gps2 b)))       (* Latitude *)
    (fst (ParseFloat (b_gps1 b)))       (* Longitude *)
    (fst (Atoi (b_gps3 b)))
    zero
    (fst (ParseFloat (b_dth b)))
    (fst (ParseFloat (b_alt b)))
    (fst (ParseFloat (b_hs b)))
    (fst (ParseFloat (b_hs b))).        (* VerticalSpeed *)

Definition decode (caps : list string) := decoded_fields (set_decoded_caps caps sample0).

(** The decoded fields of the builder after [lines], none of them blank,
    when they were [init] before. *)
Definition decoded_after (lines : list string) init :=
  fold_left (fun acc l => match classify_line l with DataLine caps => decode caps | _ => acc end)
    lines init.

Definition sample_block : srt_block :=
  mkBlock "44" "00" "00" "43" "000" "00" "00" "44" "000"
    "2.8" "141.87" "110" "-0.7" "1.000" "-69.9191" "46.8451" "19"
    "31.42" "11.80" "1.00" "0.70".

Definition C10_line (alt : string) : string :=
  data_line_text "2.8" "141.87" "110" "-0.7" "1.000" "-69.9191" "46.8451" "19"
    "31.42" alt "1.00" "0.70".

Definition C10_caps (alt : string) : list string :=
  [C10_line alt; "2.8"; "141.87"; "110"; "-0.7"; "1.000"; "-69.9191"; "46.8451"; "19";
   "31.42"; alt; "1.00"; "0.70"].

Definition C10_two_lines : string :=
  utf8_bom +:+ join_lines [C10_line "11.00"; C10_line "22.00"; ""].

Definition C10_three_lines : string :=
  utf8_bom +:+ join_lines [C10_line "11.00"; C10_line "22.00"; C10_line "33.00"; ""].

(** The range that the specification gives for a bearing: more than -180
    and at most 180 degrees. *)
Definition spec_range (b : float) : bool := ((-180 <? b) && (b <=? 180))%float.

(** A run time in which the functions of [math] are replaced by their
    values for small angles: Sin x by x, Cos x by 1 and Atan2 y x by y.  It
    has Sin(0) = 0, Cos(0) = 1, Atan2(+0, +0) = +0 and Atan2(-0, +0) = -0,
    as the package [math] has. *)
Definition small_angle_runtime : Runtime :=
  {| math_Sin := fun x => x;
     math_Cos := fun _ => 1%float;
     math_Atan2 := fun y _ => y;
     time_Now := fun _ => zero_Time;
     math_Sin_NaN := eq_refl;
     math_Atan2_NaN := fun _ => eq_refl |}.

(** The latitude of the sample block with a longitude of four hundred and
    one digits, as [ParseFloat] reads them. *)
Definition C9_point : Point :=
  mkPoint (fst (ParseFloat "46.8451")) (fst (ParseFloat huge_number)).

(** The coordinates of the sample block. *)
Definition sample_point : Point :=
  mkPoint (fst (ParseFloat "46.8451")) (fst (ParseFloat "-69.9191")).

(** A number that is neither an infinity nor NaN. *)
Definition finite_SF (x : spec_float) : bool :=
  match x with
  | S754_zero _ | S754_finite _ _ _ => true
  | _ => false
  end.

(* ================================================================== *)
(** * Definitions for the further properties *)

(** The submatches of the data lines among [lines], in the order of the
    lines. *)
Definition data_caps (lines : list string) : list (list string) :=
  omap (fun l => match classify_line l with DataLine caps => Some caps | _ => None end) lines.

(** The address that each data line among [lines] appends to the result,
    when the record under construction is at address [k]: a blank line
    moves on to the next address. *)
Fixpoint pointers (k : nat) (lines : list string) : list nat :=
  match lines with
  | [] => []
  | l :: ls =>
      if String.eqb l "" then pointers (S k) ls
      else if is_data l then k :: pointers k ls
      else pointers k ls
  end.

(** The number of blank lines among [lines]. *)
Definition count_blank (lines : list string) : nat :=
  length (List.filter (fun l => String.eqb l "") lines).

(** A bearing as [parseSRT] leaves it in a record: the zero of a new
    record, or a computed value that is neither [== 0] nor [== 180]. *)
Definition stored_bearing (s : MetrologySample) : Prop :=
  Bearing s = zero \/ exact_0_or_180 (Bearing s) = false.

(** The carriage return that ends a line of a file with CR LF line ends,
    once the file is split at the line feeds. *)
Definition CR : ascii := "013"%char.

Definition with_CR (l : string) : string := l +:+ String CR "".

(** Two blocks of a file with CR LF line ends, as [strings.Split] at the
    line feeds leaves them. *)
Definition crlf_body : list string :=
  ["44"; "00:00:43,000 --> 00:00:44,000"; C10_line "11.00"; "";
   "45"; "00:00:44,000 --> 00:00:45,000"; C10_line "22.00"].

Definition crlf_input : string :=
  utf8_bom +:+ join_lines ((with_CR <$> crlf_body) ++ [""]).

Definition arrow : string := " --> ".

(** The text is empty or its last byte is not in [c]. *)
Fixpoint ends_outside (c : cset) (s : string) : Prop :=
  match s with
  | EmptyString => True
  | String x s' =>
      match s' with
      | EmptyString => cset_mem c x = false
      | String _ _ => ends_outside c s'
      end
  end.

(** What [main] gets from outside: the values of the flags [-srtfile] and
    [-format] once [flag.Parse()] has run, and what [ioutil.ReadFile]
    returns for a path, the bytes read and the error if there is one. *)
Record Invocation : Type := {
  srtFile : string;
  format : string;
  ioutil_ReadFile : string -> string * option string
}.

(** What the program writes to standard output, call by call.  The text of
    an export is the affair of [encoding/json] and [html/template]; an
    export is recorded with the sequence of samples it is given. *)
Inductive printed : Type :=
| Println_err (err : string)                    (* fmt.Println(err) *)
| Printf_parse (e : event)                      (* printed inside parseSRT *)
| Println_MarshalIndent (m : list MetrologySample)
    (* data, _ := json.MarshalIndent(m, "", "\t"); fmt.Println(string(data)) *)
| Execute_settings (m : list MetrologySample)   (* t.Execute(os.Stdout, m) *)
| Println_Metrology (m : list Legacy.MetrologySample).  (* fmt.Println(metrologyData) *)

Inductive outcome : Type := Returned | Panicked.

Definition jsonExporter (m : list MetrologySample) : list printed :=
  [Println_MarshalIndent m].

(** fusionExporter print the metroloy in a format usable as Resolve Fusion
    objects *)
Definition fusionExporter (m : list MetrologySample) : list printed :=
  [Execute_settings m].

Definition main (rt : Runtime) (inv : Invocation) : list printed * outcome :=
  let '(data, err) := ioutil_ReadFile inv (srtFile inv) in
  let out := match err with Some e => [Println_err e] | None => [] end in
  match parseSRT rt data with
  | None => (out, Panicked)
  | Some st =>
      let metrologyData := samples st in
      (out ++ (Printf_parse <$> stdout st)
           ++ (if String.eqb (format inv) "json" then jsonExporter metrologyData
               else fusionExporter metrologyData),
       Returned)
  end.

(** [main] of src/unnamed/part_000: the file is always [sample.srt]. *)
Definition legacy_main (rt : Runtime) (ReadFile : string -> string * option string)
  : list printed * outcome :=
  let '(data, err) := ReadFile "sample.srt" in
  let out := match err with Some e => [Println_err e] | None => [] end in
  match Legacy.parseSRT rt data with
  | None => (out, Panicked)
  | Some st =>
      (out ++ (Printf_parse <$> Legacy.stdout st) ++ [Println_Metrology (Legacy.metrology st)],
       Returned)
  end.

Definition no_file : Invocation :=
  {| srtFile := "sample.srt"; format := "json";
     ioutil_ReadFile := fun _ => ("", Some "open sample.srt: no such file or directory") |}.

(** The sample of block [b] as [parseSRT] emits it after the samples [out]:
    the fields of the block, and from the third sample on the bearing from
    the sample before. *)
Definition emitted (rt : Runtime) (out : list MetrologySample) (b : srt_block)
  : MetrologySample :=
  match last out with
  | Some prev =>
      if 2 <=? length out
      then set_Bearing (next_bearing rt prev (block_sample b)) (block_sample b)
      else block_sample b
  | None => block_sample b
  end.

(** The samples of the blocks [bs], emitted in turn after [out]. *)
Fixpoint parsed_blocks (rt : Runtime) (out : list MetrologySample) (bs : list srt_block)
  : list MetrologySample :=
  match bs with
  | [] => out
  | b :: bs' => parsed_blocks rt (out ++ [emitted rt out b]) bs'
  end.

(** The lines of a file of blocks, a blank line after each. *)
Definition blocks_lines (bs : list srt_block) : list string :=
  concat ((fun b => block_lines b ++ [""]) <$> bs).

(** The variables of [parseSRT] between two blocks: the finished records
    [out], each entered once, and a new record under construction. *)
Definition between_blocks (out : list MetrologySample) (clk : nat) : state :=
  mkState (out ++ [sample0]) (seq 0 (length out)) (length out) (Z.of_nat (length out)) clk [].

(** A data line with the byte [x] where the grammar has the comma before
    [V.S], and with [tail] after the last [m/s]. *)
Definition data_line_with (x : ascii) (tail : string)
  (f ss iso ev zoom lon lat sat d h hs vs : string) : string :=
  "F/" +:+ f +:+ ", SS " +:+ ss +:+ ", ISO " +:+ iso +:+ ", EV " +:+ ev
  +:+ ", DZOOM " +:+ zoom +:+ ", GPS (" +:+ lon +:+ ", " +:+ lat +:+ ", " +:+ sat
  +:+ "), D " +:+ d +:+ "m, H " +:+ h +:+ "m, H.S " +:+ hs +:+ "m/s"
  +:+ String x (" V.S " +:+ vs +:+ "m/s" +:+ tail).

(* ================================================================== *)
(** * Facts *)

Lemma str_app_nil_r s : s +:+ "" = s.
Proof. induction s; simpl; congruence. Qed.

Lemma str_app_assoc s1 s2 s3 : (s1 +:+ s2) +:+ s3 = s1 +:+ (s2 +:+ s3).
Proof. induction s1; simpl; congruence. Qed.

Lemma str_length_app s1 s2 :
  String.length (s1 +:+ s2) = String.length s1 + String.length s2.
Proof. induction s1; simpl; congruence. Qed.

Lemma substring_prefix w rest : substring 0 (String.length w) (w +:+ rest) = w.
Proof.
  induction w as [|c w IH]; simpl.
  - destruct rest; reflexivity.
  - now rewrite IH.
Qed.

Lemma substring_consumed i w rest :
  substring 0 (i + String.length w - i) (w +:+ rest) = w.
Proof. replace (i + String.length w - i) with (String.length w) by lia. apply substring_prefix. Qed.

Lemma take_drop_bytes n s : substring 0 n s +:+ drop_bytes n s = s.
Proof.
  revert s; induction n as [|n IH]; intros [|c s]; simpl; try reflexivity.
  now rewrite IH.
Qed.

Lemma substring_length_le n s :
  n <= String.length s -> String.length (substring 0 n s) = n.
Proof.
  revert s; induction n as [|n IH]; intros [|c s]; simpl; intros H; try lia.
  rewrite IH; lia.
Qed.

Lemma rune_width_le s : rune_width s <= String.length s.
Proof.
  destruct s as [|c0 [|c1 [|c2 [|c3 s]]]]; unfold rune_width; cbn [String.length];
    repeat match goal with
           | |- context [if ?b then _ else _] => destruct b
           end; lia.
Qed.

Lemma star_loop_sound c k s : forall i m,
  star_loop c k i s = Some m ->
  exists w rest, s = w +:+ rest /\ all_bytes (cset_mem c) w = true
                 /\ k (i + String.length w) rest = Some m.
Proof.
  induction s as [|x s IH]; intros i m H; simpl in H.
  - exists "", "". rewrite Nat.add_0_r. auto.
  - destruct (cset_mem c x) eqn:Hx.
    + destruct (star_loop c k (S i) s) as [m'|] eqn:Hs.
      * injection H as <-. destruct (IH _ _ Hs) as (w & rest & -> & Hw & Hk).
        exists (String x w), rest. simpl. rewrite Hx, Hw.
        replace (i + S (String.length w)) with (S i + String.length w) by lia. auto.
      * exists "", (String x s). rewrite Nat.add_0_r. auto.
    + exists "", (String x s). rewrite Nat.add_0_r. auto.
Qed.

Lemma star_loop_complete c k w : forall i rest m,
  all_bytes (cset_mem c) w = true ->
  k (i + String.length w) rest = Some m ->
  exists m', star_loop c k i (w +:+ rest) = Some m'.
Proof.
  induction w as [|x w IH]; intros i rest m Hw Hk; simpl in *.
  - rewrite Nat.add_0_r in Hk.
    destruct rest as [|y rest]; simpl; eauto.
    destruct (cset_mem c y); eauto.
    destruct (star_loop c k (S i) rest); eauto.
  - apply andb_true_iff in Hw as [Hx Hw]. rewrite Hx.
    replace (i + S (String.length w)) with (S i + String.length w) in Hk by lia.
    destruct (IH _ _ _ Hw Hk) as [m' ->]. eauto.
Qed.

Lemma exec_sound r : forall i s caps k m,
  exec r i s caps k = Some m ->
  exists w rest cs, s = w +:+ rest /\ matches r i w rest cs
                    /\ k (i + String.length w) rest (caps ++ cs) = Some m.
Proof.
  induction r as [| | |c| |c|c|r IH|r1 IH1 r2 IH2]; intros i s caps k m H; simpl in H.
  - exists "", s, []. rewrite Nat.add_0_r, app_nil_r. repeat split; auto. constructor.
  - destruct (Nat.eqb_spec i 0) as [->|]; [|discriminate].
    exists "", s, []. rewrite app_nil_r. repeat split; auto. constructor.
  - destruct s; [|discriminate].
    exists "", "", []. rewrite Nat.add_0_r, app_nil_r. repeat split; auto. constructor.
  - destruct s as [|x s]; [discriminate|]. destruct (cset_mem c x) eqn:Hx; [|discriminate].
    exists (String x ""), s, []. rewrite app_nil_r. simpl. rewrite Nat.add_1_r.
    repeat split; auto. now constructor.
  - destruct s as [|x s]; [discriminate|]. destruct (Ascii.eqb x LF) eqn:Hx; [discriminate|].
    eexists _, _, []. split; [|split; [apply (M_any i x s Hx)|]].
    + symmetry. apply take_drop_bytes.
    + rewrite substring_length_le by apply rune_width_le. now rewrite app_nil_r.
  - apply star_loop_sound in H as (w & rest & -> & Hw & Hk).
    exists w, rest, []. rewrite app_nil_r. repeat split; auto. now constructor.
  - destruct s as [|x s]; [discriminate|]. destruct (cset_mem c x) eqn:Hx; [|discriminate].
    apply star_loop_sound in H as (w & rest & -> & Hw & Hk).
    exists (String x w), rest, []. rewrite app_nil_r. simpl.
    replace (i + S (String.length w)) with (S i + String.length w) by lia.
    repeat split; auto. now constructor.
  - apply IH in H as (w & rest & cs & -> & Hm & Hk).
    rewrite substring_consumed in Hk.
    exists w, rest, (cs ++ [w]). rewrite app_assoc. repeat split; auto. now constructor.
  - apply IH1 in H as (w1 & rest1 & cs1 & -> & Hm1 & Hk).
    apply IH2 in Hk as (w2 & rest & cs2 & -> & Hm2 & Hk).
    exists (w1 +:+ w2), rest, (cs1 ++ cs2).
    rewrite str_app_assoc, str_length_app, Nat.add_assoc, app_assoc.
    repeat split; auto. now constructor.
Qed.

Lemma exec_complete r i w rest cs :
  matches r i w rest cs ->
  forall caps k m,
    k (i + String.length w) rest (caps ++ cs) = Some m ->
    exists m', exec r i (w +:+ rest) caps k = Some m'.
Proof.
  induction 1 as [i rest|rest|i|c i x rest Hx|i x s Hx|c i w rest Hw|c i x w rest Hx Hw
                 |r i w rest cs Hm IH|r1 r2 i w1 w2 rest cs1 cs2 Hm1 IH1 Hm2 IH2];
    intros caps k m Hk.
  - simpl in *. rewrite Nat.add_0_r, app_nil_r in Hk. eauto.
  - simpl in *. rewrite app_nil_r in Hk. eauto.
  - simpl in *. rewrite Nat.add_0_r, app_nil_r in Hk. eauto.
  - simpl in *. rewrite Hx. rewrite Nat.add_1_r, app_nil_r in Hk. eauto.
  - rewrite take_drop_bytes. cbn [exec]. rewrite Hx.
    rewrite substring_length_le, app_nil_r in Hk by apply rune_width_le. eauto.
  - simpl in *. rewrite app_nil_r in Hk.
    eapply (star_loop_complete c (fun j s' => k j s' caps)); eauto.
  - simpl in *. rewrite Hx. rewrite app_nil_r in Hk.
    replace (i + S (String.length w)) with (S i + String.length w) in Hk by lia.
    eapply (star_loop_complete c (fun j s' => k j s' caps)); eauto.
  - cbn [exec]. eapply IH. rewrite substring_consumed, <- app_assoc. exact Hk.
  - cbn [exec]. rewrite str_app_assoc.
    rewrite str_length_app, Nat.add_assoc, app_assoc in Hk.
    destruct (IH2 _ _ _ Hk) as [m2 H2].
    eapply IH1. exact H2.
Qed.

Lemma matches_ngroups r i w rest cs :
  matches r i w rest cs -> length cs = ngroups r.
Proof.
  induction 1; simpl; auto.
  - rewrite length_app. simpl. lia.
  - rewrite length_app. lia.
Qed.

Lemma accept_sound r i s m :
  exec r i s [] (accept i s) = Some m ->
  exists w rest cs, s = w +:+ rest /\ matches r i w rest cs /\ m = w :: cs.
Proof.
  intros He. apply exec_sound in He as (w & rest & cs & -> & Hm & Hk).
  unfold accept in Hk. rewrite substring_consumed in Hk. injection Hk as <-.
  exists w, rest, cs. auto.
Qed.

Lemma search_sound r s : forall i m,
  search r i s = Some m ->
  exists pre w rest cs,
    s = pre +:+ w +:+ rest /\ matches r (i + String.length pre) w rest cs /\ m = w :: cs.
Proof.
  induction s as [|x s IH]; intros i m H; simpl in H.
  - destruct (exec r i "" [] (accept i "")) as [m'|] eqn:He; [|discriminate].
    injection H as <-. apply accept_sound in He as (w & rest & cs & Hs & Hm & ->).
    exists "", w, rest, cs. simpl. rewrite Nat.add_0_r. auto.
  - destruct (exec r i (String x s) [] (accept i (String x s))) as [m'|] eqn:He.
    + injection H as <-. apply accept_sound in He as (w & rest & cs & Hs & Hm & ->).
      exists "", w, rest, cs. simpl. rewrite Nat.add_0_r. auto.
    + apply IH in H as (pre & w & rest & cs & -> & Hm & ->).
      exists (String x pre), w, rest, cs. simpl.
      replace (i + S (String.length pre)) with (S i + String.length pre) by lia. auto.
Qed.

Lemma search_complete r pre : forall i w rest cs,
  matches r (i + String.length pre) w rest cs ->
  exists m, search r i (pre +:+ w +:+ rest) = Some m.
Proof.
  induction pre as [|x pre IH]; intros i w rest cs Hm; simpl in *.
  - rewrite Nat.add_0_r in Hm.
    destruct (exec_complete _ _ _ _ _ Hm [] (accept i (w +:+ rest)) _ eq_refl) as [m' He].
    destruct (w +:+ rest); simpl; rewrite He; eauto.
  - destruct (exec r i (String x (pre +:+ w +:+ rest)) [] _); eauto.
    apply (IH (S i) w rest cs).
    now replace (S i + String.length pre) with (i + S (String.length pre)) by lia.
Qed.

Lemma all_bytes_app p s t : all_bytes p (s +:+ t) = all_bytes p s && all_bytes p t.
Proof. induction s as [|c s IH]; simpl; [reflexivity|]. now rewrite IH, andb_assoc. Qed.

Lemma has_byte_app x s t : has_byte x (s +:+ t) = has_byte x s || has_byte x t.
Proof. induction s as [|c s IH]; simpl; [reflexivity|]. now rewrite IH, orb_assoc. Qed.

Lemma all_bytes_impl (p q : ascii -> bool) s :
  (forall c, p c = true -> q c = true) -> all_bytes p s = true -> all_bytes q s = true.
Proof.
  intros Hpq. induction s as [|c s IH]; simpl; [reflexivity|].
  rewrite !andb_true_iff. intros [H1 H2]. auto.
Qed.

Lemma all_bytes_no_byte p x s :
  p x = false -> all_bytes p s = true -> has_byte x s = false.
Proof.
  intros Hx. induction s as [|c s IH]; simpl; [reflexivity|].
  rewrite andb_true_iff. intros [H1 H2]. rewrite (IH H2), orb_false_r.
  destruct (Ascii.eqb_spec c x) as [->|]; congruence.
Qed.

Lemma FSS_matched r s m :
  FindStringSubmatch r s = m -> m <> [] ->
  exists pre w rest cs,
    s = pre +:+ w +:+ rest /\ matches r (String.length pre) w rest cs /\ m = w :: cs.
Proof.
  unfold FindStringSubmatch. destruct (search r 0 s) as [m'|] eqn:Hs; [|congruence].
  intros <- _. apply search_sound in Hs. exact Hs.
Qed.

Lemma FSS_complete r pre w rest cs :
  matches r (String.length pre) w rest cs ->
  FindStringSubmatch r (pre +:+ w +:+ rest) <> [].
Proof.
  intros Hm. unfold FindStringSubmatch.
  destruct (search_complete r pre 0 w rest cs Hm) as [m Hs]. rewrite Hs.
  apply search_sound in Hs as (? & ? & ? & ? & _ & _ & ->). discriminate.
Qed.

Lemma FSS_length r s :
  FindStringSubmatch r s = [] \/ length (FindStringSubmatch r s) = S (ngroups r).
Proof.
  destruct (FindStringSubmatch r s) as [|w cs] eqn:E; [now left|right].
  destruct (FSS_matched _ _ _ E) as (pre & w' & rest & cs' & _ & Hm & [= -> ->]); [discriminate|].
  simpl. f_equal. eapply matches_ngroups; eauto.
Qed.

Lemma FSS_leftmost r s m :
  exec r 0 s [] (accept 0 s) = Some m -> FindStringSubmatch r s = m.
Proof. unfold FindStringSubmatch. destruct s; simpl; now intros ->. Qed.

Lemma matches_requires r i w rest cs x :
  matches r i w rest cs -> requires r x = true -> has_byte x w = true.
Proof.
  induction 1 as [| | |c i y rest Hy| | |c i y w rest Hy Hw| |]; simpl; try discriminate; auto.
  - destruct c; [|discriminate]. simpl in Hy. intros H.
    apply Ascii.eqb_eq in Hy as ->. now rewrite Ascii.eqb_sym, H.
  - destruct c; [|discriminate]. simpl in Hy. intros H.
    apply Ascii.eqb_eq in Hy as ->. now rewrite Ascii.eqb_sym, H.
  - rewrite has_byte_app, orb_true_iff. intros [H1|H2].
    + now rewrite IHmatches1.
    + rewrite IHmatches2 by assumption. apply orb_true_r.
Qed.

Lemma FSS_requires r s x :
  requires r x = true -> has_byte x s = false -> FindStringSubmatch r s = [].
Proof.
  intros Hr Hs. destruct (FindStringSubmatch r s) as [|w cs] eqn:E; [reflexivity|exfalso].
  destruct (FSS_matched _ _ _ E) as (pre & w' & rest & cs' & -> & Hm & _); [discriminate|].
  rewrite !has_byte_app in Hs. rewrite (matches_requires _ _ _ _ _ _ Hm Hr) in Hs.
  now rewrite orb_true_r in Hs.
Qed.

(** Greedy steps *)
Lemma star_loop_greedy c k w : forall i rest m,
  all_bytes (cset_mem c) w = true -> stops c rest ->
  k (i + String.length w) rest = Some m ->
  star_loop c k i (w +:+ rest) = Some m.
Proof.
  induction w as [|x w IH]; intros i rest m Hw Hrest Hk; simpl in *.
  - rewrite Nat.add_0_r in Hk. destruct rest as [|y rest]; simpl; auto.
    simpl in Hrest. now rewrite Hrest.
  - apply andb_true_iff in Hw as [Hx Hw]. rewrite Hx.
    replace (i + S (String.length w)) with (S i + String.length w) in Hk by lia.
    now rewrite (IH _ _ _ Hw Hrest Hk).
Qed.

Lemma exec_lit x r i s caps k :
  exec (RCat (RChar (CLit x)) r) i (String x s) caps k = exec r (S i) s caps k.
Proof. simpl. now rewrite Ascii.eqb_refl. Qed.

Lemma exec_any_ascii x r i s caps k :
  (byte_val x <? 194)%N = true -> Ascii.eqb x LF = false ->
  exec (RCat RAny r) i (String x s) caps k = exec r (S i) s caps k.
Proof.
  intros Hx Hlf. cbn [exec]. rewrite Hlf. unfold rune_width. rewrite Hx.
  simpl. now rewrite Nat.add_1_r.
Qed.

Lemma exec_group_star c r i w rest caps k m :
  all_bytes (cset_mem c) w = true -> stops c rest ->
  exec r (i + String.length w) rest (caps ++ [w]) k = Some m ->
  exec (RCat (RGroup (RCat (RStar c) REps)) r) i (w +:+ rest) caps k = Some m.
Proof.
  intros Hw Hrest Hk. cbn [exec].
  apply star_loop_greedy; auto. now rewrite substring_consumed.
Qed.

Lemma exec_group_plus c r i x w rest caps k m :
  cset_mem c x = true -> all_bytes (cset_mem c) w = true -> stops c rest ->
  exec r (i + String.length (String x w)) rest (caps ++ [String x w]) k = Some m ->
  exec (RCat (RGroup (RCat (RPlus c) REps)) r) i (String x w +:+ rest) caps k = Some m.
Proof.
  intros Hx Hw Hrest Hk. cbn [exec]. cbn [String.append]. rewrite Hx.
  apply star_loop_greedy; auto.
  replace (S i + String.length w) with (i + String.length (String x w)) by (simpl; lia).
  change (String x (w +:+ rest)) with (String x w +:+ rest).
  now rewrite substring_consumed.
Qed.

Lemma exec_eps_accept i0 s0 i s caps :
  exec REps i s caps (accept i0 s0) = Some (substring 0 (i - i0) s0 :: caps).
Proof. reflexivity. Qed.

Lemma r1_eq : r1 = RCat RBol (RCat (RGroup (RCat (RStar cls_digit) REps)) (RCat REol REps)).
Proof. reflexivity. Qed.

Lemma r_time_eq :
  r_time =
  RCat (RGroup (RCat (RPlus cls_digit) REps)) (RCat (RChar (CLit ":"))
  (RCat (RGroup (RCat (RPlus cls_digit) REps)) (RCat (RChar (CLit ":"))
  (RCat (RGroup (RCat (RPlus cls_digit) REps)) (RCat (RChar (CLit ":"))
  (RCat (RGroup (RCat (RPlus cls_digit) REps)) REps)))))).
Proof. reflexivity. Qed.

Lemma cls_digit_mem x : cset_mem cls_digit x = is_digit x.
Proof. simpl. apply orb_false_r. Qed.

Lemma all_cls_digit s : all_bytes (cset_mem cls_digit) s = all_bytes is_digit s.
Proof. induction s as [|c s IH]; simpl; [reflexivity|]. now rewrite IH, orb_false_r. Qed.

(** r1 *)
Lemma star_to_eol c (K : nat -> result) s : forall i,
  star_loop c (fun j s' => match s' with EmptyString => K j | String _ _ => None end) i s
  = if all_bytes (cset_mem c) s then K (i + String.length s) else None.
Proof.
  induction s as [|x s IH]; intros i; simpl.
  - now rewrite Nat.add_0_r.
  - destruct (cset_mem c x); simpl; [|reflexivity].
    rewrite IH. replace (S i + String.length s) with (i + S (String.length s)) by lia.
    destruct (all_bytes (cset_mem c) s); [|reflexivity].
    now destruct (K _).
Qed.

Lemma search_bol r s : forall i, 0 < i -> search (RCat RBol r) i s = None.
Proof.
  induction s as [|x s IH]; intros i Hi; simpl; destruct (Nat.eqb_spec i 0); try lia; auto.
Qed.

Lemma search_unfold r i s :
  search r i s =
  match exec r i s [] (accept i s) with
  | Some m => Some m
  | None => match s with String _ s' => search r (S i) s' | EmptyString => None end
  end.
Proof. destruct s; reflexivity. Qed.

Lemma FSS_r1 s :
  FindStringSubmatch r1 s = if all_bytes is_digit s then [s; s] else [].
Proof.
  unfold FindStringSubmatch. rewrite r1_eq.
  assert (He : exec (RCat RBol (RCat (RGroup (RCat (RStar cls_digit) REps)) (RCat REol REps)))
                 0 s [] (accept 0 s)
               = if all_bytes is_digit s then Some [s; s] else None).
  { cbn [exec Nat.eqb].
    rewrite (star_to_eol cls_digit
               (fun j => accept 0 s j "" ([] ++ [substring 0 (j - 0) s]))).
    rewrite all_cls_digit. destruct (all_bytes is_digit s); [|reflexivity].
    unfold accept. simpl app. rewrite Nat.add_0_l, Nat.sub_0_r.
    pose proof (substring_prefix s "") as Hp. rewrite str_app_nil_r in Hp. now rewrite Hp. }
  rewrite search_unfold, He.
  destruct (all_bytes is_digit s); [reflexivity|].
  destruct s; [reflexivity|]. now rewrite search_bol by lia.
Qed.

Lemma exec_lits p : forall r i s caps k,
  exec (lits p r) i (p +:+ s) caps k = exec r (i + String.length p) s caps k.
Proof.
  induction p as [|c p IH]; intros; simpl lits; simpl String.append.
  - now rewrite Nat.add_0_r.
  - rewrite exec_lit, IH. f_equal. simpl. lia.
Qed.

Lemma exec_lits_some p r i s caps k m :
  exec r (i + String.length p) s caps k = Some m ->
  exec (lits p r) i (p +:+ s) caps k = Some m.
Proof. now rewrite exec_lits. Qed.

Lemma exec_any_some x r i s caps k m :
  (byte_val x <? 194)%N = true -> Ascii.eqb x LF = false ->
  exec r (S i) s caps k = Some m ->
  exec (RCat RAny r) i (String x s) caps k = Some m.
Proof. intros. now rewrite exec_any_ascii. Qed.

Lemma exec_grp_star c r i w rest caps k m :
  all_bytes (cset_mem c) w = true -> stops c rest ->
  exec r (i + String.length w) rest (caps ++ [w]) k = Some m ->
  exec (grp_star c r) i (w +:+ rest) caps k = Some m.
Proof. apply exec_group_star. Qed.

Lemma exec_grp_plus c r i w rest caps k m :
  w <> "" -> all_bytes (cset_mem c) w = true -> stops c rest ->
  exec r (i + String.length w) rest (caps ++ [w]) k = Some m ->
  exec (grp_plus c r) i (w +:+ rest) caps k = Some m.
Proof.
  destruct w as [|x w]; [congruence|]. intros _ Hw. simpl in Hw.
  apply andb_true_iff in Hw as [Hx Hw]. now apply exec_group_plus.
Qed.

Ltac lits_step :=
  lazymatch goal with
  | |- exec (lits ?p _) _ _ _ _ = _ => apply (exec_lits_some p)
  end.

(** r2 *)
Lemma r2_eq :
  r2 = grp_star cls_time (lits " --> " (grp_star cls_time REps)).
Proof. reflexivity. Qed.

Lemma FSS_r2_time_range t1 t2 :
  all_bytes (cset_mem cls_time) t1 = true ->
  all_bytes (cset_mem cls_time) t2 = true ->
  exists whole, FindStringSubmatch r2 (time_range_text t1 t2) = [whole; t1; t2].
Proof.
  intros H1 H2. eexists. apply FSS_leftmost. rewrite r2_eq. unfold time_range_text.
  apply exec_grp_star; [assumption|reflexivity|].
  lits_step.
  rewrite <- (str_app_nil_r t2) at 1.
  apply exec_grp_star; [assumption|exact I|].
  reflexivity.
Qed.

Lemma FSS_r2_requires s : has_byte ">" s = false -> FindStringSubmatch r2 s = [].
Proof. apply FSS_requires. reflexivity. Qed.

(** r3 *)
Lemma r3_eq :
  r3 =
  lits "F/" (grp_star cls_num (lits ", SS " (grp_star cls_num (lits ", ISO " (grp_star cls_num
  (lits ", EV " (grp_star cls_snum (lits ", DZOOM " (grp_star cls_num
  (lits ", GPS (" (grp_star cls_snum (lits ", " (grp_star cls_snum (lits ", " (grp_star cls_snum
  (lits "), D " (grp_star cls_snum (lits "m, H " (grp_star cls_snum
  (lits "m, H.S " (grp_star cls_snum (lits "m/s" (RCat RAny
  (lits " V.S " (grp_star cls_snum (lits "m/s" REps)))))))))))))))))))))))))).
Proof. reflexivity. Qed.

Ltac group_step := lits_step; apply exec_grp_star; [assumption|reflexivity|].

Lemma FSS_r3_data_line f ss iso ev zoom lon lat sat d h hs vs :
  all_bytes (cset_mem cls_num) f = true ->
  all_bytes (cset_mem cls_num) ss = true ->
  all_bytes (cset_mem cls_num) iso = true ->
  all_bytes (cset_mem cls_snum) ev = true ->
  all_bytes (cset_mem cls_num) zoom = true ->
  all_bytes (cset_mem cls_snum) lon = true ->
  all_bytes (cset_mem cls_snum) lat = true ->
  all_bytes (cset_mem cls_snum) sat = true ->
  all_bytes (cset_mem cls_snum) d = true ->
  all_bytes (cset_mem cls_snum) h = true ->
  all_bytes (cset_mem cls_snum) hs = true ->
  all_bytes (cset_mem cls_snum) vs = true ->
  exists whole,
    FindStringSubmatch r3 (data_line_text f ss iso ev zoom lon lat sat d h hs vs)
    = [whole; f; ss; iso; ev; zoom; lon; lat; sat; d; h; hs; vs].
Proof.
  intros. eexists. apply FSS_leftmost. rewrite r3_eq. unfold data_line_text.
  do 11 group_step.
  lits_step. apply exec_any_some; [reflexivity|reflexivity|].
  group_step. lits_step. reflexivity.
Qed.

(** inversion and introduction for [matches] *)
Lemma matches_lits_inv p : forall r i w rest cs,
  matches (lits p r) i w rest cs ->
  exists w', w = p +:+ w' /\ matches r (i + String.length p) w' rest cs.
Proof.
  induction p as [|c p IH]; intros r i w rest cs H; simpl in *.
  - exists w. now rewrite Nat.add_0_r.
  - inversion H as [| | | | | | | |r1 r2 i' w1 w2 rest' cs1 cs2 H1 H2]; subst.
    inversion H1 as [| | |c' i' x rest' Hx| | | | |]; subst.
    simpl in Hx. apply Ascii.eqb_eq in Hx as ->.
    apply IH in H2 as (w' & -> & H2). exists w'. split; [reflexivity|].
    simpl in H2. now replace (i + S (String.length p)) with (i + 1 + String.length p) by lia.
Qed.

Lemma matches_lits_intro p : forall r i w rest cs,
  matches r (i + String.length p) w rest cs -> matches (lits p r) i (p +:+ w) rest cs.
Proof.
  induction p as [|c p IH]; intros r i w rest cs H; simpl in *.
  - now rewrite Nat.add_0_r in H.
  - change (String c (p +:+ w)) with (String c "" +:+ (p +:+ w)).
    change cs with ([] ++ cs).
    constructor.
    + constructor. simpl. apply Ascii.eqb_refl.
    + apply IH. simpl. now replace (i + 1 + String.length p) with (i + S (String.length p)) by lia.
Qed.

Lemma matches_cat_inv r1 r2 i w rest cs :
  matches (RCat r1 r2) i w rest cs ->
  exists w1 w2 cs1 cs2,
    w = w1 +:+ w2 /\ cs = cs1 ++ cs2 /\ matches r1 i w1 (w2 +:+ rest) cs1
    /\ matches r2 (i + String.length w1) w2 rest cs2.
Proof. inversion 1; subst. eauto 10. Qed.

Lemma matches_group_inv r i w rest cs :
  matches (RGroup r) i w rest cs -> exists cs', cs = cs' ++ [w] /\ matches r i w rest cs'.
Proof. inversion 1; subst. eauto. Qed.

Lemma matches_plus_inv c i w rest cs :
  matches (RPlus c) i w rest cs ->
  cs = [] /\ w <> "" /\ all_bytes (cset_mem c) w = true.
Proof.
  inversion 1; subst. simpl. repeat split; [discriminate|].
  apply andb_true_iff. auto.
Qed.

Lemma matches_eps_inv i w rest cs : matches REps i w rest cs -> w = "" /\ cs = [].
Proof. inversion 1; subst. auto. Qed.

Lemma matches_grp_plus_inv c r i w rest cs :
  matches (grp_plus c r) i w rest cs ->
  exists d w' cs',
    w = d +:+ w' /\ cs = d :: cs' /\ d <> "" /\ all_bytes (cset_mem c) d = true
    /\ matches r (i + String.length d) w' rest cs'.
Proof.
  intros H. apply matches_cat_inv in H as (w1 & w2 & cs1 & cs2 & -> & -> & H1 & H2).
  apply matches_group_inv in H1 as (cs' & -> & H1).
  apply matches_cat_inv in H1 as (w3 & w4 & cs3 & cs4 & -> & -> & H3 & H4).
  apply matches_eps_inv in H4 as [-> ->].
  apply matches_plus_inv in H3 as (-> & Hn & Ha).
  rewrite str_app_nil_r in *. exists w3, w2, cs2. auto.
Qed.

Lemma matches_grp_plus_intro c r i d w rest cs :
  d <> "" -> all_bytes (cset_mem c) d = true ->
  matches r (i + String.length d) w rest cs ->
  matches (grp_plus c r) i (d +:+ w) rest (d :: cs).
Proof.
  intros Hd Ha H. destruct d as [|x d]; [congruence|]. simpl in Ha.
  apply andb_true_iff in Ha as [Hx Ha].
  change (String x d :: cs) with (([] ++ [String x d]) ++ cs).
  constructor; [|exact H]. constructor.
  rewrite <- (str_app_nil_r (String x d)) at 1.
  change (@nil string) with (@nil string ++ []).
  constructor; [|constructor]. now constructor.
Qed.

Lemma matches_grp_plus_eps c i d rest :
  d <> "" -> all_bytes (cset_mem c) d = true ->
  matches (grp_plus c REps) i d rest [d].
Proof.
  intros Hd Ha. rewrite <- (str_app_nil_r d) at 1.
  apply matches_grp_plus_intro; auto. constructor.
Qed.

Lemma r_time_chain :
  r_time = grp_plus cls_digit (lits ":" (grp_plus cls_digit (lits ":"
           (grp_plus cls_digit (lits ":" (grp_plus cls_digit REps)))))).
Proof. reflexivity. Qed.

Lemma digits1_cls d : digits1 d <-> d <> "" /\ all_bytes (cset_mem cls_digit) d = true.
Proof. unfold digits1. now rewrite all_cls_digit. Qed.

Lemma matches_r_time_inv i w rest cs :
  matches r_time i w rest cs ->
  exists d1 d2 d3 d4,
    w = time_text d1 d2 d3 d4 /\ cs = [d1; d2; d3; d4]
    /\ digits1 d1 /\ digits1 d2 /\ digits1 d3 /\ digits1 d4.
Proof.
  rewrite r_time_chain. intros H.
  apply matches_grp_plus_inv in H as (d1 & w1 & cs1 & -> & -> & N1 & A1 & H).
  apply matches_lits_inv in H as (w1' & -> & H).
  apply matches_grp_plus_inv in H as (d2 & w2 & cs2 & -> & -> & N2 & A2 & H).
  apply matches_lits_inv in H as (w2' & -> & H).
  apply matches_grp_plus_inv in H as (d3 & w3 & cs3 & -> & -> & N3 & A3 & H).
  apply matches_lits_inv in H as (w3' & -> & H).
  apply matches_grp_plus_inv in H as (d4 & w4 & cs4 & -> & -> & N4 & A4 & H).
  inversion H; subst. rewrite str_app_nil_r.
  exists d1, d2, d3, d4. rewrite !digits1_cls. unfold time_text. auto 10.
Qed.

Lemma matches_r_time_intro i d1 d2 d3 d4 rest :
  digits1 d1 -> digits1 d2 -> digits1 d3 -> digits1 d4 ->
  matches r_time i (time_text d1 d2 d3 d4) rest [d1; d2; d3; d4].
Proof.
  rewrite !digits1_cls. intros [N1 A1] [N2 A2] [N3 A3] [N4 A4].
  rewrite r_time_chain. unfold time_text.
  do 3 (apply matches_grp_plus_intro; [assumption|assumption|]; apply matches_lits_intro).
  now apply matches_grp_plus_eps.
Qed.

Lemma FSS_r_time_iff text : FindStringSubmatch r_time text <> [] <-> four_groups text.
Proof.
  split.
  - intros H. destruct (FSS_matched r_time text _ eq_refl H) as (pre & w & rest & cs & -> & Hm & _).
    apply matches_r_time_inv in Hm as (d1 & d2 & d3 & d4 & -> & _ & H1 & H2 & H3 & H4).
    exists pre, d1, d2, d3, d4, rest. auto.
  - intros (pre & d1 & d2 & d3 & d4 & post & -> & H1 & H2 & H3 & H4).
    eapply FSS_complete. now apply matches_r_time_intro.
Qed.

Lemma FSS_r_time_caps text m :
  FindStringSubmatch r_time text = m -> m <> [] ->
  exists whole d1 d2 d3 d4,
    m = [whole; d1; d2; d3; d4] /\ digits1 d1 /\ digits1 d2 /\ digits1 d3 /\ digits1 d4.
Proof.
  intros E H. destruct (FSS_matched _ _ _ E H) as (pre & w & rest & cs & _ & Hm & ->).
  apply matches_r_time_inv in Hm as (d1 & d2 & d3 & d4 & _ & -> & ?).
  exists w, d1, d2, d3, d4. auto.
Qed.

Lemma FSS_r_time_exact d1 d2 d3 d4 :
  digits1 d1 -> digits1 d2 -> digits1 d3 -> digits1 d4 ->
  exists whole, FindStringSubmatch r_time (time_text d1 d2 d3 d4) = [whole; d1; d2; d3; d4].
Proof.
  rewrite !digits1_cls. intros [N1 A1] [N2 A2] [N3 A3] [N4 A4].
  eexists. apply FSS_leftmost. rewrite r_time_chain. unfold time_text.
  do 3 (apply exec_grp_plus; [assumption|assumption|reflexivity|]; lits_step).
  rewrite <- (str_app_nil_r d4) at 1.
  apply exec_grp_plus; [assumption|assumption|exact I|]. reflexivity.
Qed.

Local Open Scope Z_scope.

Lemma is_digit_val c : is_digit c = true -> 0 <= digit_val c <= 9.
Proof.
  unfold is_digit, byte_in, digit_val. rewrite andb_true_iff, !N.leb_le.
  change (byte_val "0") with 48%N. change (byte_val "9") with 57%N. lia.
Qed.

Lemma is_digit_not_sign c : is_digit c = true -> Ascii.eqb c "-" = false /\ Ascii.eqb c "+" = false.
Proof.
  intros H. split; apply Ascii.eqb_neq; intros ->; discriminate.
Qed.

Lemma decimal_from_mono s : forall n,
  all_bytes is_digit s = true -> 0 <= n -> n <= decimal_from s n.
Proof.
  induction s as [|c s IH]; intros n Hs Hn; simpl in *; [lia|].
  apply andb_true_iff in Hs as [Hc Hs]. apply is_digit_val in Hc.
  specialize (IH (n * 10 + digit_val c) Hs). lia.
Qed.

Lemma parseUint_loop_digits s : forall n,
  all_bytes is_digit s = true -> 0 <= n <= maxUint64 ->
  parseUint_loop s n =
  if decimal_from s n <=? maxUint64 then (decimal_from s n, None) else (maxUint64, Some true).
Proof.
  induction s as [|c s IH]; intros n Hs Hn; simpl in *.
  - destruct (Z.leb_spec n maxUint64); [reflexivity|lia].
  - apply andb_true_iff in Hs as [Hc Hs]. rewrite Hc.
    pose proof (is_digit_val c Hc) as Hd.
    pose proof (decimal_from_mono s (n * 10 + digit_val c) Hs) as Hm.
    unfold maxUint64 in *.
    destruct (Z.geb_spec n ((2 ^ 64 - 1) / 10 + 1)) as [Hge|Hlt].
    + change ((2 ^ 64 - 1) / 10 + 1) with 1844674407370955162 in Hge.
      destruct (Z.leb_spec (decimal_from s (n * 10 + digit_val c)) (2 ^ 64 - 1)); [lia|reflexivity].
    + change ((2 ^ 64 - 1) / 10 + 1) with 1844674407370955162 in Hlt.
      destruct (Z.gtb_spec (n * 10 + digit_val c) (2 ^ 64 - 1)) as [Hgt|Hle].
      * destruct (Z.leb_spec (decimal_from s (n * 10 + digit_val c)) (2 ^ 64 - 1)); [lia|reflexivity].
      * apply IH; [assumption|lia].
Qed.

Lemma Atoi_digits s :
  digits1 s ->
  Atoi s = if decimal s <=? maxInt64 then (decimal s, None)
           else (maxInt64, Some (NumError "Atoi" s true)).
Proof.
  intros [Hn Hs]. destruct s as [|c s]; [congruence|].
  unfold Atoi, ParseInt, ParseUint.
  pose proof Hs as Hs'. simpl in Hs'. apply andb_true_iff in Hs' as [Hc _].
  destruct (is_digit_not_sign c Hc) as [-> ->]. cbn [orb negb andb].
  rewrite parseUint_loop_digits by (auto; unfold maxUint64; lia).
  fold (decimal (String c s)).
  pose proof (decimal_from_mono (String c s) 0 Hs ltac:(lia)) as Hm. fold (decimal (String c s)) in Hm.
  unfold maxUint64, maxInt64 in *.
  destruct (Z.leb_spec (decimal (String c s)) (2 ^ 64 - 1)).
  - destruct (Z.geb_spec (decimal (String c s)) (2 ^ 63));
      destruct (Z.leb_spec (decimal (String c s)) (2 ^ 63 - 1)); try lia; reflexivity.
  - destruct (Z.leb_spec (decimal (String c s)) (2 ^ 63 - 1)); [lia|]. reflexivity.
Qed.

(** normalisation *)
Lemma ReplaceAll_app s t a b :
  strings_ReplaceAll (s +:+ t) a b = strings_ReplaceAll s a b +:+ strings_ReplaceAll t a b.
Proof. induction s as [|c s IH]; simpl; [reflexivity|]. now rewrite IH. Qed.

Lemma Count_app s t a : strings_Count (s +:+ t) a = strings_Count s a + strings_Count t a.
Proof. induction s as [|c s IH]; simpl; [reflexivity|]. rewrite IH. lia. Qed.

Lemma ReplaceAll_id s a b : has_byte a s = false -> strings_ReplaceAll s a b = s.
Proof.
  induction s as [|c s IH]; simpl; [reflexivity|].
  rewrite orb_false_iff. intros [-> H]. now rewrite IH.
Qed.

Lemma Count_zero s a : has_byte a s = false -> strings_Count s a = 0.
Proof.
  induction s as [|c s IH]; simpl; [reflexivity|].
  rewrite orb_false_iff. intros [-> H]. now rewrite IH.
Qed.

Lemma digits_no_byte d x : is_digit x = false -> all_bytes is_digit d = true -> has_byte x d = false.
Proof. apply all_bytes_no_byte. Qed.

Lemma normalize_digits d :
  all_bytes is_digit d = true ->
  strings_ReplaceAll (strings_ReplaceAll d "," ":") "." ":" = d
  /\ strings_Count d ":" = 0.
Proof.
  intros H.
  assert (Hc : forall x, is_digit x = false -> has_byte x d = false)
    by (intros; now apply digits_no_byte).
  rewrite (ReplaceAll_id d) by now apply Hc.
  rewrite ReplaceAll_id, Count_zero by now apply Hc. auto.
Qed.

Lemma normalize_sep c :
  is_sep c -> strings_ReplaceAll (strings_ReplaceAll (String c "") "," ":") "." ":" = ":".
Proof. intros [->|[->| ->]]; reflexivity. Qed.

Ltac norm_pieces :=
  repeat match goal with
         | |- context [String ?c (?d +:+ ?t)] =>
             is_var c; change (String c (d +:+ t)) with (String c "" +:+ (d +:+ t))
         | |- context [String ?c ?d] =>
             is_var c; is_var d; change (String c d) with (String c "" +:+ d)
         end.

Lemma normalize_time_four d1 d2 d3 d4 s1 s2 s3 :
  all_bytes is_digit d1 = true -> all_bytes is_digit d2 = true ->
  all_bytes is_digit d3 = true -> all_bytes is_digit d4 = true ->
  is_sep s1 -> is_sep s2 -> is_sep s3 ->
  normalize_time (d1 +:+ String s1 (d2 +:+ String s2 (d3 +:+ String s3 d4)))
  = time_text d1 d2 d3 d4.
Proof.
  intros H1 H2 H3 H4 S1 S2 S3. unfold normalize_time.
  destruct (normalize_digits _ H1) as [R1 C1]. destruct (normalize_digits _ H2) as [R2 C2].
  destruct (normalize_digits _ H3) as [R3 C3]. destruct (normalize_digits _ H4) as [R4 C4].
  norm_pieces. rewrite !ReplaceAll_app, R1, R2, R3, R4, !normalize_sep by assumption.
  rewrite !Count_app, C1, C2, C3, C4. reflexivity.
Qed.

Lemma normalize_time_three d1 d2 d3 s1 s2 :
  all_bytes is_digit d1 = true -> all_bytes is_digit d2 = true ->
  all_bytes is_digit d3 = true ->
  is_sep s1 -> is_sep s2 ->
  normalize_time (d1 +:+ String s1 (d2 +:+ String s2 d3)) = time_text d1 d2 d3 "000".
Proof.
  intros H1 H2 H3 S1 S2. unfold normalize_time.
  destruct (normalize_digits _ H1) as [R1 C1]. destruct (normalize_digits _ H2) as [R2 C2].
  destruct (normalize_digits _ H3) as [R3 C3].
  norm_pieces. rewrite !ReplaceAll_app, R1, R2, R3, !normalize_sep by assumption.
  rewrite !Count_app, C1, C2, C3. simpl Z.eqb. cbv iota.
  unfold time_text. now rewrite !str_app_assoc.
Qed.

Lemma parseSrtTime_groups rt n tok whole d1 d2 d3 d4 :
  FindStringSubmatch r_time (normalize_time tok) = [whole; d1; d2; d3; d4] ->
  digits1 d1 -> digits1 d2 -> digits1 d3 -> digits1 d4 ->
  parseSrtTime rt n tok =
  if negb (fits_int d1) then (time_Now rt n, Some (NumError "Atoi" d1 true), S n)
  else if negb (fits_int d2) then (time_Now rt n, Some (NumError "Atoi" d2 true), S n)
  else if negb (fits_int d3) then (time_Now rt n, Some (NumError "Atoi" d3 true), S n)
  else if negb (fits_int d4) then (time_Now rt n, Some (NumError "Atoi" d4 true), S n)
  else (makeTime (decimal d1) (decimal d2) (decimal d3) (decimal d4), None, n).
Proof.
  intros E H1 H2 H3 H4. unfold parseSrtTime. rewrite E. cbn [length Nat.ltb Nat.leb nth].
  rewrite !Atoi_digits by assumption. unfold fits_int.
  destruct (decimal d1 <=? maxInt64); [|reflexivity].
  destruct (decimal d2 <=? maxInt64); [|reflexivity].
  destruct (decimal d3 <=? maxInt64); [|reflexivity].
  destruct (decimal d4 <=? maxInt64); reflexivity.
Qed.

Lemma parseSrtTime_nomatch rt n tok :
  FindStringSubmatch r_time (normalize_time tok) = [] ->
  parseSrtTime rt n tok = (time_Now rt n, Some (RegexpDidntMatch (normalize_time tok)), S n).
Proof. intros E. unfold parseSrtTime. now rewrite E. Qed.

Local Open Scope nat_scope.

Lemma r3_ngroups : ngroups r3 = 12.
Proof. reflexivity. Qed.

Lemma FSS_r3_shape l :
  (3 <=? length (FindStringSubmatch r3 l)) = true ->
  exists w c1 c2 c3 c4 c5 c6 c7 c8 c9 c10 c11 c12,
    FindStringSubmatch r3 l = [w; c1; c2; c3; c4; c5; c6; c7; c8; c9; c10; c11; c12].
Proof.
  intros H. destruct (FSS_length r3 l) as [E|E]; [rewrite E in H; discriminate|].
  rewrite r3_ngroups in E.
  destruct (FindStringSubmatch r3 l) as [|w [|c1 [|c2 [|c3 [|c4 [|c5 [|c6 [|c7 [|c8 [|c9 [|c10 [|c11 [|c12 [|]]]]]]]]]]]]]];
    try discriminate. eauto 20.
Qed.

Lemma r1_shape l : FindStringSubmatch r1 l = [] \/ exists w m1, FindStringSubmatch r1 l = [w; m1].
Proof.
  destruct (FSS_length r1 l) as [E|E]; [now left|right].
  destruct (FindStringSubmatch r1 l) as [|w [|m1 [|]]]; try discriminate. eauto.
Qed.

Lemma r2_shape l :
  FindStringSubmatch r2 l = [] \/ exists w t1 t2, FindStringSubmatch r2 l = [w; t1; t2].
Proof.
  destruct (FSS_length r2 l) as [E|E]; [now left|right].
  destruct (FindStringSubmatch r2 l) as [|w [|t1 [|t2 [|]]]]; try discriminate. eauto.
Qed.

Lemma classify_DataLine l caps :
  classify_line l = DataLine caps ->
  exists w c1 c2 c3 c4 c5 c6 c7 c8 c9 c10 c11 c12,
    caps = [w; c1; c2; c3; c4; c5; c6; c7; c8; c9; c10; c11; c12].
Proof.
  unfold classify_line. destruct (String.eqb l ""); [discriminate|].
  destruct (r1_shape l) as [->|(w & m1 & ->)]; [|discriminate].
  destruct (r2_shape l) as [->|(w & t1 & t2 & ->)]; [|discriminate].
  destruct (3 <=? length (FindStringSubmatch r3 l)) eqn:E; [|discriminate].
  intros [= <-]. now apply FSS_r3_shape.
Qed.

(** [step] by the kind of the line *)
Lemma step_classify rt c l st :
  step rt c l st =
  match classify_line l with
  | Blank => Some (alloc_data st)
  | IndexLine m1 => Some (store (set_ID (fst (Atoi m1))) st)
  | TimeRange t1 t2 =>
      Some (time_field rt c t2 set_End (time_field rt c t1 set_Start st))
  | DataLine caps => emit rt (store (set_decoded_caps caps) st)
  | Unmatched => Some st
  end.
Proof.
  unfold step, classify_line. destruct (String.eqb l ""); [reflexivity|].
  destruct (r1_shape l) as [->|(w & m1 & ->)]; [|reflexivity]. cbn [length Nat.eqb].
  destruct (r2_shape l) as [->|(w & t1 & t2 & ->)]; [|reflexivity]. cbn [length Nat.eqb].
  destruct (3 <=? length (FindStringSubmatch r3 l)) eqn:E; [|reflexivity].
  destruct (FSS_r3_shape l E) as (w & c1 & c2 & c3 & c4 & c5 & c6 & c7 & c8 & c9 & c10 & c11 & c12 & ->).
  reflexivity.
Qed.

Lemma emit_spec rt st :
  Inv st ->
  exists heap',
    emit rt st = Some (mkState heap' (metrology st ++ [data st]) (data st)
                         (dataLen st + 1) (clock st) (stdout st))
    /\ ((dataLen st <= 1)%Z -> heap' = heap st)
    /\ ((1 < dataLen st)%Z ->
        exists prev p d,
          last (metrology st) = Some prev /\ heap st !! prev = Some p
          /\ heap st !! data st = Some d
          /\ heap' = alter (set_Bearing (next_bearing rt p d)) (data st) (heap st)).
Proof.
  intros (Hd & Hl & Hm). unfold emit.
  destruct (Z.ltb_spec 1 (dataLen st)) as [H1|H1].
  - unfold elem_at. destruct (Z.ltb_spec (dataLen st - 1) 0); [lia|].
    replace (Z.to_nat (dataLen st - 1)) with (pred (length (metrology st))) by lia.
    destruct (lookup_lt_is_Some_2 (metrology st) (pred (length (metrology st)))) as [q Hq]; [lia|].
    rewrite Hq. cbn [mbind option_bind].
    pose proof (Forall_lookup_1 _ _ _ _ Hm Hq) as Hq'. cbn beta in Hq'.
    destruct (lookup_lt_is_Some_2 (heap st) q Hq') as [p Hp]. rewrite Hp. cbn [mbind option_bind].
    destruct (lookup_lt_is_Some_2 (heap st) (data st) Hd) as [d Hdd]. rewrite Hdd. cbn [mbind option_bind].
    exists (alter (set_Bearing (next_bearing rt p d)) (data st) (heap st)). split; [|split; [lia|]].
    + unfold next_bearing, point_of.
      destruct ((BearingTo rt _ _ =? 0)%float || (BearingTo rt _ _ =? 180)%float);
        cbn [mbind option_bind store heap metrology data dataLen clock stdout]; reflexivity.
    + intros _. exists q, p, d. rewrite last_lookup. repeat split; auto.
  - exists (heap st). split; [reflexivity|]. split; [auto|lia].
Qed.

Lemma Inv_store f st : Inv st -> Inv (store f st).
Proof.
  intros (Hd & Hl & Hm). unfold Inv, store; cbn. rewrite length_alter. auto.
Qed.

Lemma Inv_alloc st : Inv st -> Inv (alloc_data st).
Proof.
  intros (Hd & Hl & Hm). unfold Inv, alloc_data; cbn. rewrite length_app; cbn.
  repeat split; [lia|assumption|]. eapply Forall_impl; [exact Hm|]. cbn. intros; lia.
Qed.

Lemma time_field_fields rt c tok set st :
  exists t err,
    parseSrtTime rt (clock st) tok = (t, err, clock (time_field rt c tok set st))
    /\ heap (time_field rt c tok set st) = alter (set t) (data st) (heap st)
    /\ metrology (time_field rt c tok set st) = metrology st
    /\ data (time_field rt c tok set st) = data st
    /\ dataLen (time_field rt c tok set st) = dataLen st
    /\ stdout (time_field rt c tok set st)
       = match err with
         | Some e => stdout st ++ [Printf_start_error c e]
         | None => stdout st
         end.
Proof.
  unfold time_field. destruct (parseSrtTime rt (clock st) tok) as [[t err] n].
  exists t, err. cbn. auto 10.
Qed.

Lemma parseSrtTime_clock rt n tok : n <= snd (parseSrtTime rt n tok).
Proof.
  unfold parseSrtTime.
  repeat match goal with
         | |- context [if ?b then _ else _] => destruct b
         | |- context [match Atoi ?s with _ => _ end] => destruct (Atoi s) as [? [?|]]
         end; cbn; lia.
Qed.

Lemma Inv_time_field rt c tok set st : Inv st -> Inv (time_field rt c tok set st).
Proof.
  intros (Hd & Hl & Hm).
  destruct (time_field_fields rt c tok set st) as (t & err & _ & Hh & Hme & Hda & Hdl & _).
  unfold Inv. rewrite Hh, Hme, Hda, Hdl, length_alter. auto.
Qed.

Lemma frame_refl st : Inv st -> step_frame st st.
Proof. intros H. split; auto. exists []. now rewrite app_nil_r. Qed.

Lemma frame_trans st1 st2 st3 : step_frame st1 st2 -> step_frame st2 st3 -> step_frame st1 st3.
Proof.
  intros [I1 L1 D1 F1 [e1 M1] C1] [I2 L2 D2 F2 [e2 M2] C2]. split; auto; try lia.
  - intros q Hq. rewrite F2 by lia. auto.
  - exists (e1 ++ e2). now rewrite M2, M1, app_assoc.
Qed.

Lemma frame_store f st : Inv st -> step_frame st (store f st).
Proof.
  intros H. split; cbn; auto using Inv_store.
  - now rewrite length_alter.
  - intros q Hq. apply list_lookup_alter_ne. lia.
  - exists []. now rewrite app_nil_r.
Qed.

Lemma frame_alloc st : Inv st -> step_frame st (alloc_data st).
Proof.
  intros H. pose proof H as (Hd & _). split; cbn; auto using Inv_alloc.
  - rewrite length_app. lia.
  - lia.
  - intros q Hq. apply lookup_app_l. lia.
  - exists []. now rewrite app_nil_r.
Qed.

Lemma frame_time_field rt c tok set st : Inv st -> step_frame st (time_field rt c tok set st).
Proof.
  intros H. pose proof (Inv_time_field rt c tok set st H) as H'.
  destruct (time_field_fields rt c tok set st) as (t & err & Hp & Hh & Hme & Hda & Hdl & _).
  split; auto.
  - rewrite Hh, length_alter. lia.
  - lia.
  - intros q Hq. rewrite Hh. apply list_lookup_alter_ne. lia.
  - exists []. now rewrite Hme, app_nil_r.
  - pose proof (parseSrtTime_clock rt (clock st) tok) as Hc. rewrite Hp in Hc. exact Hc.
Qed.

Lemma frame_emit rt st :
  Inv st -> exists st', emit rt st = Some st' /\ step_frame st st'
                        /\ data st' = data st
                        /\ metrology st' = metrology st ++ [data st].
Proof.
  intros H. pose proof H as (Hd & Hl & Hm).
  destruct (emit_spec rt st H) as (heap' & -> & Hle & Hgt).
  eexists. split; [reflexivity|].
  assert (Hh : length heap' = length (heap st)
               /\ forall q, q < data st -> heap' !! q = heap st !! q).
  { destruct (Z.le_gt_cases (dataLen st) 1) as [H1|H1].
    - rewrite (Hle H1). auto.
    - destruct (Hgt H1) as (prev & p & d & _ & _ & _ & ->).
      rewrite length_alter. split; [reflexivity|].
      intros q Hq. apply list_lookup_alter_ne. lia. }
  destruct Hh as [Hlen Hfr].
  split; [|split; reflexivity]. split; cbn; auto; try lia.
  - unfold Inv; cbn. rewrite Hlen, length_app; cbn. repeat split; [assumption|lia|].
    apply Forall_app. split; [assumption|]. now apply Forall_singleton.
  - eauto.
Qed.

Lemma step_total rt c l st :
  Inv st -> exists st', step rt c l st = Some st' /\ step_frame st st'.
Proof.
  intros H. rewrite step_classify. destruct (classify_line l) as [|m1|t1 t2|caps|].
  - eauto using frame_alloc.
  - eauto using frame_store.
  - eexists. split; [reflexivity|].
    eapply frame_trans; [apply frame_time_field|apply frame_time_field]; auto.
    now apply Inv_time_field.
  - destruct (frame_emit rt (store (set_decoded_caps caps) st)) as (st' & He & Hf & _);
      [now apply Inv_store|].
    exists st'. split; [assumption|]. eapply frame_trans; [|exact Hf]. now apply frame_store.
  - eauto using frame_refl.
Qed.

Lemma run_total rt lines : forall c st,
  Inv st -> exists st', run rt c lines st = Some st' /\ step_frame st st'.
Proof.
  induction lines as [|l ls IH]; intros c st H; cbn.
  - eauto using frame_refl.
  - destruct (step_total rt c l st H) as (st1 & -> & F1). cbn.
    destruct (IH (S c) st1 (sf_inv _ _ F1)) as (st2 & -> & F2).
    eauto using frame_trans.
Qed.

Lemma run_app rt l1 : forall c l2 st,
  run rt c (l1 ++ l2) st = run rt c l1 st ≫= run rt (c + length l1) l2.
Proof.
  induction l1 as [|l ls IH]; intros c l2 st; cbn.
  - now rewrite Nat.add_0_r.
  - destruct (step rt c l st) as [st1|]; cbn; [|reflexivity].
    rewrite IH. now replace (S c + length ls) with (c + S (length ls)) by lia.
Qed.

Lemma Inv_init : Inv init_state.
Proof. unfold Inv, init_state; cbn. repeat split; [lia|constructor]. Qed.

Lemma parseSRT_unfold rt b :
  parseSRT rt b =
  if (String.length b <? 3)%nat then None
  else run rt 0 (strings_Split (drop_bytes 3 b) LF) init_state.
Proof. reflexivity. Qed.

Lemma parseSRT_panics_iff rt b : parseSRT rt b = None <-> String.length b < 3.
Proof.
  rewrite parseSRT_unfold. destruct (Nat.ltb_spec (String.length b) 3) as [H|H].
  - split; auto.
  - destruct (run_total rt (strings_Split (drop_bytes 3 b) LF) 0 init_state Inv_init)
      as (st' & -> & _). split; [discriminate|lia].
Qed.

Lemma set_Bearing_same d : set_Bearing (Bearing d) d = d.
Proof. now destruct d. Qed.

Lemma deref_lookup st p s : heap st !! p = Some s -> deref st p = s.
Proof. unfold deref. now intros ->. Qed.

Lemma step_data_line rt c l caps st :
  Inv st -> classify_line l = DataLine caps ->
  exists st' d b',
    heap st !! data st = Some d
    /\ step rt c l st = Some st'
    /\ step_frame st st'
    /\ data st' = data st
    /\ metrology st' = metrology st ++ [data st]
    /\ heap st' !! data st = Some (set_Bearing b' (set_decoded_caps caps d))
    /\ clock st' = clock st /\ stdout st' = stdout st.
Proof.
  intros H Hc. pose proof H as (Hd & Hl & Hm).
  destruct (lookup_lt_is_Some_2 (heap st) (data st) Hd) as [d Hdd].
  rewrite step_classify, Hc.
  set (st1 := store (set_decoded_caps caps) st).
  assert (H1 : Inv st1) by now apply Inv_store.
  assert (Hd1 : heap st1 !! data st1 = Some (set_decoded_caps caps d)).
  { unfold st1; cbn. now rewrite list_lookup_alter_eq, Hdd. }
  destruct (emit_spec rt st1 H1) as (heap' & He & Hle & Hgt).
  assert (Hb : exists b', heap' !! data st = Some (set_Bearing b' (set_decoded_caps caps d))
                          /\ length heap' = length (heap st1)
                          /\ forall q, q < data st -> heap' !! q = heap st1 !! q).
  { destruct (Z.le_gt_cases (dataLen st1) 1) as [Hc1|Hc1].
    - rewrite (Hle Hc1). exists (Bearing (set_decoded_caps caps d)).
      rewrite set_Bearing_same. auto.
    - destruct (Hgt Hc1) as (prev & p & d' & _ & _ & Hd' & ->).
      exists (next_bearing rt p d'). rewrite length_alter.
      change (data st1) with (data st) in *.
      rewrite list_lookup_alter_eq, Hd1. split; [reflexivity|]. split; [reflexivity|].
      intros q Hq. apply list_lookup_alter_ne. lia. }
  destruct Hb as (b' & Hb & Hlen & Hfr).
  assert (Hlen' : length heap' = length (heap st))
    by (rewrite Hlen; unfold st1; cbn; apply length_alter).
  eexists _, d, b'. rewrite He. split; [assumption|]. split; [reflexivity|].
  cbn [heap metrology data dataLen clock stdout]. change (data st1) with (data st).
  change (metrology st1) with (metrology st). change (clock st1) with (clock st).
  change (stdout st1) with (stdout st). change (dataLen st1) with (dataLen st).
  split; [|auto].
  constructor; cbn [heap metrology data dataLen clock stdout].
  - unfold Inv; cbn [heap metrology data dataLen]. rewrite Hlen', length_app; cbn.
    repeat split; [lia|lia|]. apply Forall_app. split; [assumption|].
    now apply Forall_singleton.
  - lia.
  - lia.
  - intros q Hq. rewrite Hfr by assumption. unfold st1; cbn.
    apply list_lookup_alter_ne. lia.
  - eauto.
  - lia.
Qed.

(** the earlier variant *)
Lemma legacy_step_classify rt c l st :
  Legacy.step rt c l st =
  match classify_line l with
  | Blank | IndexLine _ | Unmatched => Some st
  | TimeRange t1 t2 => Some (Legacy.time_field rt c t2 (Legacy.time_field rt c t1 st))
  | DataLine caps =>
      Some (Legacy.mkState
              (Legacy.metrology st ++ [legacy_set_decoded_caps caps Legacy.sample0])
              (Legacy.clock st) (Legacy.stdout st))
  end.
Proof.
  unfold Legacy.step, classify_line. destruct (String.eqb l ""); [reflexivity|].
  destruct (r1_shape l) as [->|(w & m1 & ->)]; [|reflexivity]. cbn [length Nat.eqb].
  destruct (r2_shape l) as [->|(w & t1 & t2 & ->)]; [|reflexivity]. cbn [length Nat.eqb].
  destruct (3 <=? length (FindStringSubmatch r3 l)) eqn:E; [|reflexivity].
  destruct (FSS_r3_shape l E) as (w & c1 & c2 & c3 & c4 & c5 & c6 & c7 & c8 & c9 & c10 & c11 & c12 & ->).
  reflexivity.
Qed.

Lemma legacy_time_field_metrology rt c tok st :
  Legacy.metrology (Legacy.time_field rt c tok st) = Legacy.metrology st.
Proof. unfold Legacy.time_field. now destruct (parseSrtTime rt (Legacy.clock st) tok) as [[? ?] ?]. Qed.

Lemma legacy_step_total rt c l st (P : Legacy.MetrologySample -> Prop) :
  (forall caps, P (legacy_set_decoded_caps caps Legacy.sample0)) ->
  Forall P (Legacy.metrology st) ->
  exists st', Legacy.step rt c l st = Some st' /\ Forall P (Legacy.metrology st').
Proof.
  intros HP H. rewrite legacy_step_classify.
  destruct (classify_line l) as [|m1|t1 t2|caps|]; eauto.
  - eexists. split; [reflexivity|]. now rewrite !legacy_time_field_metrology.
  - eexists. split; [reflexivity|]. cbn. apply Forall_app. split; [assumption|].
    apply Forall_singleton. apply HP.
Qed.

Lemma legacy_run_total rt (P : Legacy.MetrologySample -> Prop) lines : forall c st,
  (forall caps, P (legacy_set_decoded_caps caps Legacy.sample0)) ->
  Forall P (Legacy.metrology st) ->
  exists st', Legacy.run rt c lines st = Some st' /\ Forall P (Legacy.metrology st').
Proof.
  induction lines as [|l ls IH]; intros c st HP H; cbn; [eauto|].
  destruct (legacy_step_total rt c l st P HP H) as (st1 & -> & H1). cbn. now apply IH.
Qed.

Lemma legacy_parseSRT_panics_iff rt b : Legacy.parseSRT rt b = None <-> String.length b < 3.
Proof.
  unfold Legacy.parseSRT. destruct (Nat.ltb_spec (String.length b) 3) as [H|H].
  - split; auto.
  - destruct (legacy_run_total rt (fun _ => True) (strings_Split (drop_bytes 3 b) LF) 0
                Legacy.init_state) as (st' & -> & _); [auto|constructor|].
    split; [discriminate|lia].
Qed.

(** heap-wide invariants of the main variant *)
Lemma step_heap_Forall rt c l st st' (P : MetrologySample -> Prop) :
  P sample0 ->
  (forall v s, P s -> P (set_ID v s)) ->
  (forall v s, P s -> P (set_Start v s)) ->
  (forall v s, P s -> P (set_End v s)) ->
  (forall caps s, P s -> P (set_decoded_caps caps s)) ->
  ((1 < dataLen st)%Z -> forall v s, P s -> P (set_Bearing v s)) ->
  Inv st -> Forall P (heap st) -> step rt c l st = Some st' -> Forall P (heap st').
Proof.
  intros P0 Pid Pst Pen Pdec Pbe HI H. rewrite step_classify.
  destruct (classify_line l) as [|m1|t1 t2|caps|].
  - intros [= <-]. cbn. apply Forall_app. split; [assumption|]. now apply Forall_singleton.
  - intros [= <-]. cbn. apply Forall_alter; auto.
  - intros [= <-].
    destruct (time_field_fields rt c t1 set_Start st) as (ta & ea & _ & Hh1 & _ & Hd1 & _).
    destruct (time_field_fields rt c t2 set_End (time_field rt c t1 set_Start st))
      as (tb & eb & _ & Hh2 & _).
    rewrite Hh2, Hh1. apply Forall_alter; [apply Forall_alter|]; auto.
  - intros He.
    assert (H1 : Forall P (heap (store (set_decoded_caps caps) st)))
      by (cbn; apply Forall_alter; auto).
    destruct (emit_spec rt (store (set_decoded_caps caps) st)) as (heap' & He' & Hle & Hgt);
      [now apply Inv_store|].
    rewrite He' in He. injection He as <-. cbn [heap].
    destruct (Z.le_gt_cases (dataLen (store (set_decoded_caps caps) st)) 1) as [Hc1|Hc1].
    + now rewrite (Hle Hc1).
    + destruct (Hgt Hc1) as (prev & p & d' & _ & _ & _ & ->).
      apply Forall_alter; auto.
  - now intros [= <-].
Qed.

Lemma sample_data_line_class : classify_line sample_data_line = DataLine sample_caps.
Proof. vm_compute. reflexivity. Qed.

(** the earlier variant reads them the other way round *)
Lemma legacy_first_gps_number_is_latitude rt c l caps st :
  classify_line l = DataLine caps ->
  exists s first second,
    Legacy.step rt c l st
    = Some (Legacy.mkState (Legacy.metrology st ++ [s]) (Legacy.clock st) (Legacy.stdout st))
    /\ caps !! 6 = Some first /\ caps !! 7 = Some second
    /\ Legacy.Latitude s = fst (ParseFloat first)
    /\ Legacy.Longitude s = fst (ParseFloat second).
Proof.
  intros Hc. rewrite legacy_step_classify, Hc.
  destruct (classify_DataLine l caps Hc)
    as (w & c1 & c2 & c3 & c4 & c5 & c6 & c7 & c8 & c9 & c10 & c11 & c12 & ->).
  eexists _, c6, c7. split; [reflexivity|]. auto.
Qed.

Lemma run_heap_speeds rt lines : forall c st st',
  Inv st -> Forall speeds_agree (heap st) -> run rt c lines st = Some st' ->
  Forall speeds_agree (heap st').
Proof.
  induction lines as [|l ls IH]; intros c st st' HI H; cbn.
  - now intros [= <-].
  - destruct (step_total rt c l st HI) as (st1 & Hs & F1). rewrite Hs. cbn.
    apply IH; [exact (sf_inv _ _ F1)|].
    eapply (step_heap_Forall rt c l st st1 speeds_agree); eauto; try reflexivity;
      intros; destruct s; assumption.
Qed.

Lemma samples_lookup st n s :
  Inv st -> samples st !! n = Some s ->
  exists p, metrology st !! n = Some p /\ heap st !! p = Some s.
Proof.
  intros (_ & _ & Hm). unfold samples. rewrite list_lookup_fmap.
  destruct (metrology st !! n) as [p|] eqn:Hp; [|discriminate]. cbn. intros [= <-].
  exists p. split; [reflexivity|].
  pose proof (Forall_lookup_1 _ _ _ _ Hm Hp) as Hlt. cbn in Hlt.
  destruct (lookup_lt_is_Some_2 (heap st) p Hlt) as [s Hs]. unfold deref. now rewrite Hs.
Qed.

Lemma parseSRT_Inv rt b st : parseSRT rt b = Some st -> Inv st.
Proof.
  rewrite parseSRT_unfold. destruct (String.length b <? 3); [discriminate|].
  intros H. destruct (run_total rt (strings_Split (drop_bytes 3 b) LF) 0 init_state Inv_init)
    as (st' & H' & F). rewrite H in H'. injection H' as <-. exact (sf_inv _ _ F).
Qed.

Lemma coerced_int_Atoi text : coerced_int text (fst (Atoi text)).
Proof.
  unfold coerced_int. split; [reflexivity|].
  unfold Atoi, ParseInt. destruct text as [|c0 s]; [reflexivity|].
  destruct (ParseUint _) as [un [[|]|]]; cbn;
    repeat match goal with
           | |- context [if ?b then _ else _] => destruct b; cbn
           end; auto.
Qed.

Lemma coerced_float_ParseFloat text : coerced_float text (fst (ParseFloat text)).
Proof.
  unfold coerced_float. split; [reflexivity|]. unfold ParseFloat.
  destruct (match text with
            | "" => (false, text)
            | String c s' =>
                if Ascii.eqb c "-" then (true, s')
                else if Ascii.eqb c "+" then (false, s') else (false, text)
            end) as [neg body].
  destruct (read_mantissa body 0 0 false false) as [[[m k] [|]] [|? ?]];
    try (cbn; reflexivity).
  destruct (is_infinity (decimal_to_float neg m k)) eqn:E; cbn [fst snd]; [exact E|exact I].
Qed.

Lemma parseSrtTime_error rt n tok e :
  snd (fst (parseSrtTime rt n tok)) = Some e ->
  parseSrtTime rt n tok = (time_Now rt n, Some e, S n).
Proof.
  unfold parseSrtTime.
  repeat match goal with
         | |- context [if ?b then _ else _] => destruct b
         | |- context [match Atoi ?s with _ => _ end] => destruct (Atoi s) as [? [?|]]
         end; cbn; intros [= <-]; reflexivity.
Qed.

Lemma C8_time_line_class : classify_line C8_time_line = TimeRange "1:2" "00:00:44,000".
Proof. vm_compute. reflexivity. Qed.

Lemma parseSrtTime_cases rt n tok :
  (~ four_groups (normalize_time tok)
   /\ parseSrtTime rt n tok
      = (time_Now rt n, Some (RegexpDidntMatch (normalize_time tok)), S n))
  \/ (four_groups (normalize_time tok)
      /\ exists whole d1 d2 d3 d4,
          FindStringSubmatch r_time (normalize_time tok) = [whole; d1; d2; d3; d4]
          /\ digits1 d1 /\ digits1 d2 /\ digits1 d3 /\ digits1 d4
          /\ parseSrtTime rt n tok =
             if negb (fits_int d1) then (time_Now rt n, Some (NumError "Atoi" d1 true), S n)
             else if negb (fits_int d2) then (time_Now rt n, Some (NumError "Atoi" d2 true), S n)
             else if negb (fits_int d3) then (time_Now rt n, Some (NumError "Atoi" d3 true), S n)
             else if negb (fits_int d4) then (time_Now rt n, Some (NumError "Atoi" d4 true), S n)
             else (makeTime (decimal d1) (decimal d2) (decimal d3) (decimal d4), None, n)).
Proof.
  destruct (FindStringSubmatch r_time (normalize_time tok)) as [|w cs] eqn:E.
  - left. split.
    + intros H. apply FSS_r_time_iff in H. congruence.
    + now apply parseSrtTime_nomatch.
  - right. split.
    + apply FSS_r_time_iff. rewrite E. discriminate.
    + destruct (FSS_r_time_caps _ _ E) as (whole & d1 & d2 & d3 & d4 & Em & H1 & H2 & H3 & H4);
        [discriminate|].
      exists whole, d1, d2, d3, d4. rewrite <- Em. split; [reflexivity|].
      repeat (split; [assumption|]). apply (parseSrtTime_groups rt n tok whole); auto.
      now rewrite E.
Qed.

Lemma fits_int_false d : fits_int d = false -> (maxInt64 < decimal d)%Z.
Proof. unfold fits_int. intros H. apply Z.leb_gt in H. exact H. Qed.

Lemma step_BearingInv rt c l st st' :
  Inv st -> BearingInv st -> step rt c l st = Some st' -> BearingInv st'.
Proof.
  intros HI HB Hs Hlen.
  destruct (step_total rt c l st HI) as (st2 & Hs2 & F). rewrite Hs in Hs2. injection Hs2 as <-.
  destruct (sf_metrology _ _ F) as [extra Hm]. rewrite Hm, length_app in Hlen.
  pose proof HI as (_ & Hl & _).
  eapply (step_heap_Forall rt c l st st' bearing_unset); eauto; try reflexivity;
    try (intros; destruct s; assumption).
  - intros Hd. lia.
  - apply HB. lia.
Qed.

Lemma run_reachable rt lines : forall c st st',
  Inv st -> BearingInv st -> run rt c lines st = Some st' -> Inv st' /\ BearingInv st'.
Proof.
  induction lines as [|l ls IH]; intros c st st' HI HB; cbn.
  - intros [= <-]. auto.
  - destruct (step_total rt c l st HI) as (st1 & Hs & F1). rewrite Hs. cbn.
    apply IH; [exact (sf_inv _ _ F1)|]. eapply step_BearingInv; eauto.
Qed.

Lemma BearingInv_init : BearingInv init_state.
Proof. intros _. repeat constructor. Qed.

Lemma point_of_set_Bearing v s : point_of (set_Bearing v s) = point_of s.
Proof. reflexivity. Qed.

(** NaN *)
Lemma mul_nan_l x : (nan * x)%float = nan.
Proof.
  rewrite <- (SF2Prim_Prim2SF (nan * x)), mul_spec.
  change (Prim2SF nan) with S754_nan. unfold SF64mul, SpecFloat.SFmul.
  now destruct (Prim2SF x).
Qed.

Lemma div_nan_l x : (nan / x)%float = nan.
Proof.
  rewrite <- (SF2Prim_Prim2SF (nan / x)), div_spec.
  change (Prim2SF nan) with S754_nan. unfold SF64div, SpecFloat.SFdiv.
  now destruct (Prim2SF x).
Qed.

(** Finite numbers *)
Lemma is_finite_SF x : is_finite x = finite_SF (Prim2SF x).
Proof.
  unfold is_finite, is_nan, is_infinity.
  rewrite !FloatAxioms.eqb_spec, abs_spec.
  change (Prim2SF infinity) with (S754_infinity false).
  destruct (Prim2SF x) as [s|s| |s m e]; try reflexivity; [now destruct s|].
  unfold SFeqb, SFcompare, SFabs.
  destruct s; rewrite Z.compare_refl, Pos.compare_cont_refl; reflexivity.
Qed.

Lemma sub_self_finite x : is_finite x = true -> (x - x)%float = zero.
Proof.
  rewrite is_finite_SF. intros H.
  rewrite <- (SF2Prim_Prim2SF (x - x)), sub_spec.
  destruct (Prim2SF x) as [s|s| |s m e]; try discriminate.
  - now destruct s.
  - unfold SF64sub, SFsub. rewrite Z.sub_diag. reflexivity.
Qed.

Lemma sub_self_not_finite x : is_finite x = false -> (x - x)%float = nan.
Proof.
  rewrite is_finite_SF. intros H.
  rewrite <- (SF2Prim_Prim2SF (x - x)), sub_spec.
  destruct (Prim2SF x) as [s|s| |s m e]; try discriminate.
  - now destruct s.
  - reflexivity.
Qed.

Lemma mul_comm x y : (x * y)%float = (y * x)%float.
Proof.
  rewrite <- (SF2Prim_Prim2SF (x * y)), <- (SF2Prim_Prim2SF (y * x)), !mul_spec.
  f_equal. unfold SF64mul, SFmul.
  destruct (Prim2SF x) as [s|s| |s m e], (Prim2SF y) as [s'|s'| |s' m' e'];
    try reflexivity; try (now rewrite xorb_comm).
  now rewrite xorb_comm, Pos.mul_comm, Z.add_comm.
Qed.

Lemma mul_finite x y :
  is_finite (x * y) = true -> is_finite x = true /\ is_finite y = true.
Proof.
  rewrite !is_finite_SF, mul_spec. unfold SF64mul, SFmul.
  destruct (Prim2SF x) as [s|s| |s m e], (Prim2SF y) as [s'|s'| |s' m' e'];
    simpl; auto.
Qed.

Lemma zero_mul_finite y :
  is_finite y = true -> (zero * y)%float = zero \/ (zero * y)%float = neg_zero.
Proof.
  rewrite is_finite_SF. intros H.
  rewrite <- (SF2Prim_Prim2SF (zero * y)), mul_spec.
  change (Prim2SF zero) with (S754_zero false).
  destruct (Prim2SF y) as [s|s| |s m e]; try discriminate;
    destruct s; simpl; auto.
Qed.
Lemma mul_one_r x : (x * 1)%float = x.
Proof.
  assert (H : Prim2SF (x * 1) = Prim2SF x);
    [|now rewrite <- (SF2Prim_Prim2SF (x * 1)), H, SF2Prim_Prim2SF].
  rewrite mul_spec.
  pose proof (Prim2SF_valid x) as Hv.
  change (Prim2SF 1) with (S754_finite false 4503599627370496 (-52)).
  destruct (Prim2SF x) as [s|s| |s m e]; try (now destruct s); [reflexivity|].
  unfold SF64mul, SFmul. rewrite xorb_false_r.
  unfold valid_binary, bounded, canonical_mantissa in Hv.
  apply andb_true_iff in Hv as [Hc He]. apply Z.eqb_eq in Hc.
  rewrite Pos.mul_comm.
  change (4503599627370496 * m)%positive with (Pos.iter xO m 52).
  unfold binary_round_aux, shr_fexp.
  assert (Hd : (Zdigits2 (Z.pos (Pos.iter xO m 52)) + (e + -52) = Z.pos (digits2_pos m) + e)%Z).
  { cbn [Pos.iter Zdigits2 digits2_pos]. rewrite !Pos2Z.inj_succ. lia. }
  rewrite Hd, Hc.
  replace (e - (e + -52))%Z with 52%Z by lia.
  assert (Hi : SpecFloat.iter_pos shr_1 52
                 (shr_record_of_loc (Z.pos (Pos.iter xO m 52)) loc_Exact)
               = {| shr_m := Z.pos m; shr_r := false; shr_s := false |}) by reflexivity.
  unfold shr at 1. rewrite Hi.
  cbn [shr_m loc_of_shr_record round_nearest_even Zdigits2 shr_record_of_loc].
  replace (e + -52 + 52)%Z with e by lia. rewrite Hc, Z.sub_diag.
  cbn [shr shr_m]. now rewrite He.
Qed.

(** splitting *)
Lemma split_aux_nosep sep s : has_byte sep s = false -> split_aux sep s = (s, []).
Proof.
  induction s as [|c s IH]; simpl; [reflexivity|].
  rewrite orb_false_iff. intros [Hc Hs]. now rewrite (IH Hs), Hc.
Qed.

Lemma strings_Split_nosep sep s : has_byte sep s = false -> strings_Split s sep = [s].
Proof. intros H. unfold strings_Split. now rewrite split_aux_nosep. Qed.

Lemma strings_Split_cons sep s rest :
  has_byte sep s = false ->
  strings_Split (s +:+ String sep rest) sep = s :: strings_Split rest sep.
Proof.
  unfold strings_Split. induction s as [|c s IH]; simpl.
  - intros _. rewrite Ascii.eqb_refl. now destruct (split_aux sep rest).
  - rewrite orb_false_iff. intros [Hc Hs]. specialize (IH Hs).
    destruct (split_aux sep (s +:+ String sep rest)) as [p ps].
    rewrite Hc. now injection IH as -> ->.
Qed.

(** bytes of the classes *)
Lemma cls_no_byte c x s :
  cset_mem c x = false -> all_bytes (cset_mem c) s = true -> has_byte x s = false.
Proof. apply all_bytes_no_byte. Qed.

Lemma digits_in_cls_time d :
  all_bytes is_digit d = true -> all_bytes (cset_mem cls_time) d = true.
Proof.
  apply all_bytes_impl. intros c Hc. simpl. unfold is_digit in Hc. now rewrite Hc.
Qed.

Lemma has_byte_nonempty x s : has_byte x s = true -> String.eqb s "" = false.
Proof. destruct s; [discriminate|reflexivity]. Qed.

Lemma srt_time_cls h m s ms :
  digits1 h -> digits1 m -> digits1 s -> digits1 ms ->
  all_bytes (cset_mem cls_time) (srt_time h m s ms) = true.
Proof.
  intros [_ H1] [_ H2] [_ H3] [_ H4]. unfold srt_time.
  rewrite !all_bytes_app, (digits_in_cls_time h), (digits_in_cls_time m),
    (digits_in_cls_time s), (digits_in_cls_time ms) by assumption. reflexivity.
Qed.

Lemma parseSrtTime_srt_time rt n h m s ms :
  digits1 h -> digits1 m -> digits1 s -> digits1 ms ->
  fits_int h = true -> fits_int m = true -> fits_int s = true -> fits_int ms = true ->
  parseSrtTime rt n (srt_time h m s ms)
  = (makeTime (decimal h) (decimal m) (decimal s) (decimal ms), None, n).
Proof.
  intros H1 H2 H3 H4 F1 F2 F3 F4.
  assert (Hn : normalize_time (srt_time h m s ms) = time_text h m s ms).
  { apply (normalize_time_four h m s ms ":" ":" ","); try (apply H1 || apply H2 || apply H3 || apply H4).
    - now left.
    - now left.
    - right; now left. }
  destruct (FSS_r_time_exact h m s ms) as [w Hw]; auto.
  rewrite <- Hn in Hw.
  rewrite (parseSrtTime_groups rt n _ w h m s ms Hw); auto.
  now rewrite F1, F2, F3, F4.
Qed.

(** classification of well-formed lines *)
Lemma classify_index idx : digits1 idx -> classify_line idx = IndexLine idx.
Proof.
  intros [Hn Hd]. unfold classify_line. rewrite FSS_r1, Hd.
  destruct idx; [congruence|reflexivity].
Qed.

Lemma classify_time_range t1 t2 :
  all_bytes (cset_mem cls_time) t1 = true -> all_bytes (cset_mem cls_time) t2 = true ->
  classify_line (time_range_text t1 t2) = TimeRange t1 t2.
Proof.
  intros H1 H2. unfold classify_line.
  assert (Hg : has_byte ">" (time_range_text t1 t2) = true).
  { unfold time_range_text. rewrite !has_byte_app. simpl. now rewrite orb_true_r. }
  rewrite (has_byte_nonempty _ _ Hg), FSS_r1.
  assert (Hd : all_bytes is_digit (time_range_text t1 t2) = false).
  { unfold time_range_text. rewrite !all_bytes_app. simpl. now rewrite andb_false_r. }
  rewrite Hd. destruct (FSS_r2_time_range t1 t2 H1 H2) as [w ->]. reflexivity.
Qed.

Ltac no_byte_in_data_line x :=
  intros; unfold data_line_text; rewrite !has_byte_app;
  repeat match goal with
         | H : all_bytes (cset_mem ?c) ?s = true |- _ =>
             rewrite (cls_no_byte c x s eq_refl H); clear H
         end;
  reflexivity.

Section DataLineBytes.
Variables f ss iso ev zoom lon lat sat d h hs vs : string.
Hypothesis Hf : all_bytes (cset_mem cls_num) f = true.
Hypothesis Hss : all_bytes (cset_mem cls_num) ss = true.
Hypothesis Hiso : all_bytes (cset_mem cls_num) iso = true.
Hypothesis Hev : all_bytes (cset_mem cls_snum) ev = true.
Hypothesis Hzoom : all_bytes (cset_mem cls_num) zoom = true.
Hypothesis Hlon : all_bytes (cset_mem cls_snum) lon = true.
Hypothesis Hlat : all_bytes (cset_mem cls_snum) lat = true.
Hypothesis Hsat : all_bytes (cset_mem cls_snum) sat = true.
Hypothesis Hd : all_bytes (cset_mem cls_snum) d = true.
Hypothesis Hh : all_bytes (cset_mem cls_snum) h = true.
Hypothesis Hhs : all_bytes (cset_mem cls_snum) hs = true.
Hypothesis Hvs : all_bytes (cset_mem cls_snum) vs = true.

Let line := data_line_text f ss iso ev zoom lon lat sat d h hs vs.

Lemma data_line_no_gt : has_byte ">" line = false.
Proof using All. subst line. no_byte_in_data_line ">"%char. Qed.

Lemma data_line_no_lf : has_byte LF line = false.
Proof using All. subst line. no_byte_in_data_line LF. Qed.

Lemma classify_data_line :
  exists whole,
    classify_line line = DataLine [whole; f; ss; iso; ev; zoom; lon; lat; sat; d; h; hs; vs].
Proof using All.
  destruct (FSS_r3_data_line f ss iso ev zoom lon lat sat d h hs vs) as [w Hw]; auto.
  exists w. unfold classify_line. fold line in Hw.
  rewrite FSS_r1, (FSS_r2_requires line data_line_no_gt), Hw. reflexivity.
Qed.

End DataLineBytes.

Lemma int_digits_spec d :
  int_digits d = true -> digits1 d /\ fits_int d = true.
Proof.
  unfold int_digits, digits1. rewrite !andb_true_iff, negb_true_iff, String.eqb_neq. tauto.
Qed.

Lemma drop_bytes_app w rest : drop_bytes (String.length w) (w +:+ rest) = rest.
Proof. induction w; simpl; auto. Qed.

Lemma join_lines_cons l ls :
  ls <> [] -> join_lines (l :: ls) = l +:+ String LF (join_lines ls).
Proof. destruct ls; [congruence|reflexivity]. Qed.

Lemma strings_Split_join ls :
  ls <> [] -> Forall (fun l => has_byte LF l = false) ls ->
  strings_Split (join_lines ls) LF = ls.
Proof.
  induction ls as [|l ls IH]; [congruence|]. intros _ H.
  apply Forall_cons in H as [Hl Hls]. destruct ls as [|l' ls].
  - simpl. now apply strings_Split_nosep.
  - rewrite join_lines_cons by discriminate. rewrite strings_Split_cons by assumption.
    f_equal. apply IH; [discriminate|assumption].
Qed.

Lemma time_range_no_lf t1 t2 :
  all_bytes (cset_mem cls_time) t1 = true -> all_bytes (cset_mem cls_time) t2 = true ->
  has_byte LF (time_range_text t1 t2) = false.
Proof.
  intros H1 H2. unfold time_range_text. rewrite !has_byte_app.
  rewrite (cls_no_byte cls_time LF t1 eq_refl H1), (cls_no_byte cls_time LF t2 eq_refl H2).
  reflexivity.
Qed.

Lemma Atoi_int_digits d : digits1 d -> fits_int d = true -> Atoi d = (decimal d, None).
Proof. intros H F. rewrite Atoi_digits by assumption. unfold fits_int in F. now rewrite F. Qed.

Lemma time_field_ok rt c h m s ms set st :
  digits1 h -> digits1 m -> digits1 s -> digits1 ms ->
  fits_int h = true -> fits_int m = true -> fits_int s = true -> fits_int ms = true ->
  time_field rt c (srt_time h m s ms) set st
  = mkState (alter (set (makeTime (decimal h) (decimal m) (decimal s) (decimal ms)))
               (data st) (heap st))
      (metrology st) (data st) (dataLen st) (clock st) (stdout st).
Proof.
  intros. unfold time_field. rewrite parseSrtTime_srt_time by assumption. reflexivity.
Qed.

Lemma classify_Blank l : classify_line l = Blank <-> l = "".
Proof.
  unfold classify_line. destruct (String.eqb_spec l "") as [->|Hn]; [tauto|].
  split; [|congruence].
  destruct (FindStringSubmatch r1 l) as [|? [|? [|]]];
    destruct (FindStringSubmatch r2 l) as [|? [|? [|? [|]]]];
    try discriminate; destruct (3 <=? _); discriminate.
Qed.

Lemma is_data_DataLine l : is_data l = true <-> exists caps, classify_line l = DataLine caps.
Proof.
  unfold is_data. destruct (classify_line l); split; try discriminate; eauto;
    intros [? ?]; discriminate.
Qed.

Lemma count_data_cons l ls :
  count_data (l :: ls) = (if is_data l then 1 else 0) + count_data ls.
Proof. unfold count_data. simpl. now destruct (is_data l). Qed.

Lemma count_data_app l1 l2 : count_data (l1 ++ l2) = count_data l1 + count_data l2.
Proof. unfold count_data. now rewrite List.filter_app, length_app. Qed.

Lemma decoded_set_decoded caps d : decoded_fields (set_decoded_caps caps d) = decode caps.
Proof. reflexivity. Qed.

(** one line, seen from the builder *)
Lemma step_builder rt c l st :
  Inv st -> l <> "" ->
  exists st' d d',
    step rt c l st = Some st' /\ step_frame st st'
    /\ data st' = data st
    /\ heap st !! data st = Some d /\ heap st' !! data st = Some d'
    /\ decoded_fields d'
       = match classify_line l with DataLine caps => decode caps | _ => decoded_fields d end
    /\ metrology st' = metrology st ++ (if is_data l then [data st] else []).
Proof.
  intros HI Hl. pose proof HI as (Hd & _).
  destruct (lookup_lt_is_Some_2 (heap st) (data st) Hd) as [d Hdd].
  destruct (classify_line l) as [|m1|t1 t2|caps|] eqn:Hc.
  - apply classify_Blank in Hc. contradiction.
  - rewrite step_classify. unfold is_data. rewrite Hc.
    eexists _, d, _. split; [reflexivity|]. split; [now apply frame_store|].
    cbn. rewrite list_lookup_alter_eq, Hdd, app_nil_r. auto.
  - rewrite step_classify. unfold is_data. rewrite Hc.
    set (st1 := time_field rt c t1 set_Start st).
    destruct (time_field_fields rt c t1 set_Start st) as (ta & ea & _ & Hh1 & Hm1 & Hd1 & _).
    destruct (time_field_fields rt c t2 set_End st1) as (tb & eb & _ & Hh2 & Hm2 & Hd2 & _).
    fold st1 in Hh1, Hm1, Hd1.
    eexists _, d, (set_End tb (set_Start ta d)). split; [reflexivity|].
    split; [eapply frame_trans; apply frame_time_field; [assumption|now apply Inv_time_field]|].
    rewrite Hd2, Hd1, Hh2, Hh1, Hd1, !list_lookup_alter_eq, Hdd, Hm2, Hm1, app_nil_r. auto.
  - destruct (step_data_line rt c l caps st HI Hc)
      as (st' & d0 & b' & Hd0 & Hs & HF & Hda & Hm & Hh & _).
    rewrite Hdd in Hd0. injection Hd0 as <-.
    exists st', d, (set_Bearing b' (set_decoded_caps caps d)).
    unfold is_data. rewrite Hc. auto 10.
  - rewrite step_classify. unfold is_data. rewrite Hc.
    exists st, d, d. rewrite app_nil_r. auto 10 using frame_refl.
Qed.

Lemma run_builder rt lines : forall c st st' d,
  Inv st -> Forall (fun l => l <> "") lines ->
  heap st !! data st = Some d -> run rt c lines st = Some st' ->
  exists d' extra,
    step_frame st st' /\ data st' = data st
    /\ heap st' !! data st = Some d'
    /\ decoded_fields d' = decoded_after lines (decoded_fields d)
    /\ metrology st' = metrology st ++ extra /\ length extra = count_data lines.
Proof.
  induction lines as [|l ls IH]; intros c st st' d HI Hnb Hd; cbn [run].
  - intros [= <-]. exists d, []. rewrite app_nil_r. auto 10 using frame_refl.
  - apply Forall_cons in Hnb as [Hl Hls].
    destruct (step_builder rt c l st HI Hl) as (st1 & d0 & d1 & Hs & F1 & Hda & Hd0 & Hd1 & Hdec & Hm).
    rewrite Hs. cbn [mbind option_bind]. intros Hr.
    rewrite Hd in Hd0. injection Hd0 as <-.
    rewrite <- Hda in Hd1.
    destruct (IH (S c) st1 st' d1 (sf_inv _ _ F1) Hls Hd1 Hr)
      as (d' & extra & F2 & Hda2 & Hd' & Hdec' & Hm' & Hlen).
    exists d', ((if is_data l then [data st] else []) ++ extra).
    split; [eauto using frame_trans|]. split; [congruence|].
    split; [now rewrite <- Hda|].
    split; [rewrite Hdec'; unfold decoded_after; cbn [fold_left]; now rewrite Hdec|].
    split; [now rewrite Hm', Hm, app_assoc|].
    rewrite length_app, count_data_cons, Hlen. now destruct (is_data l).
Qed.

Lemma run_count rt lines : forall c st st',
  Inv st -> run rt c lines st = Some st' ->
  exists extra, metrology st' = metrology st ++ extra /\ length extra = count_data lines.
Proof.
  induction lines as [|l ls IH]; intros c st st' HI; cbn [run].
  - intros [= <-]. exists []. now rewrite app_nil_r.
  - destruct (step_total rt c l st HI) as (st1 & Hs & F1). rewrite Hs. cbn [mbind option_bind].
    intros Hr. destruct (IH _ _ _ (sf_inv _ _ F1) Hr) as (extra & Hm & Hlen).
    assert (H1 : metrology st1 = metrology st ++ (if is_data l then [data st] else [])).
    { destruct (String.eqb_spec l "") as [->|Hn].
      - rewrite step_classify in Hs. assert (Hb : classify_line "" = Blank) by now apply classify_Blank.
        rewrite Hb in Hs. injection Hs as <-. unfold is_data. rewrite Hb. cbn. now rewrite app_nil_r.
      - destruct (step_builder rt c l st HI Hn) as (st2 & ? & ? & Hs2 & _ & _ & _ & _ & _ & Hm2).
        rewrite Hs in Hs2. now injection Hs2 as <-. }
    exists ((if is_data l then [data st] else []) ++ extra).
    rewrite Hm, H1, app_assoc, length_app, count_data_cons, Hlen.
    split; [reflexivity|]. now destruct (is_data l).
Qed.

Lemma until_blank_split lines :
  exists rest,
    lines = until_blank lines ++ rest
    /\ Forall (fun l => l <> "") (until_blank lines)
    /\ (rest = [] \/ exists rest', rest = "" :: rest').
Proof.
  induction lines as [|l ls (rest & E & Hnb & Hr)]; cbn.
  - exists []. auto.
  - destruct (String.eqb_spec l "") as [->|Hn].
    + exists ("" :: ls). eauto.
    + exists rest. cbn. rewrite <- E. auto.
Qed.

Lemma run_after_blank rt rest c st st' p :
  Inv st -> data st = p -> run rt c ("" :: rest) st = Some st' ->
  step_frame st st' /\ heap st' !! p = heap st !! p.
Proof.
  intros HI Hp. cbn [run]. rewrite step_classify.
  assert (Hb : classify_line "" = Blank) by now apply classify_Blank.
  rewrite Hb. cbn [mbind option_bind]. intros Hr.
  destruct (run_total rt rest (S c) (alloc_data st) (Inv_alloc _ HI)) as (st2 & Hr2 & F).
  rewrite Hr in Hr2. injection Hr2 as <-.
  split; [eapply frame_trans; [now apply frame_alloc|exact F]|].
  destruct HI as (Hd & _).
  rewrite (sf_frozen _ _ F) by (cbn; lia). cbn. apply lookup_app_l. lia.
Qed.

Lemma decoded_after_no_data lines init :
  count_data lines = 0 -> decoded_after lines init = init.
Proof.
  unfold decoded_after. revert init. induction lines as [|l ls IH]; intros init; [reflexivity|].
  rewrite count_data_cons. cbn [fold_left]. unfold is_data.
  destruct (classify_line l); try (intros H; apply IH; exact H). discriminate.
Qed.

(* ================================================================== *)
(** * The specification, claim by claim *)

(** ** Data lines as the grammar writes them *)

Lemma classify_data_text f ss iso ev zoom lon lat sat d h hs vs :
  data_fields_ok f ss iso ev zoom lon lat sat d h hs vs = true ->
  exists whole,
    classify_line (data_line_text f ss iso ev zoom lon lat sat d h hs vs)
    = DataLine [whole; f; ss; iso; ev; zoom; lon; lat; sat; d; h; hs; vs].
Proof.
  unfold data_fields_ok. rewrite !andb_true_iff.
  intros (((((((((((Hf & Hss) & Hiso) & Hev) & Hzoom) & Hlon) & Hlat) & Hsat) & Hd) & Hh)
            & Hhs) & Hvs).
  now apply classify_data_line.
Qed.

(** What the main variant makes of a data line of the grammar: the record
    under construction gets the twelve fields from the numbers of the line
    ([vs] goes nowhere) and is the last entry of the result. *)
Lemma step_data_text rt c f ss iso ev zoom lon lat sat d h hs vs st :
  Inv st -> data_fields_ok f ss iso ev zoom lon lat sat d h hs vs = true ->
  exists st' old b',
    step rt c (data_line_text f ss iso ev zoom lon lat sat d h hs vs) st = Some st'
    /\ last (metrology st') = Some (data st)
    /\ deref st' (data st)
       = set_Bearing b' (set_decoded f ss iso ev zoom lon lat sat d h hs old).
Proof.
  intros HI Hok. destruct (classify_data_text _ _ _ _ _ _ _ _ _ _ _ _ Hok) as [whole Hc].
  destruct (step_data_line rt c _ _ st HI Hc) as (st' & old & b' & _ & Hs & _ & _ & Hm & Hh & _).
  exists st', old, b'. split; [exact Hs|]. rewrite Hm, last_snoc. split; [reflexivity|].
  now rewrite (deref_lookup _ _ _ Hh).
Qed.

(** The same for the earlier variant, whose record is new for each line. *)
Lemma legacy_step_data_text rt c f ss iso ev zoom n1 n2 n3 d h hs vs st :
  data_fields_ok f ss iso ev zoom n1 n2 n3 d h hs vs = true ->
  Legacy.step rt c (data_line_text f ss iso ev zoom n1 n2 n3 d h hs vs) st
  = Some (Legacy.mkState
            (Legacy.metrology st
             ++ [Legacy.set_decoded f ss iso ev zoom n1 n2 n3 d h hs Legacy.sample0])
            (Legacy.clock st) (Legacy.stdout st)).
Proof.
  intros Hok. destruct (classify_data_text _ _ _ _ _ _ _ _ _ _ _ _ Hok) as [whole Hc].
  rewrite legacy_step_classify, Hc. reflexivity.
Qed.

(** ** C1: the order of the two GPS numbers *)

(** C1.  In src/main.go a matched data line puts the first number captured
    inside [GPS (...)] (submatch 6) into [Longitude] and the second
    (submatch 7) into [Latitude] of the sample it emits; for a line written
    by the grammar these are the numbers [g1] and [g2] of the text.  The
    earlier variant, src/unnamed/part_000, reads the same two submatches the
    other way round: the first into [Latitude], the second into
    [Longitude]. *)
Theorem C1_gps_order_by_variant rt :
  (forall c l caps st,
     Inv st -> classify_line l = DataLine caps ->
     exists st' lon lat,
       step rt c l st = Some st'
       /\ caps !! 6 = Some lon /\ caps !! 7 = Some lat
       /\ last (metrology st') = Some (data st)
       /\ Longitude (deref st' (data st)) = fst (ParseFloat lon)
       /\ Latitude (deref st' (data st)) = fst (ParseFloat lat))
  /\ (forall c f ss iso ev zoom g1 g2 g3 d h hs vs st,
        Inv st -> data_fields_ok f ss iso ev zoom g1 g2 g3 d h hs vs = true ->
        exists st',
          step rt c (data_line_text f ss iso ev zoom g1 g2 g3 d h hs vs) st = Some st'
          /\ last (metrology st') = Some (data st)
          /\ Longitude (deref st' (data st)) = fst (ParseFloat g1)
          /\ Latitude (deref st' (data st)) = fst (ParseFloat g2))
  /\ (forall c l caps st,
        classify_line l = DataLine caps ->
        exists st' s first second,
          Legacy.step rt c l st = Some st'
          /\ caps !! 6 = Some first /\ caps !! 7 = Some second
          /\ last (Legacy.metrology st') = Some s
          /\ Legacy.Latitude s = fst (ParseFloat first)
          /\ Legacy.Longitude s = fst (ParseFloat second)).
Proof.
  split; [|split].
  - intros c l caps st HI Hc.
    destruct (step_data_line rt c l caps st HI Hc)
      as (st' & d & b' & _ & Hs & _ & _ & Hm & Hh & _).
    destruct (classify_DataLine l caps Hc)
      as (w & c1 & c2 & c3 & c4 & c5 & c6 & c7 & c8 & c9 & c10 & c11 & c12 & ->).
    exists st', c6, c7. rewrite Hm, last_snoc, (deref_lookup _ _ _ Hh). auto 10.
  - intros c f ss iso ev zoom g1 g2 g3 d h hs vs st HI Hok.
    destruct (step_data_text rt c _ _ _ _ _ _ _ _ _ _ _ _ st HI Hok)
      as (st' & old & b' & Hs & Hl & Hd).
    exists st'. rewrite Hd. auto.
  - intros c l caps st Hc.
    destruct (legacy_first_gps_number_is_latitude rt c l caps st Hc)
      as (s & first & second & Hs & H6 & H7 & Hlat & Hlon).
    eexists _, s, first, second. split; [exact Hs|]. cbn [Legacy.metrology].
    rewrite last_snoc. auto.
Qed.

Lemma C1_witness :
  Inv init_state /\ classify_line sample_data_line = DataLine sample_caps
  /\ forall rt, exists st' lon lat,
      step rt 0 sample_data_line init_state = Some st'
      /\ sample_caps !! 6 = Some lon /\ sample_caps !! 7 = Some lat
      /\ last (metrology st') = Some (data init_state)
      /\ Longitude (deref st' (data init_state)) = fst (ParseFloat lon)
      /\ Latitude (deref st' (data init_state)) = fst (ParseFloat lat).
Proof.
  split; [exact Inv_init|]. split; [exact sample_data_line_class|].
  intros rt.
  exact (proj1 (C1_gps_order_by_variant rt) 0 sample_data_line sample_caps init_state
           Inv_init sample_data_line_class).
Defined.

(** On the sample block the earlier variant returns a sample whose
    [Longitude] is the second number of [GPS (-69.9191, 46.8451, 19)], not
    the first. *)
Lemma C1_counterexample :
  fst (ParseFloat "46.8451") <> fst (ParseFloat "-69.9191")
  /\ forall rt, exists st s,
       Legacy.parseSRT rt sample_block_input = Some st
       /\ Legacy.metrology st = [s]
       /\ Legacy.Latitude s = fst (ParseFloat "-69.9191")
       /\ Legacy.Longitude s = fst (ParseFloat "46.8451").
Proof.
  split; [vm_compute; discriminate|]. intros rt. eexists _, _.
  split; [vm_compute; reflexivity|]. split; [reflexivity|].
  split; vm_compute; reflexivity.
Qed.

(** ** C2: both speeds come from the H.S number *)

(** C2.  Every sample emitted from a matched data line has [VerticalSpeed]
    and [HorizontalSpeed] both parsed from submatch 11, the number after
    [H.S]; for a line written by the grammar that is [hs], whatever [vs] the
    line gives after [V.S].  So the two fields are equal in every sample of
    the returned sequence.  This holds in src/main.go and in
    src/unnamed/part_000 alike. *)
Theorem C2_vertical_speed_is_horizontal_speed rt :
  (forall c l caps st, Inv st -> classify_line l = DataLine caps ->
     exists st' hs,
       step rt c l st = Some st' /\ caps !! 11 = Some hs
       /\ last (metrology st') = Some (data st)
       /\ HorizontalSpeed (deref st' (data st)) = fst (ParseFloat hs)
       /\ VerticalSpeed (deref st' (data st)) = fst (ParseFloat hs))
  /\ (forall c f ss iso ev zoom g1 g2 g3 d h hs vs st,
        Inv st -> data_fields_ok f ss iso ev zoom g1 g2 g3 d h hs vs = true ->
        exists st',
          step rt c (data_line_text f ss iso ev zoom g1 g2 g3 d h hs vs) st = Some st'
          /\ last (metrology st') = Some (data st)
          /\ HorizontalSpeed (deref st' (data st)) = fst (ParseFloat hs)
          /\ VerticalSpeed (deref st' (data st)) = fst (ParseFloat hs))
  /\ (forall b st s, parseSRT rt b = Some st -> s ∈ samples st ->
        VerticalSpeed s = HorizontalSpeed s)
  /\ (forall c l caps st, classify_line l = DataLine caps ->
        exists st' s hs,
          Legacy.step rt c l st = Some st' /\ caps !! 11 = Some hs
          /\ last (Legacy.metrology st') = Some s
          /\ Legacy.HorizontalSpeed s = fst (ParseFloat hs)
          /\ Legacy.VerticalSpeed s = fst (ParseFloat hs))
  /\ (forall c f ss iso ev zoom g1 g2 g3 d h hs vs st,
        data_fields_ok f ss iso ev zoom g1 g2 g3 d h hs vs = true ->
        exists st' s,
          Legacy.step rt c (data_line_text f ss iso ev zoom g1 g2 g3 d h hs vs) st = Some st'
          /\ last (Legacy.metrology st') = Some s
          /\ Legacy.HorizontalSpeed s = fst (ParseFloat hs)
          /\ Legacy.VerticalSpeed s = fst (ParseFloat hs))
  /\ (forall b st s, Legacy.parseSRT rt b = Some st -> s ∈ Legacy.metrology st ->
        Legacy.VerticalSpeed s = Legacy.HorizontalSpeed s).
Proof.
  split; [|split; [|split; [|split; [|split]]]].
  - intros c l caps st HI Hc.
    destruct (step_data_line rt c l caps st HI Hc)
      as (st' & d & b' & _ & Hs & _ & _ & Hm & Hh & _).
    destruct (classify_DataLine l caps Hc)
      as (w & c1 & c2 & c3 & c4 & c5 & c6 & c7 & c8 & c9 & c10 & c11 & c12 & ->).
    exists st', c11. rewrite Hm, last_snoc, (deref_lookup _ _ _ Hh). auto 10.
  - intros c f ss iso ev zoom g1 g2 g3 d h hs vs st HI Hok.
    destruct (step_data_text rt c _ _ _ _ _ _ _ _ _ _ _ _ st HI Hok)
      as (st' & old & b' & Hs & Hl & Hd).
    exists st'. rewrite Hd. auto.
  - intros b st s Hp Hs. pose proof (parseSRT_Inv _ _ _ Hp) as HI.
    apply list_elem_of_lookup in Hs as [n Hn].
    destruct (samples_lookup st n s HI Hn) as (p & _ & Hps).
    rewrite parseSRT_unfold in Hp. destruct (String.length b <? 3); [discriminate|].
    eapply run_heap_speeds in Hp; [|exact Inv_init|].
    + exact (Forall_lookup_1 _ _ _ _ Hp Hps).
    + repeat constructor.
  - intros c l caps st Hc. rewrite legacy_step_classify, Hc.
    destruct (classify_DataLine l caps Hc)
      as (w & c1 & c2 & c3 & c4 & c5 & c6 & c7 & c8 & c9 & c10 & c11 & c12 & ->).
    eexists _, _, c11. split; [reflexivity|]. cbn [Legacy.metrology]. rewrite last_snoc. auto.
  - intros c f ss iso ev zoom g1 g2 g3 d h hs vs st Hok.
    rewrite (legacy_step_data_text rt c _ _ _ _ _ _ _ _ _ _ _ _ st Hok).
    eexists _, _. split; [reflexivity|]. cbn [Legacy.metrology]. rewrite last_snoc. auto.
  - intros b st s Hp Hs. unfold Legacy.parseSRT in Hp.
    destruct (String.length b <? 3); [discriminate|].
    destruct (legacy_run_total rt legacy_speeds_agree (strings_Split (drop_bytes 3 b) LF) 0
                Legacy.init_state) as (st' & Hr & HF); [reflexivity|constructor|].
    rewrite Hp in Hr. injection Hr as <-.
    rewrite Forall_forall in HF. now apply HF.
Qed.

Lemma C2_witness :
  data_fields_ok "2.8" "141.87" "110" "-0.7" "1.000" "-69.9191" "46.8451" "19"
    "31.42" "11.80" "1.00" "0.70" = true
  /\ sample_data_line
     = data_line_text "2.8" "141.87" "110" "-0.7" "1.000" "-69.9191" "46.8451" "19"
         "31.42" "11.80" "1.00" "0.70"
  /\ forall rt, exists st s,
       parseSRT rt sample_block_input = Some st /\ samples st = [s]
       /\ VerticalSpeed s = HorizontalSpeed s
       /\ exists st',
            step rt 0 sample_data_line init_state = Some st'
            /\ VerticalSpeed (deref st' 0) = fst (ParseFloat "1.00").
Proof.
  split; [reflexivity|]. split; [reflexivity|]. intros rt.
  assert (H : exists st s, parseSRT rt sample_block_input = Some st /\ samples st = [s]).
  { eexists _, _. split; vm_compute; reflexivity. }
  destruct H as (st & s & Hp & Hs). exists st, s. split; [exact Hp|]. split; [exact Hs|].
  pose proof (C2_vertical_speed_is_horizontal_speed rt) as (_ & Htext & Hall & _).
  split.
  - apply (Hall sample_block_input st s Hp). rewrite Hs. apply list_elem_of_here.
  - destruct (Htext 0 "2.8" "141.87" "110" "-0.7" "1.000" "-69.9191" "46.8451" "19"
                "31.42" "11.80" "1.00" "0.70" init_state Inv_init eq_refl)
      as (st' & Hs' & _ & _ & Hv).
    exists st'. split; [exact Hs'|exact Hv].
Defined.

(** ** C3: the bearing of an emitted sample *)

(** C3.  Let a data line be read after any lines [pre] of a parse, and let
    [cur] be the sample it emits.  If fewer than two samples were emitted
    before, the bearing of [cur] is 0.  Otherwise let [q] be the entry
    emitted last, [prev] its record before this line and [prev'] after it
    (the same coordinates, unless [q] is the record of [cur] itself: then
    [prev'] is [cur]).  The bearing is computed from the coordinates of
    [prev'] to those of [cur]; when it is exactly 0 or exactly 180 the
    bearing of [cur] is the bearing [prev] had, and otherwise it is the
    computed value.  Identical coordinates make [cur] reuse that bearing
    whenever the bearing computed between them is exactly 0 or 180. *)
Theorem C3_bearing_of_an_emitted_sample rt pre l caps st :
  run rt 0 pre init_state = Some st -> classify_line l = DataLine caps ->
  exists st' cur,
    step rt (length pre) l st = Some st'
    /\ metrology st' = metrology st ++ [data st']
    /\ heap st' !! data st' = Some cur
    /\ (length (metrology st) < 2 -> Bearing cur = zero)
    /\ (2 <= length (metrology st) ->
        exists q prev prev',
          last (metrology st) = Some q
          /\ heap st !! q = Some prev /\ heap st' !! q = Some prev'
          /\ (q <> data st' -> prev' = prev)
          /\ (q = data st' -> prev' = cur)
          /\ (exact_0_or_180 (BearingTo rt (point_of prev') (point_of cur)) = true ->
              Bearing cur = Bearing prev)
          /\ (exact_0_or_180 (BearingTo rt (point_of prev') (point_of cur)) = false ->
              Bearing cur = BearingTo rt (point_of prev') (point_of cur))
          /\ (point_of prev' = point_of cur ->
              exact_0_or_180 (BearingTo rt (point_of cur) (point_of cur)) = true ->
              Bearing cur = Bearing prev)).
Proof.
  intros Hrun Hc.
  destruct (run_reachable rt pre 0 init_state st Inv_init BearingInv_init Hrun) as [HI HB].
  pose proof HI as (Hd & Hl & Hm).
  destruct (lookup_lt_is_Some_2 (heap st) (data st) Hd) as [d Hdd].
  rewrite step_classify, Hc.
  set (st1 := store (set_decoded_caps caps) st).
  assert (H1 : Inv st1) by now apply Inv_store.
  assert (Hd1 : heap st1 !! data st = Some (set_decoded_caps caps d))
    by (unfold st1; cbn; now rewrite list_lookup_alter_eq, Hdd).
  destruct (emit_spec rt st1 H1) as (heap' & -> & Hle & Hgt).
  change (dataLen st1) with (dataLen st) in *. change (metrology st1) with (metrology st) in *.
  change (data st1) with (data st) in *.
  destruct (Z.le_gt_cases (dataLen st) 1) as [Hc1|Hc1].
  - rewrite (Hle Hc1). eexists _, (set_decoded_caps caps d).
    split; [reflexivity|]. cbn [heap metrology data]. split; [reflexivity|].
    split; [exact Hd1|]. split; [|lia].
    intros Hlen. pose proof (Forall_lookup_1 _ _ _ _ (HB Hlen) Hdd) as Hb. exact Hb.
  - destruct (Hgt Hc1) as (q & p & d' & Hq & Hp & Hd' & ->).
    rewrite Hd1 in Hd'. injection Hd' as <-.
    set (d1 := set_decoded_caps caps d) in *.
    set (cur := set_Bearing (next_bearing rt p d1) d1).
    eexists _, cur. split; [reflexivity|]. cbn [heap metrology data]. split; [reflexivity|].
    split; [now rewrite list_lookup_alter_eq, Hd1|]. split; [lia|].
    intros _.
    assert (Hcur : Bearing cur = next_bearing rt p d1) by reflexivity.
    assert (Hpt : point_of cur = point_of d1) by reflexivity.
    destruct (Nat.eq_dec (data st) q) as [<-|Hne].
    + rewrite Hd1 in Hp. injection Hp as <-.
      exists (data st), d, cur. split; [exact Hq|]. split; [exact Hdd|].
      split; [now rewrite list_lookup_alter_eq, Hd1|].
      split; [congruence|]. split; [reflexivity|].
      assert (Hbd : Bearing d1 = Bearing d) by reflexivity.
      rewrite Hpt, Hcur. unfold next_bearing, exact_0_or_180. rewrite Hbd.
      split; [now intros ->|]. split; [now intros ->|].
      intros _ Hb. now rewrite Hb.
    + assert (Hpq : heap st !! q = Some p).
      { unfold st1 in Hp. cbn [heap store] in Hp. now rewrite list_lookup_alter_ne in Hp. }
      exists q, p, p. split; [exact Hq|]. split; [exact Hpq|].
      split; [now rewrite list_lookup_alter_ne|].
      split; [reflexivity|]. split; [congruence|].
      rewrite Hpt, Hcur. unfold next_bearing, exact_0_or_180.
      split; [now intros ->|]. split; [now intros ->|].
      intros Hpp Hb. rewrite Hpp, Hb. reflexivity.
Qed.

Lemma C3_witness :
  classify_line sample_data_line = DataLine sample_caps
  /\ forall rt,
       run rt 0 [] init_state = Some init_state
       /\ exists st' cur,
       step rt 0 sample_data_line init_state = Some st'
       /\ metrology st' = [data st']
       /\ heap st' !! data st' = Some cur
       /\ Bearing cur = zero.
Proof.
  split; [exact sample_data_line_class|]. intros rt. split; [reflexivity|].
  destruct (C3_bearing_of_an_emitted_sample rt [] sample_data_line sample_caps init_state
              eq_refl sample_data_line_class) as (st' & cur & Hs & Hm & Hh & H0 & _).
  exists st', cur. split; [exact Hs|]. split; [exact Hm|]. split; [exact Hh|].
  apply H0. cbn. lia.
Defined.

(** A longitude of four hundred and one digits is read as +Inf (the error of
    [ParseFloat] is dropped).  Three blocks with that longitude and the same
    latitude have identical coordinates; the bearing between the second and
    the third is NaN, which is neither 0 nor 180, so the third sample does
    not reuse the bearing 0 of the second: its bearing is NaN. *)
Lemma C3_counterexample :
  ParseFloat huge_number = (infinity, Some (NumError "ParseFloat" huge_number true))
  /\ forall rt,
       exists st s1 s2,
         parseSRT rt C3_input = Some st
         /\ samples st !! 1 = Some s1 /\ samples st !! 2 = Some s2
         /\ point_of s1 = point_of s2
         /\ BearingTo rt (point_of s1) (point_of s2) = nan
         /\ Bearing s1 = zero /\ Bearing s2 = nan.
Proof.
  split; [vm_compute; reflexivity|]. intros [Sin Cos Atan2 Now HSin HAtan].
  cbn [math_Sin math_Atan2] in HSin, HAtan.
  pose proof mul_nan_l as Hmul. unfold nan in HSin, HAtan, Hmul.
  assert (E : parseSRT (Build_Runtime Sin Cos Atan2 Now HSin HAtan) C3_input
              = Some (mkState
                  (let s b := mkSample 0 zero_Time zero_Time (fst (ParseFloat "2.8"))
                                (fst (ParseFloat "141.87")) 110 (fst (ParseFloat "-0.7")) 0
                                (fst (ParseFloat "46.8451")) infinity 19 b
                                (fst (ParseFloat "31.42")) (fst (ParseFloat "11.80"))
                                1%float 1%float in
                   [s zero; s zero; s nan; sample0])
                  [0; 1; 2] 3 3 0 [])).
  { vm_compute. rewrite HSin, !Hmul, !HAtan. vm_compute. reflexivity. }
  rewrite E. eexists _, _, _. split; [reflexivity|].
  split; [reflexivity|]. split; [reflexivity|]. split; [reflexivity|].
  split; [|split; reflexivity].
  vm_compute. rewrite HSin, !Hmul, !HAtan. vm_compute. reflexivity.
Qed.

(** ** C4: inputs shorter than the marker *)

(** C4.  In both variants [parseSRT] stops with a run-time panic (the slice
    [b[3:]] is out of range) exactly when the input is shorter than three
    bytes, the input of zero bytes among them; on every other input it
    returns.  An input of exactly three bytes, the marker and no block,
    returns the empty sequence. *)
Theorem C4_parse_fails_only_on_short_input rt b :
  (parseSRT rt b = None <-> String.length b < 3)
  /\ (Legacy.parseSRT rt b = None <-> String.length b < 3)
  /\ (String.length b = 3 ->
      (exists st, parseSRT rt b = Some st /\ samples st = [])
      /\ (exists st, Legacy.parseSRT rt b = Some st /\ Legacy.metrology st = [])).
Proof.
  split; [apply parseSRT_panics_iff|]. split; [apply legacy_parseSRT_panics_iff|].
  intros H.
  destruct b as [|b0 [|b1 [|b2 [|b3 b]]]]; try discriminate H.
  split; eexists; (split; [reflexivity|reflexivity]).
Qed.

(** The input of zero bytes does not return an empty sequence: the call
    panics, in either variant. *)
Lemma C4_counterexample :
  (forall rt, parseSRT rt "" = None) /\ (forall rt, Legacy.parseSRT rt "" = None).
Proof. split; reflexivity. Qed.


(** ** C5: one well-formed block *)

(** An input of the marker and one well-formed block, with or without a
    line feed after the data line, returns one sample and prints nothing.
    The sample is [block_sample]: [ID] and the two times are the numbers of
    the index and time-range lines; the float fields are the literals of the
    data line, but [VerticalSpeed], which is the literal after [H.S]; the
    [int] fields are what [strconv.Atoi] makes of their literals. *)
Lemma one_well_formed_block rt marker b (newline_at_end : bool) :
  String.length marker = 3 -> well_formed b = true ->
  exists st,
    parseSRT rt (marker +:+ join_lines (block_lines b ++ if newline_at_end then [""] else []))
    = Some st
    /\ samples st = [block_sample b]
    /\ stdout st = [].
Proof.
  intros Hmk Hwf. unfold well_formed in Hwf. rewrite !andb_true_iff in Hwf.
  destruct Hwf as ((((((((((((((((((((Hi & Hh1) & Hm1) & Hs1) & Hms1) & Hh2) & Hm2) & Hs2) & Hms2)
    & Hf) & Hss) & Hiso) & Hev) & Hzoom) & Hg1) & Hg2) & Hg3) & Hd) & Ha) & Hhs) & Hvs).
  apply int_digits_spec in Hi as [Di Fi], Hh1 as [Dh1 Fh1], Hm1 as [Dm1 Fm1],
    Hs1 as [Ds1 Fs1], Hms1 as [Dms1 Fms1], Hh2 as [Dh2 Fh2], Hm2 as [Dm2 Fm2],
    Hs2 as [Ds2 Fs2], Hms2 as [Dms2 Fms2].
  pose proof (srt_time_cls _ _ _ _ Dh1 Dm1 Ds1 Dms1) as Ht1.
  pose proof (srt_time_cls _ _ _ _ Dh2 Dm2 Ds2 Dms2) as Ht2.
  destruct (classify_data_line _ _ _ _ _ _ _ _ _ _ _ _ Hf Hss Hiso Hev Hzoom Hg1 Hg2 Hg3 Hd Ha Hhs Hvs)
    as [whole Hcd].
  rewrite parseSRT_unfold.
  assert (Hlen : (String.length
                    (marker +:+ join_lines (block_lines b ++ if newline_at_end then [""] else []))
                  <? 3) = false).
  { apply Nat.ltb_ge. rewrite str_length_app. lia. }
  rewrite Hlen, <- Hmk, drop_bytes_app.
  rewrite strings_Split_join.
  2: { unfold block_lines. discriminate. }
  2: { unfold block_lines. repeat apply Forall_cons_2.
       - apply (all_bytes_no_byte is_digit); [reflexivity|apply Di].
       - now apply time_range_no_lf.
       - now apply data_line_no_lf.
       - destruct newline_at_end; repeat constructor. }
  unfold block_lines. cbn [app run].
  rewrite step_classify, (classify_index _ Di). cbn [mbind option_bind].
  rewrite step_classify, (classify_time_range _ _ Ht1 Ht2). cbn [mbind option_bind].
  rewrite (time_field_ok rt 1 _ _ _ _ set_Start) by assumption.
  rewrite (time_field_ok rt 1 _ _ _ _ set_End) by assumption.
  rewrite step_classify, Hcd.
  rewrite (Atoi_int_digits _ Di Fi).
  destruct newline_at_end; cbn; (eexists; split; [reflexivity|split; reflexivity]).
Qed.

(** C5.  An input made of a three-byte marker and one well-formed block
    (index line, time-range line, data line, with or without a line feed
    after it) yields exactly one sample and prints nothing.  Its [ID] is
    the number of the index line, its [Start] and [End] are the times of
    day of the time-range line, and its bearing is 0.  Each float field
    other than [VerticalSpeed] is what [ParseFloat] returns for its
    literal, and each of the [int] fields [ISO], [Zoom] and [Sources] what
    [Atoi] returns for its literal: the value of the literal when it is a
    number of that kind, zero when it is not (a syntax error), the nearest
    bound when it is out of range.  An [int] field whose literal is a run
    of digits that fits holds that number. *)
Theorem C5_one_well_formed_block rt marker b (newline_at_end : bool) :
  String.length marker = 3 -> well_formed b = true ->
  exists st s,
    parseSRT rt (marker +:+ join_lines (block_lines b ++ if newline_at_end then [""] else []))
    = Some st
    /\ samples st = [s] /\ stdout st = []
    /\ ID s = decimal (b_index b)
    /\ Start s
       = makeTime (decimal (b_h1 b)) (decimal (b_m1 b)) (decimal (b_s1 b)) (decimal (b_ms1 b))
    /\ End_ s
       = makeTime (decimal (b_h2 b)) (decimal (b_m2 b)) (decimal (b_s2 b)) (decimal (b_ms2 b))
    /\ coerced_float (b_fstop b) (FStop s)
    /\ coerced_float (b_shutter b) (Shutter s)
    /\ coerced_int (b_iso b) (ISO s)
    /\ coerced_float (b_ev b) (EV s)
    /\ coerced_int (b_zoom b) (Zoom s)
    /\ coerced_float (b_gps1 b) (Longitude s)
    /\ coerced_float (b_gps2 b) (Latitude s)
    /\ coerced_int (b_gps3 b) (Sources s)
    /\ coerced_float (b_dth b) (DTH s)
    /\ coerced_float (b_alt b) (Altitude s)
    /\ coerced_float (b_hs b) (HorizontalSpeed s)
    /\ Bearing s = zero
    /\ (int_digits (b_iso b) = true -> ISO s = decimal (b_iso b))
    /\ (int_digits (b_zoom b) = true -> Zoom s = decimal (b_zoom b))
    /\ (int_digits (b_gps3 b) = true -> Sources s = decimal (b_gps3 b)).
Proof.
  intros Hmk Hwf.
  destruct (one_well_formed_block rt marker b newline_at_end Hmk Hwf) as (st & Hp & Hs & Ho).
  exists st, (block_sample b). split; [exact Hp|]. split; [exact Hs|]. split; [exact Ho|].
  cbn [block_sample ID Start End_ FStop Shutter ISO EV Zoom Longitude Latitude Sources
         DTH Altitude HorizontalSpeed Bearing].
  do 3 (split; [reflexivity|]).
  repeat (split; [first [apply coerced_float_ParseFloat|apply coerced_int_Atoi]|]).
  split; [reflexivity|].
  repeat split; intros Hd; apply int_digits_spec in Hd as [Hd Hf];
    now rewrite (Atoi_int_digits _ Hd Hf).
Qed.

Lemma C5_witness :
  String.length utf8_bom = 3 /\ well_formed sample_block = true
  /\ block_lines sample_block
     = ["44"; "00:00:43,000 --> 00:00:44,000"; sample_data_line]
  /\ forall rt, exists st s,
       parseSRT rt sample_block_input = Some st /\ samples st = [s]
       /\ ID s = 44%Z
       /\ Start s = makeTime 0 0 43 0 /\ End_ s = makeTime 0 0 44 0
       /\ day_number (Start s) = day_number (makeTime 0 0 0 0)
       /\ Clock (Start s) = (0, 0, 43)%Z /\ Nanosecond (Start s) = 0%Z
       /\ Clock (End_ s) = (0, 0, 44)%Z /\ Nanosecond (End_ s) = 0%Z
       /\ ISO s = 110%Z /\ Sources s = 19%Z.
Proof.
  split; [reflexivity|]. split; [vm_compute; reflexivity|]. split; [reflexivity|].
  intros rt.
  destruct (C5_one_well_formed_block rt utf8_bom sample_block true eq_refl eq_refl)
    as (st & s & Hp & Hs & _ & Hid & Hst & Hen & _ & _ & _ & _ & _ & _ & _ & _ & _ & _ & _
        & _ & Hiso & _ & Hsrc).
  exists st, s. split; [exact Hp|]. split; [exact Hs|].
  rewrite Hid, Hst, Hen, (Hiso eq_refl), (Hsrc eq_refl).
  repeat split; vm_compute; reflexivity.
Defined.

(** The block of the two examples: the data line says [DZOOM 1.000] and
    [V.S 0.70m/s], the sample has [Zoom] 0, because [Atoi] rejects [1.000],
    and [VerticalSpeed] 1, the number after [H.S]. *)
Lemma C5_counterexample :
  block_lines sample_block = ["44"; "00:00:43,000 --> 00:00:44,000"; sample_data_line]
  /\ well_formed sample_block = true
  /\ Atoi "1.000" = (0%Z, Some (NumError "Atoi" "1.000" false))
  /\ forall rt, exists st s,
       parseSRT rt sample_block_input = Some st /\ samples st = [s]
       /\ Zoom s = 0%Z /\ Zoom s <> 1%Z
       /\ FStop s = 2.8%float /\ Shutter s = 141.87%float /\ ISO s = 110%Z
       /\ EV s = (-0.7)%float
       /\ Longitude s = (-69.9191)%float /\ Latitude s = 46.8451%float
       /\ Sources s = 19%Z
       /\ DTH s = 31.42%float /\ Altitude s = 11.80%float
       /\ HorizontalSpeed s = 1%float
       /\ VerticalSpeed s = 1%float
       /\ VerticalSpeed s <> 0.70%float.
Proof.
  split; [reflexivity|]. split; [vm_compute; reflexivity|]. split; [vm_compute; reflexivity|].
  intros rt. eexists _, _.
  split; [vm_compute; reflexivity|]. split; [vm_compute; reflexivity|].
  split; [reflexivity|]. split; [discriminate|].
  repeat (split; [vm_compute; reflexivity|]).
  vm_compute. discriminate.
Qed.

(** ** C6: conversions whose error is dropped *)

(** C6.  A matched data line always emits its sample, and the lines after it
    are still read.  Each numeric field holds what the conversion returned,
    the error being dropped: the parsed number when there was none; zero
    when the text is not a number (a syntax error); and, when the number is
    out of range, the largest or smallest [int] for [ISO], [Zoom] and
    [Sources], and an infinity for the float fields. *)
Theorem C6_dropped_conversion_errors rt c l caps st rest :
  Inv st -> classify_line l = DataLine caps ->
  exists st' s,
    step rt c l st = Some st'
    /\ metrology st' = metrology st ++ [data st]
    /\ heap st' !! data st = Some s
    /\ coerced_float (nth 1 caps "") (FStop s)
    /\ coerced_float (nth 2 caps "") (Shutter s)
    /\ coerced_int (nth 3 caps "") (ISO s)
    /\ coerced_float (nth 4 caps "") (EV s)
    /\ coerced_int (nth 5 caps "") (Zoom s)
    /\ coerced_float (nth 6 caps "") (Longitude s)
    /\ coerced_float (nth 7 caps "") (Latitude s)
    /\ coerced_int (nth 8 caps "") (Sources s)
    /\ coerced_float (nth 9 caps "") (DTH s)
    /\ coerced_float (nth 10 caps "") (Altitude s)
    /\ coerced_float (nth 11 caps "") (HorizontalSpeed s)
    /\ coerced_float (nth 11 caps "") (VerticalSpeed s)
    /\ exists st'', run rt (S c) rest st' = Some st''.
Proof.
  intros HI Hc.
  destruct (step_data_line rt c l caps st HI Hc)
    as (st' & d & b' & _ & Hs & HF & _ & Hm & Hh & _).
  exists st', (set_Bearing b' (set_decoded_caps caps d)).
  split; [exact Hs|]. split; [exact Hm|]. split; [exact Hh|].
  cbn [set_Bearing set_decoded_caps set_decoded FStop Shutter ISO EV Zoom Longitude Latitude
         Sources DTH Altitude HorizontalSpeed VerticalSpeed].
  repeat (split; [first [apply coerced_float_ParseFloat|apply coerced_int_Atoi]|]).
  destruct (run_total rt rest (S c) st' (sf_inv _ _ HF)) as (st'' & Hr & _). eauto.
Qed.

Lemma C6_witness :
  Inv init_state /\ classify_line sample_data_line = DataLine sample_caps
  /\ forall rt, exists st' s,
      step rt 0 sample_data_line init_state = Some st'
      /\ heap st' !! 0 = Some s
      /\ coerced_int "1.000" (Zoom s) /\ Zoom s = 0%Z
      /\ exists st'', run rt 1 [""; "45"] st' = Some st''.
Proof.
  split; [exact Inv_init|]. split; [exact sample_data_line_class|]. intros rt.
  destruct (C6_dropped_conversion_errors rt 0 sample_data_line sample_caps init_state
              [""; "45"] Inv_init sample_data_line_class)
    as (st' & s & Hs & _ & Hh & _ & _ & _ & _ & Hz & _ & _ & _ & _ & _ & _ & _ & Hr).
  exists st', s. split; [exact Hs|]. split; [exact Hh|]. split; [exact Hz|].
  split; [exact (proj1 Hz)|exact Hr].
Defined.

(** An ISO of twenty nines is a failed conversion (out of range), and the
    sample holds 9223372036854775807, not zero. *)
Lemma C6_counterexample :
  snd (Atoi "99999999999999999999") = Some (NumError "Atoi" "99999999999999999999" true)
  /\ forall rt, exists st s,
       parseSRT rt C6_input = Some st /\ samples st = [s]
       /\ ISO s = 9223372036854775807%Z.
Proof.
  split; [reflexivity|]. intros rt. eexists _, _.
  split; [vm_compute; reflexivity|]. split; vm_compute; reflexivity.
Qed.


(** ** C7: when the time parser fails *)

(** C7.  [parseSrtTime] turns [,] and [.] into [:] and, when that leaves
    exactly two colons, appends [:000].  It fails with the error
    [Regexp didnt match] exactly when the text so normalised holds no four
    groups of digits separated by single colons.  It fails in one more
    case: when such groups are found and one of them, the first from the
    left, exceeds the largest [int]; the error is then the range error of
    [strconv.Atoi].  A token of three digit groups parses, if the three fit
    an [int], to the time with these hours, minutes and seconds and zero
    milliseconds; a token of four digit groups parses if and only if the
    four fit.  Every failure returns [time.Now()]. *)
Theorem C7_time_token_failures rt n tok :
  (time_error rt n tok = Some (RegexpDidntMatch (normalize_time tok))
   <-> ~ four_groups (normalize_time tok))
  /\ (forall e, time_error rt n tok = Some e ->
        parseSrtTime rt n tok = (time_Now rt n, Some e, S n)
        /\ (e = RegexpDidntMatch (normalize_time tok)
            \/ exists g, digits1 g /\ (maxInt64 < decimal g)%Z /\ e = NumError "Atoi" g true))
  /\ (forall d1 d2 d3 s1 s2,
        tok = d1 +:+ String s1 (d2 +:+ String s2 d3) ->
        digits1 d1 -> digits1 d2 -> digits1 d3 -> is_sep s1 -> is_sep s2 ->
        normalize_time tok = time_text d1 d2 d3 "000"
        /\ (fits_int d1 && fits_int d2 && fits_int d3 = true ->
            parseSrtTime rt n tok
            = (makeTime (decimal d1) (decimal d2) (decimal d3) 0, None, n)))
  /\ (forall d1 d2 d3 d4 s1 s2 s3,
        tok = d1 +:+ String s1 (d2 +:+ String s2 (d3 +:+ String s3 d4)) ->
        digits1 d1 -> digits1 d2 -> digits1 d3 -> digits1 d4 ->
        is_sep s1 -> is_sep s2 -> is_sep s3 ->
        normalize_time tok = time_text d1 d2 d3 d4
        /\ (time_error rt n tok = None
            <-> fits_int d1 && fits_int d2 && fits_int d3 && fits_int d4 = true)
        /\ (time_error rt n tok = None ->
            parseSrtTime rt n tok
            = (makeTime (decimal d1) (decimal d2) (decimal d3) (decimal d4), None, n))).
Proof.
  unfold time_error. split; [|split; [|split]].
  - destruct (parseSrtTime_cases rt n tok) as [[Hn ->]|(Hf & w & d1 & d2 & d3 & d4 & _ & _ & _ & _ & _ & ->)].
    + cbn. tauto.
    + split; [|tauto].
      destruct (fits_int d1), (fits_int d2), (fits_int d3), (fits_int d4); cbn; discriminate.
  - intros e He. split; [now apply parseSrtTime_error|].
    destruct (parseSrtTime_cases rt n tok)
      as [[Hn Hp]|(Hf & w & d1 & d2 & d3 & d4 & _ & H1 & H2 & H3 & H4 & Hp)];
      rewrite Hp in He.
    + left. cbn in He. congruence.
    + right.
      destruct (fits_int d1) eqn:E1; cbn in He;
        [|injection He as <-; exists d1; auto using fits_int_false].
      destruct (fits_int d2) eqn:E2; cbn in He;
        [|injection He as <-; exists d2; auto using fits_int_false].
      destruct (fits_int d3) eqn:E3; cbn in He;
        [|injection He as <-; exists d3; auto using fits_int_false].
      destruct (fits_int d4) eqn:E4; cbn in He;
        [discriminate|injection He as <-; exists d4; auto using fits_int_false].
  - intros d1 d2 d3 s1 s2 -> H1 H2 H3 S1 S2.
    assert (Hn : normalize_time (d1 +:+ String s1 (d2 +:+ String s2 d3))
                 = time_text d1 d2 d3 "000")
      by (apply normalize_time_three; auto; [apply H1|apply H2|apply H3]).
    split; [exact Hn|]. intros Hi. apply andb_true_iff in Hi as [Hi Hi3].
    apply andb_true_iff in Hi as [Hi1 Hi2].
    destruct (FSS_r_time_exact d1 d2 d3 "000") as [w Hw]; auto; [split; [discriminate|reflexivity]|].
    rewrite <- Hn in Hw.
    rewrite (parseSrtTime_groups rt n _ w d1 d2 d3 "000" Hw); auto;
      [|split; [discriminate|reflexivity]].
    rewrite Hi1, Hi2, Hi3. reflexivity.
  - intros d1 d2 d3 d4 s1 s2 s3 -> H1 H2 H3 H4 S1 S2 S3.
    assert (Hn : normalize_time (d1 +:+ String s1 (d2 +:+ String s2 (d3 +:+ String s3 d4)))
                 = time_text d1 d2 d3 d4)
      by (apply normalize_time_four; auto; [apply H1|apply H2|apply H3|apply H4]).
    split; [exact Hn|].
    destruct (FSS_r_time_exact d1 d2 d3 d4) as [w Hw]; auto.
    rewrite <- Hn in Hw.
    rewrite (parseSrtTime_groups rt n _ w d1 d2 d3 d4 Hw); auto.
    destruct (fits_int d1), (fits_int d2), (fits_int d3), (fits_int d4); cbn; split;
      try tauto; try (split; [discriminate|discriminate]); try discriminate; split; congruence.
Qed.

Lemma C7_witness :
  digits1 "00" /\ digits1 "43" /\ is_sep ":"
  /\ forall rt n,
       normalize_time "00:00:43" = time_text "00" "00" "43" "000"
       /\ parseSrtTime rt n "00:00:43" = (makeTime 0 0 43 0, None, n).
Proof.
  assert (D0 : digits1 "00") by (split; [discriminate|reflexivity]).
  assert (D43 : digits1 "43") by (split; [discriminate|reflexivity]).
  assert (S : is_sep ":") by (left; reflexivity).
  split; [exact D0|]. split; [exact D43|]. split; [exact S|]. intros rt n.
  destruct (proj1 (proj2 (proj2 (C7_time_token_failures rt n "00:00:43")))
              "00" "00" "43" ":"%char ":"%char eq_refl D0 D0 D43 S S) as [Hn Hp].
  split; [exact Hn|]. exact (Hp eq_refl).
Defined.

(** A token whose first group is twenty nines has its four digit groups,
    and is rejected all the same. *)
Lemma C7_counterexample :
  four_groups (normalize_time C7_token)
  /\ forall rt n,
       parseSrtTime rt n C7_token
       = (time_Now rt n, Some (NumError "Atoi" "99999999999999999999" true), S n).
Proof.
  split; [|reflexivity].
  exists "", "99999999999999999999", "00", "00", "000", "".
  split; [reflexivity|]. repeat split; discriminate.
Qed.


(** ** C8: a time-range line with a token that fails *)

(** C8.  A line that matches the time-range pattern never stops the parse:
    the sample under construction stays the same record, nothing is
    emitted, and the lines after it are read.  When the first token fails,
    the error is printed and [Start] becomes what [time.Now()] returned at
    that moment; likewise [End] for the second token.  The field is not
    left at, or set to, the zero time. *)
Theorem C8_failed_time_token_stores_now rt c l t1 t2 st rest :
  Inv st -> classify_line l = TimeRange t1 t2 ->
  exists st' s,
    step rt c l st = Some st'
    /\ metrology st' = metrology st /\ data st' = data st
    /\ heap st' !! data st = Some s
    /\ (exists st'', run rt (S c) rest st' = Some st'')
    /\ (forall e, snd (fst (parseSrtTime rt (clock st) t1)) = Some e ->
          Start s = time_Now rt (clock st) /\ Printf_start_error c e ∈ stdout st')
    /\ (forall e, snd (fst (parseSrtTime rt (snd (parseSrtTime rt (clock st) t1)) t2)) = Some e ->
          End_ s = time_Now rt (snd (parseSrtTime rt (clock st) t1))
          /\ Printf_start_error c e ∈ stdout st').
Proof.
  intros HI Hc. pose proof HI as (Hd & _).
  destruct (lookup_lt_is_Some_2 (heap st) (data st) Hd) as [d Hdd].
  rewrite step_classify, Hc.
  set (st1 := time_field rt c t1 set_Start st).
  destruct (time_field_fields rt c t1 set_Start st) as (ta & ea & Hp1 & Hh1 & Hm1 & Hd1 & Hl1 & Ho1).
  destruct (time_field_fields rt c t2 set_End st1) as (tb & eb & Hp2 & Hh2 & Hm2 & Hd2 & Hl2 & Ho2).
  fold st1 in Hp1, Hh1, Hm1, Hd1, Hl1, Ho1.
  assert (HI' : Inv (time_field rt c t2 set_End st1)) by (do 2 apply Inv_time_field; exact HI).
  exists (time_field rt c t2 set_End st1), (set_End tb (set_Start ta d)).
  split; [reflexivity|]. split; [congruence|]. split; [congruence|].
  split.
  { rewrite Hh2, Hh1, Hd1, !list_lookup_alter_eq, Hdd. reflexivity. }
  split.
  { destruct (run_total rt rest (S c) _ HI') as (st'' & Hr & _). eauto. }
  assert (Hc1 : snd (parseSrtTime rt (clock st) t1) = clock st1) by now rewrite Hp1.
  split.
  - intros e He. rewrite (parseSrtTime_error _ _ _ _ He) in Hp1. injection Hp1 as <- <- _.
    split; [reflexivity|]. rewrite Ho2, Ho1.
    destruct eb; [apply elem_of_app; left|]; apply elem_of_app; right; apply list_elem_of_here.
  - intros e He. rewrite Hc1 in *. rewrite (parseSrtTime_error _ _ _ _ He) in Hp2.
    injection Hp2 as <- <- _. split; [reflexivity|]. rewrite Ho2.
    apply elem_of_app; right; apply list_elem_of_here.
Qed.

Lemma C8_witness :
  Inv init_state /\ classify_line C8_time_line = TimeRange "1:2" "00:00:44,000"
  /\ forall rt, exists st' s,
       step rt 1 C8_time_line init_state = Some st'
       /\ heap st' !! 0 = Some s
       /\ Start s = time_Now rt 0
       /\ Printf_start_error 1 (RegexpDidntMatch "1:2") ∈ stdout st'.
Proof.
  split; [exact Inv_init|]. split; [exact C8_time_line_class|]. intros rt.
  destruct (C8_failed_time_token_stores_now rt 1 C8_time_line "1:2" "00:00:44,000" init_state []
              Inv_init C8_time_line_class)
    as (st' & s & Hs & _ & _ & Hh & _ & H1 & _).
  exists st', s. split; [exact Hs|]. split; [exact Hh|].
  exact (H1 (RegexpDidntMatch "1:2") eq_refl).
Defined.

(** With the time range [1:2 --> 00:00:44,000] the error is printed and the
    one sample returned has the wall-clock time of the parse as [Start],
    which is the zero time only if the clock says so. *)
Lemma C8_counterexample :
  classify_line C8_time_line = TimeRange "1:2" "00:00:44,000"
  /\ forall rt, exists st s,
       parseSRT rt C8_input = Some st /\ samples st = [s]
       /\ stdout st = [Printf_start_error 1 (RegexpDidntMatch "1:2")]
       /\ Start s = time_Now rt 0
       /\ (time_Now rt 0 <> zero_Time -> Start s <> zero_Time).
Proof.
  split; [exact C8_time_line_class|]. intros rt. eexists _, _.
  split; [vm_compute; reflexivity|]. split; [vm_compute; reflexivity|].
  split; [vm_compute; reflexivity|]. split; [reflexivity|]. auto.
Qed.


(** ** C9: the bearing between two points *)

Lemma BearingTo_NaN rt p1 p2 :
  (lng p2 - lng p1)%float = nan -> BearingTo rt p1 p2 = nan.
Proof.
  intros H. unfold BearingTo. cbv zeta.
  rewrite H, mul_nan_l, div_nan_l, math_Sin_NaN, mul_nan_l, math_Atan2_NaN, mul_nan_l,
    div_nan_l. reflexivity.
Qed.

(** C9.  The bearing is computed from the two latitudes and the difference
    of the two longitudes alone.  It does not always lie in the range above
    -180 up to 180, and it is not always 0 for two identical points: when
    the difference of the longitudes is not a number the bearing is NaN,
    which lies in no range and does not compare equal to 0, and that is the
    case for two identical points whose longitude is an infinity or NaN.
    For two identical points with a finite longitude the difference is
    exactly +0 and the bearing is the one of the same latitude at longitude
    0.  It then compares equal to 0, being +0 or -0, provided that
    [math.Sin(0)] is 0, [math.Cos(0)] is 1, [math.Atan2] of a zero and +0 is
    that zero (the package documents Atan2(+0, x>=0) = +0 and
    Atan2(-0, x>=0) = -0), and the product of the cosine and the sine of
    the latitude in radians is finite. *)
Theorem C9_bearing_of_two_points rt :
  (forall p1 p2 q1 q2,
     lat p1 = lat q1 -> lat p2 = lat q2 ->
     (lng p2 - lng p1)%float = (lng q2 - lng q1)%float ->
     BearingTo rt p1 p2 = BearingTo rt q1 q2)
  /\ (forall p1 p2,
        (lng p2 - lng p1)%float = nan ->
        BearingTo rt p1 p2 = nan
        /\ spec_range (BearingTo rt p1 p2) = false
        /\ (BearingTo rt p1 p2 =? 0)%float = false)
  /\ (forall p,
        is_finite (lng p) = false ->
        (lng p - lng p)%float = nan /\ BearingTo rt p p = nan)
  /\ (forall p,
        is_finite (lng p) = true ->
        (lng p - lng p)%float = zero
        /\ BearingTo rt p p = BearingTo rt (mkPoint (lat p) 0%float) (mkPoint (lat p) 0%float))
  /\ (forall p,
        is_finite (lng p) = true ->
        math_Sin rt zero = zero -> math_Cos rt zero = 1%float ->
        math_Atan2 rt zero zero = zero -> math_Atan2 rt neg_zero zero = neg_zero ->
        is_finite (math_Cos rt (lat p * math_Pi / 180)
                   * math_Sin rt (lat p * math_Pi / 180)) = true ->
        (BearingTo rt p p = zero \/ BearingTo rt p p = neg_zero)
        /\ (BearingTo rt p p =? 0)%float = true).
Proof.
  assert (Hsame : forall p, is_finite (lng p) = true ->
            BearingTo rt p p = BearingTo rt (mkPoint (lat p) 0%float) (mkPoint (lat p) 0%float)).
  { intros p Hf. unfold BearingTo. cbv zeta. cbn [lat lng].
    rewrite (sub_self_finite _ Hf). reflexivity. }
  split; [|split; [|split; [|split]]].
  - intros p1 p2 q1 q2 H1 H2 Hd. unfold BearingTo. cbv zeta.
    now rewrite H1, H2, Hd.
  - intros p1 p2 H. rewrite (BearingTo_NaN rt p1 p2 H). auto.
  - intros p Hf. pose proof (sub_self_not_finite _ Hf) as Hd.
    split; [exact Hd|]. now apply BearingTo_NaN.
  - intros p Hf. split; [now apply sub_self_finite|now apply Hsame].
  - intros p Hf HS HC HA HA' Hprod.
    rewrite (Hsame p Hf). unfold BearingTo. cbv zeta. cbn [lat lng].
    change ((0 - 0) * math_Pi / 180)%float with zero.
    set (phi := (lat p * math_Pi / 180)%float) in *.
    destruct (mul_finite _ _ Hprod) as [Hc _].
    rewrite HS, HC, (mul_comm (math_Sin rt phi)), mul_one_r, (sub_self_finite _ Hprod).
    destruct (zero_mul_finite _ Hc) as [-> | ->].
    + rewrite HA. split; [now left|reflexivity].
    + rewrite HA'. split; [now right|reflexivity].
Qed.

Lemma C9_witness :
  (lng C9_point - lng C9_point)%float = nan
  /\ is_finite (lng C9_point) = false
  /\ is_finite (lng sample_point) = true
  /\ (forall rt, BearingTo rt C9_point C9_point = nan)
  /\ (BearingTo small_angle_runtime sample_point sample_point =? 0)%float = true.
Proof.
  assert (Hd : (lng C9_point - lng C9_point)%float = nan) by (vm_compute; reflexivity).
  assert (Hn : is_finite (lng C9_point) = false) by (vm_compute; reflexivity).
  assert (Hf : is_finite (lng sample_point) = true) by (vm_compute; reflexivity).
  assert (Hp : is_finite (math_Cos small_angle_runtime (lat sample_point * math_Pi / 180)
                          * math_Sin small_angle_runtime (lat sample_point * math_Pi / 180)) = true)
    by (vm_compute; reflexivity).
  split; [exact Hd|]. split; [exact Hn|]. split; [exact Hf|]. split.
  - intros rt.
    exact (proj1 (proj1 (proj2 (C9_bearing_of_two_points rt)) C9_point C9_point Hd)).
  - exact (proj2 (proj2 (proj2 (proj2 (proj2 (C9_bearing_of_two_points small_angle_runtime))))
                    sample_point Hf eq_refl eq_refl eq_refl eq_refl Hp)).
Defined.

(** Two identical points whose longitude has four hundred and one digits:
    [ParseFloat] reads the longitude as +Inf, the difference of the
    longitudes is NaN, and so is the bearing; it is neither in the range
    above -180 up to 180 nor equal to 0. *)
Lemma C9_counterexample :
  ParseFloat huge_number = (infinity, Some (NumError "ParseFloat" huge_number true))
  /\ lng C9_point = infinity
  /\ forall rt,
       BearingTo rt C9_point C9_point = nan
       /\ spec_range (BearingTo rt C9_point C9_point) = false
       /\ (BearingTo rt C9_point C9_point =? 0)%float = false.
Proof.
  split; [vm_compute; reflexivity|]. split; [vm_compute; reflexivity|].
  assert (Hd : (lng C9_point - lng C9_point)%float = nan) by (vm_compute; reflexivity).
  intros rt. rewrite (BearingTo_NaN rt C9_point C9_point Hd). auto.
Qed.

(** ** C10: data lines that no blank line separates *)

(** C10.  In src/main.go the record under construction is replaced only at
    a blank line.  So when two data lines [A] and [B] have no blank line
    between them, the entries that they append to the result are the same
    pointer, and the two positions show one record.  Its decoded fields are
    those of the last data line before the next blank line (or the end of
    the input): those of [B] when no further data line follows [B] there. *)
Theorem C10_unseparated_data_lines_share_a_record rt b pre A mid B post capsA capsB st :
  parseSRT rt b = Some st ->
  strings_Split (drop_bytes 3 b) LF = pre ++ A :: mid ++ B :: post ->
  classify_line A = DataLine capsA -> classify_line B = DataLine capsB ->
  Forall (fun l => l <> "") mid ->
  exists p s,
    metrology st !! count_data pre = Some p
    /\ metrology st !! (count_data pre + 1 + count_data mid) = Some p
    /\ heap st !! p = Some s
    /\ samples st !! count_data pre = Some s
    /\ samples st !! (count_data pre + 1 + count_data mid) = Some s
    /\ decoded_fields s = decoded_after (until_blank post) (decode capsB)
    /\ (count_data (until_blank post) = 0 -> decoded_fields s = decode capsB).
Proof.
  intros Hp Hsplit HA HB Hmid.
  rewrite parseSRT_unfold in Hp. destruct (String.length b <? 3); [discriminate|].
  rewrite Hsplit in Hp. clear Hsplit.
  destruct (until_blank_split post) as (rest & Epost & Hnb & Hrest).
  rewrite Epost in Hp.
  rewrite run_app in Hp.
  destruct (run_total rt pre 0 init_state Inv_init) as (st0 & Hr0 & F0).
  rewrite Hr0 in Hp. cbn [mbind option_bind run] in Hp.
  pose proof (sf_inv _ _ F0) as I0.
  destruct (run_count rt pre 0 init_state st0 Inv_init Hr0) as (e0 & Hm0 & Hl0).
  cbn [metrology init_state app] in Hm0.
  destruct (step_data_line rt (0 + length pre) A capsA st0 I0 HA)
    as (st1 & dA & bA & _ & Hs1 & F1 & Hd1 & Hm1 & Hh1 & _).
  rewrite Hs1 in Hp. cbn [mbind option_bind] in Hp.
  rewrite run_app in Hp.
  pose proof (sf_inv _ _ F1) as I1.
  destruct (run_total rt mid (S (0 + length pre)) st1 I1) as (st2 & Hr2 & F2).
  rewrite Hr2 in Hp. cbn [mbind option_bind run] in Hp.
  rewrite <- Hd1 in Hh1.
  destruct (run_builder rt mid _ st1 st2 _ I1 Hmid Hh1 Hr2)
    as (d2 & e2 & _ & Hd2 & _ & _ & Hm2 & Hl2).
  pose proof (sf_inv _ _ F2) as I2.
  destruct (step_data_line rt (S (0 + length pre) + length mid) B capsB st2 I2 HB)
    as (st3 & dB & bB & _ & Hs3 & F3 & Hd3 & Hm3 & Hh3 & _).
  rewrite Hs3 in Hp. cbn [mbind option_bind] in Hp.
  rewrite run_app in Hp.
  pose proof (sf_inv _ _ F3) as I3.
  destruct (run_total rt (until_blank post) (S (S (0 + length pre) + length mid)) st3 I3)
    as (st4 & Hr4 & F4).
  rewrite Hr4 in Hp. cbn [mbind option_bind] in Hp.
  rewrite <- Hd3 in Hh3.
  destruct (run_builder rt (until_blank post) _ st3 st4 _ I3 Hnb Hh3 Hr4)
    as (d4 & e4 & _ & Hd4 & Hh4 & Hdec4 & Hm4 & _).
  pose proof (sf_inv _ _ F4) as I4.
  set (p := data st0) in *.
  assert (Hp3 : data st3 = p) by congruence.
  assert (Hp4 : data st4 = p) by congruence.
  assert (Hfin : exists e5, metrology st = metrology st4 ++ e5 /\ heap st !! p = Some d4 /\ Inv st).
  { rewrite Hp3 in Hh4. destruct Hrest as [->|(rest' & ->)].
    - cbn in Hp. injection Hp as <-. exists []. now rewrite app_nil_r.
    - destruct (run_after_blank rt rest' _ st4 st p I4 Hp4 Hp) as (F5 & Hfz).
      destruct (sf_metrology _ _ F5) as [e5 Hm5]. exists e5.
      rewrite Hfz. pose proof (sf_inv _ _ F5). auto. }
  destruct Hfin as (e5 & Hm5 & Hh5 & HIst).
  assert (HiA : metrology st !! count_data pre = Some p).
  { rewrite Hm5, Hm4, Hm3, Hm2, Hm1, Hm0, <- Hl0, <- !app_assoc.
    apply list_lookup_middle. reflexivity. }
  assert (HiB : metrology st !! (count_data pre + 1 + count_data mid) = Some p).
  { rewrite Hm5, Hm4, Hm3, Hm2, Hm1, Hm0, <- Hl0, <- Hl2, Hd2, Hd1.
    rewrite <- !app_assoc. rewrite (app_assoc e0), (app_assoc (e0 ++ [p])).
    apply list_lookup_middle. rewrite !length_app. cbn. lia. }
  exists p, d4. split; [exact HiA|]. split; [exact HiB|]. split; [exact Hh5|].
  unfold samples. rewrite !list_lookup_fmap, HiA, HiB. cbn.
  rewrite (deref_lookup _ _ _ Hh5). split; [reflexivity|]. split; [reflexivity|].
  change (decoded_fields (set_Bearing bB (set_decoded_caps capsB dB)))
    with (decode capsB) in Hdec4.
  split; [exact Hdec4|]. intros Hz. rewrite Hdec4. now apply decoded_after_no_data.
Qed.

Lemma C10_witness :
  classify_line (C10_line "11.00") = DataLine (C10_caps "11.00")
  /\ classify_line (C10_line "22.00") = DataLine (C10_caps "22.00")
  /\ strings_Split (drop_bytes 3 C10_two_lines) LF
     = [] ++ C10_line "11.00" :: [] ++ C10_line "22.00" :: [""]
  /\ forall rt, exists st s,
       parseSRT rt C10_two_lines = Some st
       /\ samples st !! 0 = Some s /\ samples st !! 1 = Some s
       /\ decoded_fields s = decode (C10_caps "22.00")
       /\ Altitude s = fst (ParseFloat "22.00").
Proof.
  assert (HA : classify_line (C10_line "11.00") = DataLine (C10_caps "11.00"))
    by (vm_compute; reflexivity).
  assert (HB : classify_line (C10_line "22.00") = DataLine (C10_caps "22.00"))
    by (vm_compute; reflexivity).
  assert (HS : strings_Split (drop_bytes 3 C10_two_lines) LF
               = [] ++ C10_line "11.00" :: [] ++ C10_line "22.00" :: [""])
    by (vm_compute; reflexivity).
  split; [exact HA|]. split; [exact HB|]. split; [exact HS|]. intros rt.
  assert (Hp : exists st, parseSRT rt C10_two_lines = Some st)
    by (eexists; vm_compute; reflexivity).
  destruct Hp as [st Hp].
  destruct (C10_unseparated_data_lines_share_a_record rt C10_two_lines [] (C10_line "11.00") []
              (C10_line "22.00") [""] _ _ st Hp HS HA HB (Forall_nil_2 _))
    as (p & s & _ & _ & _ & H0 & H1 & _ & Hd).
  exists st, s. split; [exact Hp|]. split; [exact H0|]. split; [exact H1|].
  pose proof (Hd eq_refl) as Hd'. split; [exact Hd'|].
  exact (f_equal (fun t => t.1.1.2) Hd').
Defined.

(** Three data lines in a row: the positions of the first and of the second
    both show the altitude of the third, not of the second. *)
Lemma C10_counterexample :
  fst (ParseFloat "22.00") <> fst (ParseFloat "33.00")
  /\ forall rt, exists st s0 s1,
       parseSRT rt C10_three_lines = Some st
       /\ samples st !! 0 = Some s0 /\ samples st !! 1 = Some s1
       /\ Altitude s0 = fst (ParseFloat "33.00")
       /\ Altitude s1 = fst (ParseFloat "33.00").
Proof.
  split; [vm_compute; discriminate|]. intros [Sin Cos Atan2 Now HSin HAtan].
  assert (E : exists b',
             parseSRT (Build_Runtime Sin Cos Atan2 Now HSin HAtan) C10_three_lines
             = Some (mkState
                       [set_Bearing b' (set_decoded_caps (C10_caps "33.00") sample0); sample0]
                       [0; 0; 0] 1 3 0 [])).
  { vm_compute.
    repeat match goal with
           | |- context [if ?B then _ else _] => destruct B
           end; eexists; reflexivity. }
  destruct E as [b' ->]. eexists _, _, _. split; [reflexivity|].
  split; [reflexivity|]. split; [reflexivity|]. split; reflexivity.
Qed.

(* ================================================================== *)
(** * Further properties of the code *)

(** ** The earlier variant: what reaches the result *)

Lemma legacy_run_output rt lines : forall c st,
  exists st',
    Legacy.run rt c lines st = Some st'
    /\ Legacy.metrology st'
       = Legacy.metrology st
         ++ ((fun caps => legacy_set_decoded_caps caps Legacy.sample0) <$> data_caps lines).
Proof.
  induction lines as [|l ls IH]; intros c st; cbn [Legacy.run].
  - exists st. split; [reflexivity|]. cbn. now rewrite app_nil_r.
  - rewrite legacy_step_classify. unfold data_caps. cbn [omap list_omap].
    fold (data_caps ls).
    destruct (classify_line l) as [|m1|t1 t2|caps|]; cbn [mbind option_bind].
    + apply IH.
    + apply IH.
    + destruct (IH (S c) (Legacy.time_field rt c t2 (Legacy.time_field rt c t1 st)))
        as (st' & Hr & Hm).
      exists st'. split; [exact Hr|]. now rewrite Hm, !legacy_time_field_metrology.
    + destruct (IH (S c) (Legacy.mkState
                            (Legacy.metrology st ++ [legacy_set_decoded_caps caps Legacy.sample0])
                            (Legacy.clock st) (Legacy.stdout st))) as (st' & Hr & Hm).
      exists st'. split; [exact Hr|]. rewrite Hm. cbn [Legacy.metrology fmap list_fmap].
      now rewrite <- app_assoc.
    + apply IH.
Qed.

(** X1.  The sequence that the earlier variant returns is made from the data
    lines alone: one sample for each line that the data pattern matches, in
    the order of the lines, each decoded from the submatches of its own
    line into a new record.  (An input shorter than three bytes panics.) *)
Theorem legacy_result_is_the_data_lines rt b :
  Legacy.metrology <$> Legacy.parseSRT rt b
  = if String.length b <? 3 then None
    else Some ((fun caps => legacy_set_decoded_caps caps Legacy.sample0)
                 <$> data_caps (strings_Split (drop_bytes 3 b) LF)).
Proof.
  unfold Legacy.parseSRT. destruct (String.length b <? 3); [reflexivity|].
  destruct (legacy_run_output rt (strings_Split (drop_bytes 3 b) LF) 0 Legacy.init_state)
    as (st' & -> & Hm).
  cbn [fmap option_fmap option_map]. now rewrite Hm.
Qed.

(** X2.  In the earlier variant the index line and the time-range line of a
    block never reach the result: the record they are stored in is dropped
    at the end of their line, so every sample returned has [ID] 0 and the
    zero time as [Start] and [End]. *)
Theorem legacy_samples_have_no_id_and_no_times rt b st s :
  Legacy.parseSRT rt b = Some st -> s ∈ Legacy.metrology st ->
  Legacy.ID s = 0%Z /\ Legacy.Start s = zero_Time /\ Legacy.End_ s = zero_Time.
Proof.
  intros Hp Hs. unfold Legacy.parseSRT in Hp.
  destruct (String.length b <? 3); [discriminate|].
  destruct (legacy_run_total rt
              (fun s => Legacy.ID s = 0%Z /\ Legacy.Start s = zero_Time
                        /\ Legacy.End_ s = zero_Time)
              (strings_Split (drop_bytes 3 b) LF) 0 Legacy.init_state)
    as (st' & Hr & HF); [intros caps; cbn; auto|constructor|].
  rewrite Hp in Hr. injection Hr as <-.
  rewrite Forall_forall in HF. now apply HF.
Qed.

Lemma legacy_samples_have_no_id_and_no_times_witness :
  3 <= String.length sample_block_input
  /\ forall rt, exists st s,
    Legacy.parseSRT rt sample_block_input = Some st
    /\ Legacy.metrology st = [s]
    /\ Legacy.ID s = 0%Z /\ Legacy.Start s = zero_Time /\ Legacy.End_ s = zero_Time.
Proof.
  split; [vm_compute; lia|]. intros rt.
  assert (H : exists st s, Legacy.parseSRT rt sample_block_input = Some st
                           /\ Legacy.metrology st = [s]).
  { eexists _, _. split; vm_compute; reflexivity. }
  destruct H as (st & s & Hp & Hs). exists st, s. split; [exact Hp|]. split; [exact Hs|].
  apply (legacy_samples_have_no_id_and_no_times rt sample_block_input st s Hp).
  rewrite Hs. apply list_elem_of_here.
Defined.

(** ** The main variant: which entries of the result are one record *)

Lemma step_heap_length rt c l st st' :
  Inv st -> l <> "" -> step rt c l st = Some st' -> length (heap st') = length (heap st).
Proof.
  intros HI Hl. rewrite step_classify.
  destruct (classify_line l) as [|m1|t1 t2|caps|] eqn:Hc.
  - apply classify_Blank in Hc. contradiction.
  - intros [= <-]. cbn. apply length_alter.
  - intros [= <-].
    destruct (time_field_fields rt c t1 set_Start st) as (ta & ea & _ & Hh1 & _).
    destruct (time_field_fields rt c t2 set_End (time_field rt c t1 set_Start st))
      as (tb & eb & _ & Hh2 & _).
    now rewrite Hh2, Hh1, !length_alter.
  - destruct (emit_spec rt (store (set_decoded_caps caps) st)) as (heap' & -> & Hle & Hgt);
      [now apply Inv_store|].
    intros [= <-]. cbn [heap].
    destruct (Z.le_gt_cases (dataLen (store (set_decoded_caps caps) st)) 1) as [H1|H1].
    + rewrite (Hle H1). cbn. apply length_alter.
    + destruct (Hgt H1) as (prev & p & d & _ & _ & _ & ->). cbn. now rewrite !length_alter.
  - now intros [= <-].
Qed.

Lemma count_blank_cons l ls :
  count_blank (l :: ls) = (if String.eqb l "" then 1 else 0) + count_blank ls.
Proof. unfold count_blank. cbn. now destruct (String.eqb l ""). Qed.

Lemma is_data_blank : is_data "" = false.
Proof.
  assert (Hb : classify_line "" = Blank) by now apply classify_Blank.
  unfold is_data. now rewrite Hb.
Qed.

Lemma run_pointers rt lines : forall c st,
  Inv st -> S (data st) = length (heap st) ->
  exists st',
    run rt c lines st = Some st'
    /\ metrology st' = metrology st ++ pointers (data st) lines
    /\ data st' = data st + count_blank lines
    /\ S (data st') = length (heap st').
Proof.
  induction lines as [|l ls IH]; intros c st HI Hd; cbn [run pointers].
  - exists st. unfold count_blank. cbn. rewrite app_nil_r, Nat.add_0_r. auto.
  - rewrite count_blank_cons.
    destruct (String.eqb_spec l "") as [->|Hn].
    + rewrite step_classify. assert (Hb : classify_line "" = Blank) by now apply classify_Blank.
      rewrite Hb. cbn [mbind option_bind].
      destruct (IH (S c) (alloc_data st) (Inv_alloc _ HI)) as (st' & Hr & Hm & Hda & Hh).
      { cbn. rewrite length_app. cbn. lia. }
      exists st'. split; [exact Hr|]. cbn [alloc_data metrology data] in Hm, Hda.
      rewrite <- Hd in Hm, Hda. split; [exact Hm|]. split; [|exact Hh].
      rewrite Hda. lia.
    + destruct (step_builder rt c l st HI Hn) as (st1 & d0 & d1 & Hs & F1 & Hda1 & _ & _ & _ & Hm1).
      rewrite Hs. cbn [mbind option_bind].
      pose proof (step_heap_length rt c l st st1 HI Hn Hs) as Hlen.
      destruct (IH (S c) st1 (sf_inv _ _ F1)) as (st' & Hr & Hm & Hda & Hh); [congruence|].
      exists st'. split; [exact Hr|]. split; [|split; [lia|exact Hh]].
      rewrite Hm, Hm1, Hda1.
      destruct (is_data l); cbn; now rewrite <- app_assoc.
Qed.

Lemma pointers_length lines : forall k, length (pointers k lines) = count_data lines.
Proof.
  induction lines as [|l ls IH]; intros k; [reflexivity|].
  cbn [pointers]. rewrite count_data_cons.
  destruct (String.eqb_spec l "") as [->|Hn].
  - rewrite is_data_blank. apply IH.
  - destruct (is_data l); cbn [length]; now rewrite IH.
Qed.

Lemma pointers_between lines : forall k p,
  p ∈ pointers k lines -> k <= p <= k + count_blank lines.
Proof.
  induction lines as [|l ls IH]; intros k p; cbn [pointers].
  - intros H. inversion H.
  - rewrite count_blank_cons. destruct (String.eqb l "").
    + intros H. apply IH in H. lia.
    + destruct (is_data l).
      * intros H. apply elem_of_cons in H as [->|H]; [lia|]. apply IH in H. lia.
      * intros H. apply IH in H. lia.
Qed.

Lemma pointers_sorted lines : forall k i j p q,
  pointers k lines !! i = Some p -> pointers k lines !! j = Some q -> i <= j -> p <= q.
Proof.
  induction lines as [|l ls IH]; intros k i j p q; cbn [pointers]; [discriminate|].
  destruct (String.eqb l ""); [apply IH|].
  destruct (is_data l); [|apply IH].
  destruct i as [|i], j as [|j]; cbn.
  - intros [= <-] [= <-]. lia.
  - intros [= <-] Hj _.
    assert (Hq : q ∈ pointers k ls) by (apply list_elem_of_lookup; eauto).
    apply pointers_between in Hq. lia.
  - lia.
  - intros Hi Hj Hij. apply (IH k i j p q Hi Hj). lia.
Qed.

Lemma pointers_app l1 : forall k l2,
  pointers k (l1 ++ l2) = pointers k l1 ++ pointers (k + count_blank l1) l2.
Proof.
  induction l1 as [|l ls IH]; intros k l2; cbn [pointers app].
  - unfold count_blank. cbn. now rewrite Nat.add_0_r.
  - rewrite count_blank_cons. destruct (String.eqb l "").
    + rewrite IH. do 2 f_equal. lia.
    + destruct (is_data l); rewrite IH; reflexivity.
Qed.

Lemma pointers_no_blank lines : forall k,
  Forall (fun l => l <> "") lines -> pointers k lines = replicate (count_data lines) k.
Proof.
  induction lines as [|l ls IH]; intros k H; [reflexivity|].
  apply Forall_cons in H as [Hl Hls]. cbn [pointers]. rewrite count_data_cons.
  destruct (String.eqb_spec l "") as [->|_]; [contradiction|].
  destruct (is_data l); cbn; now rewrite IH.
Qed.

Lemma pointers_no_data lines : forall k, count_data lines = 0 -> pointers k lines = [].
Proof.
  intros k H. apply length_zero_iff_nil. now rewrite pointers_length.
Qed.

(** X3.  The result of the main variant has one entry for each line that
    the data pattern matches, in the order of the lines, and the entry of a
    data line is the address of the record under construction at that line:
    record number [j], where [j] is the number of blank lines before it.
    The addresses never decrease along the result, and two entries with the
    same address show the same sample.  (An input shorter than three bytes
    panics.) *)
Theorem result_entries_by_blank_lines rt b :
  metrology <$> parseSRT rt b
  = (if String.length b <? 3 then None
     else Some (pointers 0 (strings_Split (drop_bytes 3 b) LF)))
  /\ (forall st, parseSRT rt b = Some st ->
        length (samples st) = count_data (strings_Split (drop_bytes 3 b) LF)
        /\ length (heap st) = S (count_blank (strings_Split (drop_bytes 3 b) LF))
        /\ forall i j p q,
             metrology st !! i = Some p -> metrology st !! j = Some q -> i <= j ->
             p <= q <= count_blank (strings_Split (drop_bytes 3 b) LF)
             /\ (p = q -> samples st !! i = samples st !! j)).
Proof.
  rewrite parseSRT_unfold. destruct (String.length b <? 3); [split; [reflexivity|discriminate]|].
  set (lines := strings_Split (drop_bytes 3 b) LF).
  destruct (run_pointers rt lines 0 init_state Inv_init eq_refl) as (st' & Hr & Hm & Hd & Hh).
  rewrite Hr. cbn [fmap option_fmap option_map]. cbn [metrology init_state app data] in Hm, Hd.
  split; [now rewrite Hm|].
  intros st [= <-]. unfold samples. rewrite length_fmap, Hm, pointers_length.
  split; [reflexivity|]. split; [lia|].
  intros i j p q Hi Hj Hij. rewrite !list_lookup_fmap, Hi, Hj. cbn.
  split; [|now intros ->].
  assert (Hq : q ∈ pointers 0 lines) by (apply list_elem_of_lookup; eauto).
  apply pointers_between in Hq. split; [|lia].
  exact (pointers_sorted lines 0 i j p q Hi Hj Hij).
Qed.

Lemma result_entries_by_blank_lines_witness :
  pointers 0 (strings_Split (drop_bytes 3 C10_three_lines) LF) = [0; 0; 0]
  /\ forall rt, exists st,
       parseSRT rt C10_three_lines = Some st
       /\ metrology st = [0; 0; 0]
       /\ length (samples st) = 3
       /\ samples st !! 0 = samples st !! 2.
Proof.
  split; [vm_compute; reflexivity|]. intros rt.
  assert (Hp : exists st, parseSRT rt C10_three_lines = Some st).
  { apply not_eq_None_Some. intros H. apply parseSRT_panics_iff in H. vm_compute in H. lia. }
  destruct Hp as [st Hp].
  destruct (result_entries_by_blank_lines rt C10_three_lines) as [Hm Hall].
  rewrite Hp in Hm. cbn [fmap option_fmap option_map] in Hm.
  assert (Hm' : metrology st = [0; 0; 0]).
  { change (String.length C10_three_lines <? 3) with false in Hm.
    injection Hm as ->. vm_compute. reflexivity. }
  destruct (Hall st Hp) as (Hlen & _ & Hsame).
  exists st. split; [exact Hp|]. split; [exact Hm'|].
  split; [rewrite Hlen; vm_compute; reflexivity|].
  apply (Hsame 0 2 0 0); [now rewrite Hm'|now rewrite Hm'|lia|reflexivity].
Defined.

(** ** Files with CR LF line ends *)

Lemma classify_with_CR l :
  match classify_line (with_CR l) with
  | Blank | IndexLine _ => False
  | _ => True
  end.
Proof.
  unfold classify_line, with_CR.
  assert (Hne : String.eqb (l +:+ String CR "") "" = false) by now destruct l.
  rewrite Hne, FSS_r1, all_bytes_app. cbn [all_bytes]. 
  replace (all_bytes is_digit l && (is_digit CR && true)) with false
    by (now rewrite andb_comm).
  destruct (FindStringSubmatch r2 _) as [|? [|? [|? [|]]]]; try exact I;
    destruct (3 <=? _); exact I.
Qed.

(** A line that is neither blank nor an index line leaves the record under
    construction in place and its [ID] as it was. *)
Lemma step_keeps_ID rt c l st d :
  Inv st -> heap st !! data st = Some d ->
  match classify_line l with Blank | IndexLine _ => False | _ => True end ->
  exists st' d',
    step rt c l st = Some st' /\ Inv st' /\ data st' = data st
    /\ heap st' !! data st = Some d' /\ ID d' = ID d.
Proof.
  intros HI Hd Hk. destruct (classify_line l) as [|m1|t1 t2|caps|] eqn:Hc; try contradiction.
  - rewrite step_classify, Hc.
    set (st1 := time_field rt c t1 set_Start st).
    destruct (time_field_fields rt c t1 set_Start st) as (ta & ea & _ & Hh1 & _ & Hd1 & _).
    destruct (time_field_fields rt c t2 set_End st1) as (tb & eb & _ & Hh2 & _ & Hd2 & _).
    fold st1 in Hh1, Hd1.
    eexists _, (set_End tb (set_Start ta d)). split; [reflexivity|].
    split; [do 2 apply Inv_time_field; exact HI|].
    split; [congruence|].
    rewrite Hh2, Hh1, Hd1, !list_lookup_alter_eq, Hd. auto.
  - destruct (step_data_line rt c l caps st HI Hc)
      as (st' & d0 & b' & Hd0 & Hs & HF & Hda & _ & Hh & _).
    rewrite Hd in Hd0. injection Hd0 as <-.
    exists st', (set_Bearing b' (set_decoded_caps caps d)).
    split; [exact Hs|]. split; [exact (sf_inv _ _ HF)|]. auto.
  - rewrite step_classify, Hc. exists st, d. auto.
Qed.

Lemma run_keeps_ID rt lines : forall c st d,
  Inv st -> heap st !! data st = Some d ->
  Forall (fun l => match classify_line l with Blank | IndexLine _ => False | _ => True end)
    lines ->
  exists st' d',
    run rt c lines st = Some st' /\ Inv st' /\ data st' = data st
    /\ heap st' !! data st = Some d' /\ ID d' = ID d
    /\ metrology st' = metrology st ++ replicate (count_data lines) (data st).
Proof.
  induction lines as [|l ls IH]; intros c st d HI Hd HF; cbn [run].
  - exists st, d. cbn. rewrite app_nil_r. auto 10.
  - apply Forall_cons in HF as [Hl Hls].
    destruct (step_keeps_ID rt c l st d HI Hd Hl) as (st1 & d1 & Hs & HI1 & Hda1 & Hh1 & Hid1).
    rewrite Hs. cbn [mbind option_bind].
    assert (Hn : l <> "").
    { intros ->. assert (Hb : classify_line "" = Blank) by now apply classify_Blank.
      now rewrite Hb in Hl. }
    destruct (step_builder rt c l st HI Hn) as (st2 & _ & _ & Hs2 & _ & _ & _ & _ & _ & Hm1).
    rewrite Hs in Hs2. injection Hs2 as <-.
    rewrite <- Hda1 in Hh1.
    destruct (IH (S c) st1 d1 HI1 Hh1 Hls) as (st' & d' & Hr & HI' & Hda & Hh & Hid & Hm).
    exists st', d'. split; [exact Hr|]. split; [exact HI'|]. split; [congruence|].
    split; [now rewrite <- Hda1|]. split; [congruence|].
    rewrite Hm, Hm1, Hda1, count_data_cons, <- app_assoc.
    now destruct (is_data l).
Qed.

(** X4.  When every line of the input ends with a carriage return before
    its line feed, as in a file with CR LF line ends, no line is blank for
    the parser and no line is an index line.  The main variant then never
    replaces the record under construction and never sets an [ID]: all the
    entries of the result are one record, whose [ID] is 0, so the result
    shows the same sample as many times as there are data lines. *)
Theorem cr_lf_input_gives_one_record rt b body st :
  strings_Split (drop_bytes 3 b) LF = (with_CR <$> body) ++ [""] ->
  parseSRT rt b = Some st ->
  exists s,
    ID s = 0%Z
    /\ samples st = replicate (count_data (with_CR <$> body)) s
    /\ metrology st = replicate (count_data (with_CR <$> body)) 0.
Proof.
  intros Hsplit Hp. rewrite parseSRT_unfold in Hp.
  destruct (String.length b <? 3); [discriminate|].
  rewrite Hsplit, run_app in Hp.
  destruct (run_keeps_ID rt (with_CR <$> body) 0 init_state sample0 Inv_init eq_refl)
    as (st1 & d1 & Hr & HI1 & Hda & Hh & Hid & Hm).
  { apply Forall_fmap, Forall_forall. intros l _. apply classify_with_CR. }
  rewrite Hr in Hp. cbn [mbind option_bind run] in Hp.
  rewrite step_classify in Hp.
  assert (Hb : classify_line "" = Blank) by now apply classify_Blank.
  rewrite Hb in Hp. cbn [mbind option_bind] in Hp. injection Hp as <-.
  cbn [metrology init_state app data] in Hm, Hh, Hda.
  exists d1. split; [exact Hid|].
  unfold samples. cbn [alloc_data metrology]. rewrite Hm. split; [|reflexivity].
  rewrite fmap_replicate. f_equal. unfold deref. cbn [alloc_data heap].
  rewrite lookup_app_l by (destruct HI1 as (Hlt & _); lia).
  now rewrite Hh.
Qed.

Lemma cr_lf_input_gives_one_record_witness :
  strings_Split (drop_bytes 3 crlf_input) LF = (with_CR <$> crlf_body) ++ [""]
  /\ count_data (with_CR <$> crlf_body) = 2
  /\ forall rt, exists st s,
       parseSRT rt crlf_input = Some st
       /\ ID s = 0%Z /\ samples st = [s; s] /\ metrology st = [0; 0].
Proof.
  assert (HS : strings_Split (drop_bytes 3 crlf_input) LF = (with_CR <$> crlf_body) ++ [""])
    by (vm_compute; reflexivity).
  assert (HC : count_data (with_CR <$> crlf_body) = 2) by (vm_compute; reflexivity).
  split; [exact HS|]. split; [exact HC|]. intros rt.
  assert (Hp : exists st, parseSRT rt crlf_input = Some st).
  { apply not_eq_None_Some. intros H. apply parseSRT_panics_iff in H. vm_compute in H. lia. }
  destruct Hp as [st Hp].
  destruct (cr_lf_input_gives_one_record rt crlf_input crlf_body st HS Hp) as (s & Hid & Hs & Hm).
  exists st, s. split; [exact Hp|]. split; [exact Hid|].
  rewrite HC in Hs, Hm. split; [exact Hs|exact Hm].
Defined.

(** ** Bearings *)

Lemma stored_bearing_next rt p d :
  stored_bearing p -> stored_bearing (set_Bearing (next_bearing rt p d) d).
Proof.
  unfold stored_bearing, next_bearing, exact_0_or_180. cbn [Bearing set_Bearing].
  intros Hp.
  destruct ((BearingTo rt (point_of p) (point_of d) =? 0)%float
            || (BearingTo rt (point_of p) (point_of d) =? 180)%float) eqn:E.
  - exact Hp.
  - right. exact E.
Qed.

Lemma step_stored_bearing rt c l st st' :
  Inv st -> Forall stored_bearing (heap st) -> step rt c l st = Some st' ->
  Forall stored_bearing (heap st').
Proof.
  intros HI H. rewrite step_classify.
  destruct (classify_line l) as [|m1|t1 t2|caps|].
  - intros [= <-]. cbn. apply Forall_app. split; [assumption|].
    apply Forall_singleton. now left.
  - intros [= <-]. cbn. apply Forall_alter; [assumption|]. intros s _ Hs. exact Hs.
  - intros [= <-].
    destruct (time_field_fields rt c t1 set_Start st) as (ta & ea & _ & Hh1 & _).
    destruct (time_field_fields rt c t2 set_End (time_field rt c t1 set_Start st))
      as (tb & eb & _ & Hh2 & _).
    rewrite Hh2, Hh1.
    apply Forall_alter; [apply Forall_alter; [assumption|]|]; intros s _ Hs; exact Hs.
  - intros He.
    assert (H1 : Forall stored_bearing (heap (store (set_decoded_caps caps) st))).
    { cbn. apply Forall_alter; [assumption|]. intros s _ Hs. exact Hs. }
    destruct (emit_spec rt (store (set_decoded_caps caps) st)) as (heap' & He' & Hle & Hgt);
      [now apply Inv_store|].
    rewrite He' in He. injection He as <-. cbn [heap].
    destruct (Z.le_gt_cases (dataLen (store (set_decoded_caps caps) st)) 1) as [Hc1|Hc1].
    + now rewrite (Hle Hc1).
    + destruct (Hgt Hc1) as (prev & p & d & _ & Hp & Hd & ->).
      pose proof (Forall_lookup_1 _ _ _ _ H1 Hp) as HPp.
      apply Forall_lookup. intros i x Hx.
      destruct (Nat.eq_dec i (data (store (set_decoded_caps caps) st))) as [->|Hne].
      * rewrite list_lookup_alter_eq, Hd in Hx. cbn in Hx. injection Hx as <-.
        now apply stored_bearing_next.
      * rewrite list_lookup_alter_ne in Hx by congruence.
        exact (Forall_lookup_1 _ _ _ _ H1 Hx).
  - now intros [= <-].
Qed.

Lemma run_stored_bearing rt lines : forall c st st',
  Inv st -> Forall stored_bearing (heap st) -> run rt c lines st = Some st' ->
  Forall stored_bearing (heap st').
Proof.
  induction lines as [|l ls IH]; intros c st st' HI H; cbn.
  - now intros [= <-].
  - destruct (step_total rt c l st HI) as (st1 & Hs & F1). rewrite Hs. cbn.
    apply IH; [exact (sf_inv _ _ F1)|]. eapply step_stored_bearing; eauto.
Qed.

(** X5.  No sample of the result has a bearing that compares equal to 180,
    and none has one that compares equal to 0 other than the zero a new
    record starts with: a computed bearing of 0 or 180 (due north, due
    south, or no movement) is never stored, the bearing of the entry before
    is stored in its place. *)
Theorem no_sample_bears_due_south rt b st s :
  parseSRT rt b = Some st -> s ∈ samples st ->
  (Bearing s = zero \/ exact_0_or_180 (Bearing s) = false)
  /\ (Bearing s =? 180)%float = false.
Proof.
  intros Hp Hs. pose proof (parseSRT_Inv _ _ _ Hp) as HI.
  apply list_elem_of_lookup in Hs as [n Hn].
  destruct (samples_lookup st n s HI Hn) as (p & _ & Hps).
  rewrite parseSRT_unfold in Hp. destruct (String.length b <? 3); [discriminate|].
  eapply run_stored_bearing in Hp; [|exact Inv_init|repeat constructor; now left].
  pose proof (Forall_lookup_1 _ _ _ _ Hp Hps) as HP. split; [exact HP|].
  destruct HP as [->|HP]; [reflexivity|].
  unfold exact_0_or_180 in HP. now apply orb_false_iff in HP.
Qed.

Lemma no_sample_bears_due_south_witness :
  3 <= String.length sample_block_input
  /\ forall rt, exists st s,
       parseSRT rt sample_block_input = Some st /\ samples st = [s]
       /\ (Bearing s =? 180)%float = false.
Proof.
  split; [vm_compute; lia|]. intros rt.
  assert (H : exists st s, parseSRT rt sample_block_input = Some st /\ samples st = [s]).
  { eexists _, _. split; vm_compute; reflexivity. }
  destruct H as (st & s & Hp & Hs). exists st, s. split; [exact Hp|]. split; [exact Hs|].
  apply (no_sample_bears_due_south rt sample_block_input st s Hp).
  rewrite Hs. apply list_elem_of_here.
Defined.

(** X6.  When the difference of the two longitudes is not a number, which
    is so when one of them is NaN or both are the same infinity, the bearing
    is NaN; it compares equal neither to 0 nor to 180, so [parseSRT] stores
    it as it is. *)
Theorem BearingTo_of_an_undefined_longitude_difference rt p1 p2 :
  (lng p2 - lng p1)%float = nan ->
  BearingTo rt p1 p2 = nan /\ exact_0_or_180 (BearingTo rt p1 p2) = false.
Proof.
  intros H.
  assert (E : BearingTo rt p1 p2 = nan).
  { unfold BearingTo. cbv zeta. rewrite H, mul_nan_l, div_nan_l, math_Sin_NaN, mul_nan_l,
      math_Atan2_NaN, mul_nan_l, div_nan_l. reflexivity. }
  rewrite E. split; reflexivity.
Qed.

Lemma BearingTo_of_an_undefined_longitude_difference_witness :
  (infinity - infinity)%float = nan
  /\ forall rt lat1 lat2,
       BearingTo rt (mkPoint lat1 infinity) (mkPoint lat2 infinity) = nan.
Proof.
  split; [reflexivity|]. intros rt lat1 lat2.
  exact (proj1 (BearingTo_of_an_undefined_longitude_difference rt
                  (mkPoint lat1 infinity) (mkPoint lat2 infinity) eq_refl)).
Defined.

(** ** Times of day *)

Local Open Scope Z_scope.

Lemma wrap64_small z : - 2 ^ 63 <= z < 2 ^ 63 -> wrap64 z = z.
Proof.
  intros H. unfold wrap64.
  assert (E : 2 ^ 64 = 2 ^ 63 + 2 ^ 63) by reflexivity.
  rewrite Z.mod_small; [ring|]. rewrite E. split; [|]; lia.
Qed.

Lemma makeTime_in_range h m s ms :
  0 <= h < 24 -> 0 <= m < 60 -> 0 <= s < 60 -> 0 <= ms < 1000 ->
  unix_year1_ns (makeTime h m s ms)
  = (-366 * 86400 + (h * 3600 + m * 60 + s)) * 1000000000 + ms * 1000000.
Proof.
  intros Hh Hm Hs Hms. unfold makeTime.
  assert (B : 2 ^ 63 = 9223372036854775808) by reflexivity.
  rewrite (wrap64_small (ms * 1000)) by (rewrite B; lia).
  rewrite (wrap64_small (ms * 1000 * 1000)) by (rewrite B; lia).
  unfold time_Date. cbn [unix_year1_ns].
  change (days_before_year (0 + (1 - 1) / 12)
          + days_before_month (0 + (1 - 1) / 12) ((1 - 1) mod 12 + 1) + (1 - 1)) with (-366).
  ring.
Qed.

Lemma makeTime_clock h m s ms :
  0 <= h < 24 -> 0 <= m < 60 -> 0 <= s < 60 -> 0 <= ms < 1000 ->
  Clock (makeTime h m s ms) = (h, m, s)
  /\ Nanosecond (makeTime h m s ms) = ms * 1000000
  /\ day_number (makeTime h m s ms) = day_number (makeTime 0 0 0 0).
Proof.
  intros Hh Hm Hs Hms. unfold Clock, Nanosecond, day_number.
  rewrite (makeTime_in_range h m s ms), (makeTime_in_range 0 0 0 0) by lia.
  set (sod := h * 3600 + m * 60 + s).
  assert (Hsod : 0 <= sod < 86400) by (unfold sod; lia).
  assert (Hq : ((-366 * 86400 + sod) * 1000000000 + ms * 1000000) / 1000000000
               = -366 * 86400 + sod).
  { symmetry. apply (Z.div_unique _ _ _ (ms * 1000000)); lia. }
  assert (Hr : (-366 * 86400 + sod) mod 86400 = sod).
  { symmetry. apply (Z.mod_unique _ _ (-366)); lia. }
  rewrite Hq, Hr. split; [|split].
  - assert (H1 : sod / 3600 = h)
      by (symmetry; apply (Z.div_unique _ _ _ (m * 60 + s)); unfold sod; lia).
    assert (H2 : sod mod 3600 = m * 60 + s)
      by (symmetry; apply (Z.mod_unique _ _ h); unfold sod; lia).
    assert (H3 : (m * 60 + s) / 60 = m)
      by (symmetry; apply (Z.div_unique _ _ _ s); lia).
    assert (H4 : sod mod 60 = s)
      by (symmetry; apply (Z.mod_unique _ _ (h * 60 + m)); unfold sod; lia).
    now rewrite H1, H2, H3, H4.
  - symmetry. apply (Z.mod_unique _ _ (-366 * 86400 + sod)); lia.
  - assert (D1 : ((-366 * 86400 + sod) * 1000000000 + ms * 1000000) / (86400 * 1000000000)
                 = -366).
    { symmetry. apply (Z.div_unique _ _ _ (sod * 1000000000 + ms * 1000000)); lia. }
    rewrite D1. reflexivity.
Qed.

Lemma decimal_nonneg d : all_bytes is_digit d = true -> 0 <= decimal d.
Proof. intros H. unfold decimal. apply (decimal_from_mono d 0 H). lia. Qed.

(** X7.  A time token written as four runs of digits, hours [:] minutes [:]
    seconds [,] milliseconds, with hours below 24, minutes and seconds below
    60 and milliseconds below 1000, parses without an error and without a
    call of [time.Now()], to the time of day with these hours, minutes and
    seconds, on the same day as the time 00:00:00,000.  The last group is a
    count of milliseconds whatever its number of digits: its value times
    1000000 is the nanosecond of the result. *)
Theorem parseSrtTime_time_of_day rt n h m s ms :
  digits1 h -> digits1 m -> digits1 s -> digits1 ms ->
  decimal h < 24 -> decimal m < 60 -> decimal s < 60 -> decimal ms < 1000 ->
  exists t,
    parseSrtTime rt n (srt_time h m s ms) = (t, None, n)
    /\ Clock t = (decimal h, decimal m, decimal s)
    /\ Nanosecond t = decimal ms * 1000000
    /\ day_number t = day_number (makeTime 0 0 0 0).
Proof.
  intros Dh Dm Ds Dms Bh Bm Bs Bms.
  pose proof (decimal_nonneg h (proj2 Dh)). pose proof (decimal_nonneg m (proj2 Dm)).
  pose proof (decimal_nonneg s (proj2 Ds)). pose proof (decimal_nonneg ms (proj2 Dms)).
  assert (B : maxInt64 = 9223372036854775807) by reflexivity.
  exists (makeTime (decimal h) (decimal m) (decimal s) (decimal ms)).
  split.
  - apply parseSrtTime_srt_time; auto; unfold fits_int; apply Z.leb_le; rewrite B; lia.
  - apply makeTime_clock; lia.
Qed.

Lemma parseSrtTime_time_of_day_witness :
  digits1 "01" /\ digits1 "02" /\ digits1 "03" /\ digits1 "5"
  /\ srt_time "01" "02" "03" "5" = "01:02:03,5"%string
  /\ forall rt n, exists t,
       parseSrtTime rt n "01:02:03,5" = (t, None, n)
       /\ Clock t = (1, 2, 3) /\ Nanosecond t = 5000000.
Proof.
  assert (D1 : digits1 "01") by (split; [discriminate|reflexivity]).
  assert (D2 : digits1 "02") by (split; [discriminate|reflexivity]).
  assert (D3 : digits1 "03") by (split; [discriminate|reflexivity]).
  assert (D4 : digits1 "5") by (split; [discriminate|reflexivity]).
  split; [exact D1|]. split; [exact D2|]. split; [exact D3|]. split; [exact D4|].
  split; [reflexivity|]. intros rt n.
  destruct (parseSrtTime_time_of_day rt n "01" "02" "03" "5" D1 D2 D3 D4
              eq_refl eq_refl eq_refl eq_refl)
    as (t & Hp & Hc & Hn & _).
  exists t. split; [exact Hp|]. split; [exact Hc|exact Hn].
Defined.

Local Open Scope nat_scope.

(** ** Which lines are time-range lines, which are index lines *)

Lemma matches_star_inv c i w rest cs :
  matches (RStar c) i w rest cs -> cs = [] /\ all_bytes (cset_mem c) w = true.
Proof. intros H. inversion H; subst. auto. Qed.

Lemma matches_grp_star_inv c r i w rest cs :
  matches (grp_star c r) i w rest cs ->
  exists d w' cs',
    w = d +:+ w' /\ cs = d :: cs' /\ all_bytes (cset_mem c) d = true
    /\ matches r (i + String.length d) w' rest cs'.
Proof.
  intros H. apply matches_cat_inv in H as (w1 & w2 & cs1 & cs2 & -> & -> & H1 & H2).
  apply matches_group_inv in H1 as (cs' & -> & H1).
  apply matches_cat_inv in H1 as (w3 & w4 & cs3 & cs4 & -> & -> & H3 & H4).
  apply matches_eps_inv in H4 as [-> ->].
  apply matches_star_inv in H3 as (-> & Ha).
  rewrite str_app_nil_r in *. exists w3, w2, cs2. auto.
Qed.

Lemma arrow_not_digits pre post :
  all_bytes is_digit (pre +:+ arrow +:+ post) = false.
Proof. rewrite !all_bytes_app. cbn. now rewrite andb_false_r. Qed.

Lemma app_prefix_split u : forall v d z,
  u +:+ v = d +:+ z -> String.length u <= String.length d ->
  exists e, d = u +:+ e /\ v = e +:+ z.
Proof.
  induction u as [|x u IH]; intros v d z H Hl; simpl in *.
  - exists d. auto.
  - destruct d as [|y d]; simpl in *; [lia|]. injection H as -> H.
    destruct (IH v d z H) as (e & -> & ->); [lia|]. exists e. auto.
Qed.

Lemma ends_outside_app c p : forall q,
  q <> "" -> ends_outside c (p +:+ q) -> ends_outside c q.
Proof.
  induction p as [|x p IH]; intros q Hq H; [exact H|].
  apply IH; [exact Hq|]. cbn [String.append ends_outside] in H.
  destruct (p +:+ q) eqn:E; [|exact H].
  destruct p; simpl in E; [congruence|discriminate].
Qed.

Lemma ends_outside_all c q :
  q <> "" -> ends_outside c q -> all_bytes (cset_mem c) q = true -> False.
Proof.
  induction q as [|x q IH]; intros Hq H Ha; [congruence|].
  simpl in Ha. apply andb_true_iff in Ha as [Hx Ha].
  destruct q as [|y q]; simpl in H; [congruence|].
  apply IH; [discriminate|exact H|exact Ha].
Qed.

Lemma matches_r2_inv i w rest cs :
  matches r2 i w rest cs ->
  exists d1 d2,
    w = d1 +:+ arrow +:+ d2 /\ cs = [d1; d2]
    /\ all_bytes (cset_mem cls_time) d1 = true /\ all_bytes (cset_mem cls_time) d2 = true.
Proof.
  rewrite r2_eq. intros Hm.
  apply matches_grp_star_inv in Hm as (d1 & w1 & cs1 & -> & -> & Ha1 & Hm).
  apply matches_lits_inv in Hm as (w2 & -> & Hm).
  apply matches_grp_star_inv in Hm as (d2 & w3 & cs3 & -> & -> & Ha2 & Hm).
  apply matches_eps_inv in Hm as [-> ->].
  exists d1, d2. rewrite str_app_nil_r. auto.
Qed.

(** No match of [r2] starts before the longest run of time bytes that ends
    at the first [ --> ]. *)
Lemma exec_r2_too_early p q t1 rest0 :
  q <> "" -> ends_outside cls_time (p +:+ q) ->
  (forall a b, (p +:+ q) +:+ t1 +:+ arrow +:+ rest0 = a +:+ arrow +:+ b ->
               String.length ((p +:+ q) +:+ t1) <= String.length a) ->
  exec r2 (String.length p) (q +:+ t1 +:+ arrow +:+ rest0) []
    (accept (String.length p) (q +:+ t1 +:+ arrow +:+ rest0)) = None.
Proof.
  intros Hq Hout Hfirst.
  destruct (exec r2 _ _ _ _) as [m|] eqn:E; [exfalso|reflexivity].
  apply accept_sound in E as (w & rest & cs & Hs & Hm & _).
  apply matches_r2_inv in Hm as (d1 & d2 & -> & _ & Hd1 & _).
  assert (Hl : String.length ((p +:+ q) +:+ t1) <= String.length (p +:+ d1)).
  { apply (Hfirst (p +:+ d1) (d2 +:+ rest)).
    rewrite !str_app_assoc. f_equal. rewrite Hs. now rewrite !str_app_assoc. }
  rewrite !str_length_app in Hl.
  destruct (app_prefix_split (q +:+ t1) (arrow +:+ rest0) d1 (arrow +:+ d2 +:+ rest))
    as (e & -> & _).
  { rewrite <- !str_app_assoc in *. rewrite !str_app_assoc in Hs. rewrite !str_app_assoc.
    exact Hs. }
  { rewrite str_length_app. lia. }
  rewrite !all_bytes_app in Hd1. apply andb_true_iff in Hd1 as [Hd1 _].
  apply andb_true_iff in Hd1 as [Hd1 _].
  exact (ends_outside_all _ _ Hq (ends_outside_app _ _ _ Hq Hout) Hd1).
Qed.

Lemma search_skip r p : forall i q,
  (forall p1 p2, p = p1 +:+ p2 -> p2 <> "" ->
     exec r (i + String.length p1) (p2 +:+ q) []
       (accept (i + String.length p1) (p2 +:+ q)) = None) ->
  search r i (p +:+ q) = search r (i + String.length p) q.
Proof.
  induction p as [|x p IH]; intros i q H.
  - simpl. now rewrite Nat.add_0_r.
  - rewrite search_unfold.
    pose proof (H "" (String x p) eq_refl ltac:(discriminate)) as H0.
    simpl in H0. rewrite Nat.add_0_r in H0. cbn [String.append]. rewrite H0.
    rewrite IH.
    + f_equal. simpl. lia.
    + intros p1 p2 -> Hp2.
      specialize (H (String x p1) p2 eq_refl Hp2). simpl in H.
      now replace (S i + String.length p1) with (i + S (String.length p1)) by lia.
Qed.

Lemma exec_r2_at i t1 t2 post :
  all_bytes (cset_mem cls_time) t1 = true -> all_bytes (cset_mem cls_time) t2 = true ->
  stops cls_time post ->
  exists whole,
    exec r2 i (t1 +:+ arrow +:+ t2 +:+ post) [] (accept i (t1 +:+ arrow +:+ t2 +:+ post))
    = Some [whole; t1; t2].
Proof.
  intros H1 H2 Hp. eexists. rewrite r2_eq.
  apply exec_grp_star; [assumption|reflexivity|].
  unfold arrow. lits_step.
  apply exec_grp_star; [assumption|assumption|].
  reflexivity.
Qed.

(** The first [ --> ] of a line that has one. *)
Lemma first_arrow l :
  (exists a b, l = a +:+ arrow +:+ b) ->
  exists a b, l = a +:+ arrow +:+ b
              /\ forall a' b', l = a' +:+ arrow +:+ b' -> String.length a <= String.length a'.
Proof.
  induction l as [|x l IH]; intros (a & b & H).
  - destruct a; discriminate.
  - destruct (String.prefix arrow (String x l)) eqn:E.
    + apply prefix_correct in E. exists "", (drop_bytes 5 (String x l)).
      split; [|intros; simpl; lia]. cbn [String.append].
      transitivity (substring 0 5 (String x l) +:+ drop_bytes 5 (String x l));
        [symmetry; apply take_drop_bytes|f_equal; exact E].
    + assert (Hne : forall a' b', String x l = a' +:+ arrow +:+ b' ->
                exists a'', a' = String x a'' /\ l = a'' +:+ arrow +:+ b').
      { intros [|y a'] b' H'.
        - exfalso. cbn [String.append] in H'. rewrite H' in E.
          assert (String.prefix arrow (arrow +:+ b') = true)
            by (apply prefix_correct; apply substring_prefix).
          congruence.
        - simpl in H'. injection H' as -> ->. eauto. }
      destruct (Hne a b H) as (a0 & -> & Hl).
      destruct (IH (ex_intro _ a0 (ex_intro _ b Hl))) as (a1 & b1 & -> & Hmin).
      exists (String x a1), b1. split; [reflexivity|].
      intros a' b' H'. destruct (Hne a' b' H') as (a'' & -> & H'').
      simpl. apply le_n_S. now apply (Hmin a'' b').
Qed.

Lemma split_trailing c a :
  exists pre t, a = pre +:+ t /\ all_bytes (cset_mem c) t = true /\ ends_outside c pre.
Proof.
  induction a as [|x a (pre & t & -> & Ht & Hpre)].
  - exists "", "". repeat split.
  - destruct pre as [|y pre].
    + destruct (cset_mem c x) eqn:Hx.
      * exists "", (String x t). simpl. rewrite Hx. repeat split. exact Ht.
      * exists (String x ""), t. repeat split; assumption.
    + exists (String x (String y pre)), t. repeat split; assumption.
Qed.

Lemma split_leading c b :
  exists t post, b = t +:+ post /\ all_bytes (cset_mem c) t = true /\ stops c post.
Proof.
  induction b as [|x b (t & post & -> & Ht & Hpost)].
  - exists "", "". repeat split.
  - destruct (cset_mem c x) eqn:Hx.
    + exists (String x t), post. simpl. rewrite Hx. repeat split; assumption.
    + exists "", (String x (t +:+ post)). repeat split. exact Hx.
Qed.

(** The tokens of a line whose first [ --> ] stands between the longest
    runs [t1] and [t2] of time bytes. *)
Lemma classify_first_arrow pre t1 t2 post :
  all_bytes (cset_mem cls_time) t1 = true -> ends_outside cls_time pre ->
  all_bytes (cset_mem cls_time) t2 = true -> stops cls_time post ->
  (forall a b, pre +:+ t1 +:+ arrow +:+ t2 +:+ post = a +:+ arrow +:+ b ->
               String.length (pre +:+ t1) <= String.length a) ->
  classify_line (pre +:+ t1 +:+ arrow +:+ t2 +:+ post) = TimeRange t1 t2.
Proof.
  intros H1 Hpre H2 Hpost Hfirst. unfold classify_line.
  assert (Hne : String.eqb (pre +:+ t1 +:+ arrow +:+ t2 +:+ post) "" = false).
  { apply (has_byte_nonempty ">"). rewrite !has_byte_app. cbn. now rewrite !orb_true_r. }
  rewrite Hne, FSS_r1.
  replace (pre +:+ t1 +:+ arrow +:+ t2 +:+ post)
    with ((pre +:+ t1) +:+ arrow +:+ (t2 +:+ post)) at 1 by now rewrite !str_app_assoc.
  rewrite arrow_not_digits.
  destruct (exec_r2_at (String.length pre) t1 t2 post H1 H2 Hpost) as [whole He].
  assert (Hs : search r2 0 (pre +:+ t1 +:+ arrow +:+ t2 +:+ post) = Some [whole; t1; t2]).
  { rewrite search_skip.
    - rewrite search_unfold. simpl Nat.add. now rewrite He.
    - intros p q -> Hq. simpl Nat.add.
      apply exec_r2_too_early; [exact Hq|exact Hpre|].
      intros a b Hab. apply (Hfirst a b). rewrite <- Hab. now rewrite !str_app_assoc. }
  unfold FindStringSubmatch. now rewrite Hs.
Qed.

(** X8.  A line is taken as a time-range line exactly when it contains the
    text [ --> ], blank, two hyphens, greater-than, blank.  The two tokens
    handed to [parseSrtTime] are fixed by the first place where that text
    stands in the line: the first token is the longest run of digits, [:],
    [.] and [,] that ends directly before it, the second the longest such
    run that starts directly after it; either may be empty.  Everything
    else of the line is ignored: the line changes the state as the line
    made of the first token, [ --> ] and the second token does, in both
    variants of the parser. *)
Theorem time_range_line_iff_arrow l :
  ((exists t1 t2, classify_line l = TimeRange t1 t2)
   <-> (exists pre post, l = pre +:+ arrow +:+ post))
  /\ (forall t1 t2,
        classify_line l = TimeRange t1 t2
        <-> exists pre post,
              l = pre +:+ t1 +:+ arrow +:+ t2 +:+ post
              /\ all_bytes (cset_mem cls_time) t1 = true /\ ends_outside cls_time pre
              /\ all_bytes (cset_mem cls_time) t2 = true /\ stops cls_time post
              /\ forall a b, l = a +:+ arrow +:+ b ->
                             String.length (pre +:+ t1) <= String.length a)
  /\ (forall t1 t2,
        classify_line l = TimeRange t1 t2 ->
        forall rt c,
          (forall st, step rt c l st = step rt c (t1 +:+ arrow +:+ t2) st)
          /\ (forall st, Legacy.step rt c l st
                         = Legacy.step rt c (t1 +:+ arrow +:+ t2) st)).
Proof.
  assert (Hcontains : forall t1 t2, classify_line l = TimeRange t1 t2 ->
            all_bytes (cset_mem cls_time) t1 = true
            /\ all_bytes (cset_mem cls_time) t2 = true
            /\ exists pre post, l = pre +:+ arrow +:+ post).
  { intros t1 t2. unfold classify_line.
    destruct (String.eqb l ""); [discriminate|].
    destruct (r1_shape l) as [->|(w & m1 & ->)]; [|discriminate].
    destruct (FindStringSubmatch r2 l) as [|w0 [|a [|b [|]]]] eqn:E;
      try (destruct (3 <=? _); discriminate).
    intros [= <- <-].
    destruct (FSS_matched r2 l _ E) as (pre & w & rest & cs & -> & Hm & Hcs); [discriminate|].
    apply matches_r2_inv in Hm as (d1 & d2 & -> & -> & Ha1 & Ha2).
    injection Hcs as _ -> ->. split; [exact Ha1|]. split; [exact Ha2|].
    exists (pre +:+ d1), (d2 +:+ rest). now rewrite !str_app_assoc. }
  assert (Hcanon : (exists pre post, l = pre +:+ arrow +:+ post) ->
            exists pre t1 t2 post,
              l = pre +:+ t1 +:+ arrow +:+ t2 +:+ post
              /\ all_bytes (cset_mem cls_time) t1 = true /\ ends_outside cls_time pre
              /\ all_bytes (cset_mem cls_time) t2 = true /\ stops cls_time post
              /\ forall a b, l = a +:+ arrow +:+ b ->
                             String.length (pre +:+ t1) <= String.length a).
  { intros H. destruct (first_arrow l H) as (a & b & -> & Hmin).
    destruct (split_trailing cls_time a) as (pre & t1 & -> & Ht1 & Hpre).
    destruct (split_leading cls_time b) as (t2 & post & -> & Ht2 & Hpost).
    exists pre, t1, t2, post. rewrite !str_app_assoc in *. auto 10. }
  assert (Hiff : forall t1 t2,
            classify_line l = TimeRange t1 t2
            <-> exists pre post,
                  l = pre +:+ t1 +:+ arrow +:+ t2 +:+ post
                  /\ all_bytes (cset_mem cls_time) t1 = true /\ ends_outside cls_time pre
                  /\ all_bytes (cset_mem cls_time) t2 = true /\ stops cls_time post
                  /\ forall a b, l = a +:+ arrow +:+ b ->
                                 String.length (pre +:+ t1) <= String.length a).
  { intros t1 t2. split.
    - intros H. destruct (Hcontains t1 t2 H) as (_ & _ & Harrow).
      destruct (Hcanon Harrow) as (pre & t1' & t2' & post & Hl & H1 & Hpre & H2 & Hpost & Hmin).
      pose proof (classify_first_arrow pre t1' t2' post H1 Hpre H2 Hpost) as Hc.
      rewrite <- Hl in Hc. rewrite Hc in H by exact Hmin. injection H as <- <-.
      exists pre, post. auto 10.
    - intros (pre & post & Hl & H1 & Hpre & H2 & Hpost & Hmin).
      rewrite Hl in Hmin |- *. now apply classify_first_arrow. }
  split; [|split; [exact Hiff|]].
  - split.
    + intros (t1 & t2 & H). now destruct (Hcontains t1 t2 H) as (_ & _ & Harrow).
    + intros H. destruct (Hcanon H) as (pre & t1 & t2 & post & Hl & Hrest).
      exists t1, t2. apply Hiff. exists pre, post. auto.
  - intros t1 t2 H rt c.
    destruct (Hcontains t1 t2 H) as (H1 & H2 & _).
    pose proof (classify_time_range t1 t2 H1 H2) as Hc. unfold time_range_text in Hc.
    fold arrow in Hc.
    split; intros st.
    + now rewrite !step_classify, H, Hc.
    + now rewrite !legacy_step_classify, H, Hc.
Qed.

Lemma time_range_line_iff_arrow_witness :
  classify_line "x12 --> 34,5y --> 6" = TimeRange "12" "34,5"
  /\ (forall rt c st,
        step rt c "x12 --> 34,5y --> 6" st = step rt c "12 --> 34,5" st)
  /\ ~ classify_line "12 --> 34" = TimeRange "2" "3".
Proof.
  assert (H : classify_line "x12 --> 34,5y --> 6" = TimeRange "12" "34,5").
  { apply (proj2 (proj1 (proj2 (time_range_line_iff_arrow "x12 --> 34,5y --> 6"))
                    "12" "34,5")).
    exists "x", "y --> 6". split; [reflexivity|]. split; [reflexivity|].
    split; [reflexivity|]. split; [reflexivity|]. split; [reflexivity|].
    intros a b Hab.
    do 3 (destruct a as [|? a]; [discriminate|]; injection Hab as _ Hab).
    simpl. lia. }
  split; [exact H|]. split.
  - intros rt c st.
    exact (proj1 (proj2 (proj2 (time_range_line_iff_arrow "x12 --> 34,5y --> 6"))
                    "12" "34,5" H rt c) st).
  - intros Hc.
    apply (proj1 (proj1 (proj2 (time_range_line_iff_arrow "12 --> 34")) "2" "3")) in Hc
      as (pre & post & Hl & _ & Hpre & _ & _ & Hmin).
    specialize (Hmin "12" "34" eq_refl). rewrite str_length_app in Hmin.
    destruct pre as [|x [|y pre]]; [discriminate| |simpl in Hmin; lia].
    injection Hl as <- _. discriminate Hpre.
Defined.

(** X9.  A line is an index line exactly when it is a non-empty run of
    digits.  Such a line stores its number as the [ID] of the record under
    construction, leading zeros ignored, and the largest [int] when the
    number does not fit one; nothing else of the state changes. *)
Theorem index_line_sets_the_ID l :
  (forall m, classify_line l = IndexLine m <-> digits1 l /\ m = l)
  /\ (digits1 l -> forall rt c st,
        step rt c l st = Some (store (set_ID (Z.min (decimal l) maxInt64)) st)).
Proof.
  assert (Hc : forall m, classify_line l = IndexLine m <-> digits1 l /\ m = l).
  { intros m. split.
    - unfold classify_line. destruct (String.eqb_spec l "") as [->|Hn]; [discriminate|].
      rewrite FSS_r1. destruct (all_bytes is_digit l) eqn:Hd.
      + intros [= <-]. split; [split; assumption|reflexivity].
      + destruct (FindStringSubmatch r2 l) as [|? [|? [|? [|]]]];
          try discriminate; destruct (3 <=? _); discriminate.
    - intros [Hd ->]. now apply classify_index. }
  split; [exact Hc|]. intros Hd rt c st.
  rewrite step_classify, (classify_index l Hd), (Atoi_digits l Hd).
  do 3 f_equal. destruct (Z.leb_spec (decimal l) maxInt64); cbn [fst]; lia.
Qed.

Lemma index_line_sets_the_ID_witness :
  digits1 "0044" /\ digits1 "99999999999999999999"
  /\ forall rt c st,
       step rt c "0044" st = Some (store (set_ID 44) st)
       /\ step rt c "99999999999999999999" st = Some (store (set_ID 9223372036854775807) st).
Proof.
  assert (D1 : digits1 "0044") by (split; [discriminate|reflexivity]).
  assert (D2 : digits1 "99999999999999999999") by (split; [discriminate|reflexivity]).
  split; [exact D1|]. split; [exact D2|]. intros rt c st. split.
  - exact (proj2 (index_line_sets_the_ID "0044") D1 rt c st).
  - exact (proj2 (index_line_sets_the_ID "99999999999999999999") D2 rt c st).
Defined.

(** ** The two [main] functions *)

(** X10.  [main] prints the error of [ioutil.ReadFile], if there is one,
    and goes on to parse whatever bytes were returned.  With fewer than
    three bytes, as after a file that could not be opened, the program
    panics in [parseSRT] having printed nothing but that error.  With three
    bytes or more it returns, after the messages of the parse and one
    export: the JSON export when the flag [-format] is exactly [json], the
    Fusion export for every other value. *)
Theorem main_after_a_failed_read rt inv data err :
  ioutil_ReadFile inv (srtFile inv) = (data, err) ->
  let out := match err with Some e => [Println_err e] | None => [] end in
  (String.length data < 3 -> main rt inv = (out, Panicked))
  /\ (3 <= String.length data ->
      exists st,
        parseSRT rt data = Some st
        /\ main rt inv
           = (out ++ (Printf_parse <$> stdout st)
                  ++ [if String.eqb (format inv) "json"
                      then Println_MarshalIndent (samples st)
                      else Execute_settings (samples st)],
              Returned)).
Proof.
  intros Hr out. unfold main. rewrite Hr. fold out. split.
  - intros Hlt. apply (proj2 (parseSRT_panics_iff rt data)) in Hlt. now rewrite Hlt.
  - intros Hge. destruct (parseSRT rt data) as [st|] eqn:Hp.
    + exists st. split; [reflexivity|]. now destruct (String.eqb (format inv) "json").
    + apply (proj1 (parseSRT_panics_iff rt data)) in Hp. lia.
Qed.

Lemma main_after_a_failed_read_witness :
  ioutil_ReadFile no_file (srtFile no_file)
  = ("", Some "open sample.srt: no such file or directory")
  /\ forall rt,
       main rt no_file
       = ([Println_err "open sample.srt: no such file or directory"], Panicked).
Proof.
  split; [reflexivity|]. intros rt.
  apply (proj1 (main_after_a_failed_read rt no_file "" _ eq_refl)). cbn. lia.
Defined.

(** X11.  [main] of the earlier variant reads [sample.srt], prints the
    error of the read if there is one, and parses the bytes returned all
    the same: with fewer than three bytes it panics having printed nothing
    but that error, otherwise it prints the messages of the parse and then
    the result. *)
Theorem legacy_main_after_a_failed_read rt ReadFile data err :
  ReadFile "sample.srt" = (data, err) ->
  let out := match err with Some e => [Println_err e] | None => [] end in
  (String.length data < 3 -> legacy_main rt ReadFile = (out, Panicked))
  /\ (3 <= String.length data ->
      exists st,
        Legacy.parseSRT rt data = Some st
        /\ legacy_main rt ReadFile
           = (out ++ (Printf_parse <$> Legacy.stdout st)
                  ++ [Println_Metrology (Legacy.metrology st)],
              Returned)).
Proof.
  intros Hr out. unfold legacy_main. rewrite Hr. fold out. split.
  - intros Hlt. apply (proj2 (legacy_parseSRT_panics_iff rt data)) in Hlt. now rewrite Hlt.
  - intros Hge. destruct (Legacy.parseSRT rt data) as [st|] eqn:Hp.
    + exists st. split; reflexivity.
    + apply (proj1 (legacy_parseSRT_panics_iff rt data)) in Hp. lia.
Qed.

Lemma legacy_main_after_a_failed_read_witness :
  ioutil_ReadFile no_file "sample.srt"
  = ("", Some "open sample.srt: no such file or directory")
  /\ forall rt,
       legacy_main rt (ioutil_ReadFile no_file)
       = ([Println_err "open sample.srt: no such file or directory"], Panicked).
Proof.
  split; [reflexivity|]. intros rt.
  apply (proj1 (legacy_main_after_a_failed_read rt (ioutil_ReadFile no_file) "" _ eq_refl)).
  cbn. lia.
Defined.

(** ** A file of well-formed blocks *)

Lemma alter_snoc {A} (f : A -> A) (l : list A) x :
  alter f (length l) (l ++ [x]) = l ++ [f x].
Proof. induction l as [|y l IH]; cbn; [reflexivity|]. now rewrite IH. Qed.

Lemma lookup_snoc {A} (l : list A) x : (l ++ [x]) !! length l = Some x.
Proof. induction l as [|y l IH]; cbn; [reflexivity|exact IH]. Qed.

Lemma last_seq n : last (seq 0 (S n)) = Some n.
Proof. rewrite seq_S. cbn. apply last_snoc. Qed.

Lemma Inv_between out clk : Inv (between_blocks out clk).
Proof.
  unfold Inv, between_blocks. cbn. rewrite length_app, length_seq. cbn.
  split; [lia|]. split; [reflexivity|].
  apply Forall_forall. intros p Hp. apply list_elem_of_In, in_seq in Hp. lia.
Qed.

Lemma block_lines_no_lf b :
  well_formed b = true -> Forall (fun l => has_byte LF l = false) (block_lines b ++ [""]).
Proof.
  intros Hwf. unfold well_formed in Hwf. rewrite !andb_true_iff in Hwf.
  destruct Hwf as ((((((((((((((((((((Hi & Hh1) & Hm1) & Hs1) & Hms1) & Hh2) & Hm2) & Hs2) & Hms2)
    & Hf) & Hss) & Hiso) & Hev) & Hzoom) & Hg1) & Hg2) & Hg3) & Hd) & Ha) & Hhs) & Hvs).
  apply int_digits_spec in Hi as [Di Fi], Hh1 as [Dh1 Fh1], Hm1 as [Dm1 Fm1],
    Hs1 as [Ds1 Fs1], Hms1 as [Dms1 Fms1], Hh2 as [Dh2 Fh2], Hm2 as [Dm2 Fm2],
    Hs2 as [Ds2 Fs2], Hms2 as [Dms2 Fms2].
  pose proof (srt_time_cls _ _ _ _ Dh1 Dm1 Ds1 Dms1) as Ht1.
  pose proof (srt_time_cls _ _ _ _ Dh2 Dm2 Ds2 Dms2) as Ht2.
  unfold block_lines. repeat apply Forall_cons_2.
  - apply (all_bytes_no_byte is_digit); [reflexivity|apply Di].
  - now apply time_range_no_lf.
  - now apply data_line_no_lf.
  - reflexivity.
  - constructor.
Qed.

(** One block and the blank line after it, read between two blocks. *)
Lemma run_block rt c b out clk :
  well_formed b = true ->
  run rt c (block_lines b ++ [""]) (between_blocks out clk)
  = Some (between_blocks (out ++ [emitted rt out b]) clk).
Proof.
  intros Hwf. unfold well_formed in Hwf. rewrite !andb_true_iff in Hwf.
  destruct Hwf as ((((((((((((((((((((Hi & Hh1) & Hm1) & Hs1) & Hms1) & Hh2) & Hm2) & Hs2) & Hms2)
    & Hf) & Hss) & Hiso) & Hev) & Hzoom) & Hg1) & Hg2) & Hg3) & Hd) & Ha) & Hhs) & Hvs).
  apply int_digits_spec in Hi as [Di Fi], Hh1 as [Dh1 Fh1], Hm1 as [Dm1 Fm1],
    Hs1 as [Ds1 Fs1], Hms1 as [Dms1 Fms1], Hh2 as [Dh2 Fh2], Hm2 as [Dm2 Fm2],
    Hs2 as [Ds2 Fs2], Hms2 as [Dms2 Fms2].
  pose proof (srt_time_cls _ _ _ _ Dh1 Dm1 Ds1 Dms1) as Ht1.
  pose proof (srt_time_cls _ _ _ _ Dh2 Dm2 Ds2 Dms2) as Ht2.
  destruct (classify_data_line _ _ _ _ _ _ _ _ _ _ _ _ Hf Hss Hiso Hev Hzoom Hg1 Hg2 Hg3 Hd Ha Hhs Hvs)
    as [whole Hcd].
  unfold block_lines. cbn [app run].
  rewrite step_classify, (classify_index _ Di). cbn [mbind option_bind].
  rewrite step_classify, (classify_time_range _ _ Ht1 Ht2). cbn [mbind option_bind].
  rewrite (time_field_ok rt (S c) _ _ _ _ set_Start) by assumption.
  rewrite (time_field_ok rt (S c) _ _ _ _ set_End) by assumption.
  rewrite step_classify, Hcd.
  rewrite (Atoi_int_digits _ Di Fi).
  set (target := between_blocks (out ++ [emitted rt out b]) clk).
  unfold between_blocks, store.
  cbn [heap metrology data dataLen clock stdout fst].
  rewrite !alter_snoc.
  set (d := set_decoded_caps _ _).
  assert (Hd0 : d = block_sample b) by reflexivity.
  set (st := mkState (out ++ [d]) (seq 0 (length out)) (length out)
               (Z.of_nat (length out)) clk []).
  assert (HI : Inv st).
  { unfold Inv, st. cbn. rewrite length_app, length_seq. cbn.
    split; [lia|]. split; [reflexivity|].
    apply Forall_forall. intros p Hp. apply list_elem_of_In, in_seq in Hp. lia. }
  destruct (emit_spec rt st HI) as (heap' & -> & Hle & Hgt).
  cbn [mbind option_bind]. rewrite step_classify.
  assert (Hb : classify_line "" = Blank) by now apply classify_Blank.
  rewrite Hb. cbn [mbind option_bind run]. f_equal.
  unfold target, alloc_data, between_blocks, st.
  cbn [heap metrology data dataLen clock stdout].
  assert (Hh : heap' = out ++ [emitted rt out b]).
  { unfold emitted. cbn [dataLen st] in Hle, Hgt.
    destruct (Nat.leb_spec 2 (length out)) as [H2|H2].
    - destruct Hgt as (q & p & d' & Hq & Hp & Hd' & ->); [unfold st; cbn; lia|].
      unfold st in Hq, Hp, Hd'. cbn [heap metrology data] in Hq, Hp, Hd'.
      rewrite lookup_snoc in Hd'. injection Hd' as <-.
      destruct (length out) as [|n] eqn:En; [lia|].
      rewrite last_seq in Hq. injection Hq as <-.
      rewrite lookup_app_l in Hp by lia.
      rewrite last_lookup, En. cbn [pred]. rewrite Hp.
      unfold st. cbn [heap data]. rewrite <- En, alter_snoc, Hd0. reflexivity.
    - rewrite Hle by (unfold st; cbn; lia). unfold st. cbn [heap]. rewrite Hd0.
      now destruct (last out). }
  rewrite Hh, !length_app. cbn [length].
  rewrite Nat.add_1_r, seq_S. cbn [plus]. f_equal. lia.
Qed.

Lemma run_blocks rt bs : forall c out clk,
  Forall (fun b => well_formed b = true) bs ->
  run rt c (blocks_lines bs) (between_blocks out clk)
  = Some (between_blocks (parsed_blocks rt out bs) clk).
Proof.
  induction bs as [|b bs IH]; intros c out clk H; [reflexivity|].
  apply Forall_cons in H as [Hb Hbs].
  unfold blocks_lines. cbn [fmap list_fmap concat]. fold (blocks_lines bs).
  rewrite run_app, run_block by assumption. cbn [mbind option_bind parsed_blocks].
  now apply IH.
Qed.

Lemma samples_between out clk : samples (between_blocks out clk) = out.
Proof.
  unfold samples, between_blocks, deref. cbn [metrology heap].
  apply list_eq. intros i. rewrite list_lookup_fmap.
  destruct (Nat.lt_ge_cases i (length out)) as [Hlt|Hge].
  - rewrite lookup_seq_lt by assumption. cbn. rewrite lookup_app_l by assumption.
    destruct (lookup_lt_is_Some_2 out i Hlt) as [s Hs]. now rewrite Hs.
  - rewrite lookup_seq_ge by assumption. cbn. symmetry. now apply lookup_ge_None.
Qed.

Lemma parsed_blocks_app rt bs : forall out,
  exists new, parsed_blocks rt out bs = out ++ new /\ length new = length bs.
Proof.
  induction bs as [|b bs IH]; intros out; cbn [parsed_blocks].
  - exists []. now rewrite app_nil_r.
  - destruct (IH (out ++ [emitted rt out b])) as (new & -> & Hl).
    exists (emitted rt out b :: new). rewrite <- app_assoc. cbn. auto.
Qed.

Lemma parsed_blocks_lookup rt bs : forall out i b,
  bs !! i = Some b ->
  parsed_blocks rt out bs !! (length out + i)
  = Some (emitted rt (take (length out + i) (parsed_blocks rt out bs)) b).
Proof.
  induction bs as [|b0 bs IH]; intros out i b; [discriminate|].
  cbn [parsed_blocks]. destruct i as [|i]; cbn.
  - intros [= ->]. rewrite Nat.add_0_r.
    destruct (parsed_blocks_app rt bs (out ++ [emitted rt out b])) as (new & -> & _).
    rewrite <- !app_assoc, take_app_length. cbn.
    now rewrite list_lookup_middle.
  - intros Hi. specialize (IH (out ++ [emitted rt out b0]) i b Hi).
    rewrite length_app in IH. cbn [length] in IH.
    now replace (length out + S i) with (length out + 1 + i) by lia.
Qed.

Lemma emitted_fields rt out b :
  exists v, emitted rt out b = set_Bearing v (block_sample b)
            /\ (length out < 2 -> v = zero).
Proof.
  unfold emitted. destruct (last out) as [prev|].
  - destruct (Nat.leb_spec 2 (length out)).
    + eexists. split; [reflexivity|lia].
    + exists zero. split; [reflexivity|auto].
  - exists zero. split; [reflexivity|auto].
Qed.

(** X12.  A file made of a three-byte marker and well-formed blocks, each
    followed by a blank line, yields one sample for each block, in the
    order of the blocks, each in a record of its own, and prints nothing.
    The sample of a block has the fields of [block_sample]; the first two
    have bearing 0, and from the third on the bearing is computed from the
    sample before it: [next_bearing], which is the bearing from the one
    position to the other, or the bearing of the sample before when that
    is exactly 0 or 180. *)
Theorem well_formed_blocks rt marker bs :
  String.length marker = 3 -> Forall (fun b => well_formed b = true) bs ->
  exists st,
    parseSRT rt (marker +:+ join_lines (blocks_lines bs)) = Some st
    /\ samples st = parsed_blocks rt [] bs
    /\ length (samples st) = length bs
    /\ metrology st = seq 0 (length bs)
    /\ stdout st = []
    /\ forall i b, bs !! i = Some b ->
         samples st !! i = Some (emitted rt (take i (samples st)) b)
         /\ exists v, samples st !! i = Some (set_Bearing v (block_sample b))
                      /\ (i < 2 -> v = zero).
Proof.
  intros Hmk Hwf. rewrite parseSRT_unfold.
  assert (Hlen : (String.length (marker +:+ join_lines (blocks_lines bs)) <? 3) = false).
  { apply Nat.ltb_ge. rewrite str_length_app. lia. }
  rewrite Hlen, <- Hmk, drop_bytes_app.
  assert (Hrun : exists st,
             run rt 0 (strings_Split (join_lines (blocks_lines bs)) LF) init_state = Some st
             /\ samples st = parsed_blocks rt [] bs
             /\ metrology st = seq 0 (length bs) /\ stdout st = []).
  { destruct bs as [|b bs].
    - eexists. split; [reflexivity|]. split; [reflexivity|]. split; reflexivity.
    - rewrite strings_Split_join.
      + change init_state with (between_blocks [] 0). rewrite run_blocks by assumption.
        eexists. split; [reflexivity|]. rewrite samples_between. split; [reflexivity|].
        destruct (parsed_blocks_app rt (b :: bs) []) as (new & E & Hl).
        unfold between_blocks. cbn [metrology stdout]. rewrite E. cbn [app].
        now rewrite Hl.
      + unfold blocks_lines, block_lines. discriminate.
      + unfold blocks_lines. apply Forall_concat, Forall_fmap.
        eapply Forall_impl; [exact Hwf|]. intros x Hx. now apply block_lines_no_lf. }
  destruct Hrun as (st & Hr & Hs & Hm & Ho). exists st.
  split; [exact Hr|]. split; [exact Hs|].
  destruct (parsed_blocks_app rt bs []) as (new & E & Hl).
  split; [now rewrite Hs, E|]. split; [exact Hm|]. split; [exact Ho|].
  intros i b Hi. rewrite Hs.
  pose proof (parsed_blocks_lookup rt bs [] i b Hi) as Hlk. cbn [length plus] in Hlk.
  split; [exact Hlk|].
  destruct (emitted_fields rt (take i (parsed_blocks rt [] bs)) b) as (v & Ev & Hv).
  exists v. rewrite Hlk, Ev. split; [reflexivity|].
  intros Hi2. apply Hv. rewrite length_take. lia.
Qed.

Lemma well_formed_blocks_witness :
  String.length utf8_bom = 3
  /\ Forall (fun b => well_formed b = true) [sample_block; sample_block; sample_block]
  /\ forall rt, exists st,
       parseSRT rt (utf8_bom +:+ join_lines
                                   (blocks_lines [sample_block; sample_block; sample_block]))
       = Some st
       /\ samples st
          = [block_sample sample_block; block_sample sample_block;
             set_Bearing (next_bearing rt (block_sample sample_block)
                            (block_sample sample_block))
               (block_sample sample_block)]
       /\ metrology st = [0; 1; 2].
Proof.
  assert (W : well_formed sample_block = true) by (vm_compute; reflexivity).
  assert (F : Forall (fun b => well_formed b = true) [sample_block; sample_block; sample_block])
    by (repeat constructor; exact W).
  split; [reflexivity|]. split; [exact F|]. intros rt.
  destruct (well_formed_blocks rt utf8_bom [sample_block; sample_block; sample_block]
              eq_refl F) as (st & Hp & Hs & _ & Hm & _).
  exists st. split; [exact Hp|]. split; [exact Hs|exact Hm].
Defined.

(** ** What the parse prints *)

Lemma time_error_any_clock rt n m tok : time_error rt n tok = time_error rt m tok.
Proof.
  unfold time_error, parseSrtTime.
  repeat match goal with
         | |- context [if ?b then _ else _] => destruct b
         | |- context [match Atoi ?s with _ => _ end] => destruct (Atoi s) as [? [?|]]
         end; reflexivity.
Qed.

Lemma step_stdout rt c l st st' :
  Inv st -> step rt c l st = Some st' ->
  forall c' e, Printf_start_error c' e ∈ stdout st' ->
    Printf_start_error c' e ∈ stdout st
    \/ (c' = c /\ exists t1 t2,
          classify_line l = TimeRange t1 t2
          /\ (time_error rt 0 t1 = Some e \/ time_error rt 0 t2 = Some e)).
Proof.
  intros HI. rewrite step_classify.
  destruct (classify_line l) as [|m1|t1 t2|caps|] eqn:Hc.
  - intros [= <-]. cbn. auto.
  - intros [= <-]. cbn. auto.
  - intros [= <-] c' e.
    set (st1 := time_field rt c t1 set_Start st).
    destruct (time_field_fields rt c t1 set_Start st) as (ta & ea & Hp1 & _ & _ & _ & _ & Ho1).
    destruct (time_field_fields rt c t2 set_End st1) as (tb & eb & Hp2 & _ & _ & _ & _ & Ho2).
    fold st1 in Hp1, Ho1. rewrite Ho2.
    assert (E1 : time_error rt 0 t1 = ea).
    { rewrite (time_error_any_clock rt 0 (clock st)). unfold time_error. now rewrite Hp1. }
    assert (E2 : time_error rt 0 t2 = eb).
    { rewrite (time_error_any_clock rt 0 (clock st1)). unfold time_error. now rewrite Hp2. }
    assert (H1 : Printf_start_error c' e ∈ stdout st1 ->
                 Printf_start_error c' e ∈ stdout st
                 \/ (c' = c /\ exists u1 u2, TimeRange t1 t2 = TimeRange u1 u2
                       /\ (time_error rt 0 u1 = Some e \/ time_error rt 0 u2 = Some e))).
    { rewrite Ho1. destruct ea as [e1|]; [|auto].
      intros H. apply elem_of_app in H as [H|H]; [auto|].
      apply list_elem_of_singleton in H. injection H as -> ->. right. eauto 10. }
    destruct eb as [e2|]; [|exact H1].
    intros H. apply elem_of_app in H as [H|H]; [auto|].
    apply list_elem_of_singleton in H. injection H as -> ->. right. eauto 10.
  - intros He c' e.
    destruct (emit_spec rt (store (set_decoded_caps caps) st)) as (heap' & He' & _);
      [now apply Inv_store|].
    rewrite He' in He. injection He as <-. cbn. auto.
  - intros [= <-]. auto.
Qed.

Lemma run_stdout rt lines : forall c st st',
  Inv st -> run rt c lines st = Some st' ->
  forall c' e, Printf_start_error c' e ∈ stdout st' ->
    Printf_start_error c' e ∈ stdout st
    \/ (c <= c' /\ exists l t1 t2,
          lines !! (c' - c) = Some l /\ classify_line l = TimeRange t1 t2
          /\ (time_error rt 0 t1 = Some e \/ time_error rt 0 t2 = Some e)).
Proof.
  induction lines as [|l ls IH]; intros c st st' HI; cbn [run].
  - intros [= <-]. auto.
  - destruct (step_total rt c l st HI) as (st1 & Hs & F1). rewrite Hs. cbn [mbind option_bind].
    intros Hr c' e He.
    destruct (IH (S c) st1 st' (sf_inv _ _ F1) Hr c' e He)
      as [H|(Hle & l' & t1 & t2 & Hl & Hc & Ht)].
    + destruct (step_stdout rt c l st st1 HI Hs c' e H) as [H'|(-> & t1 & t2 & Hc & Ht)];
        [auto|].
      right. split; [lia|]. exists l, t1, t2. rewrite Nat.sub_diag. auto.
    + right. split; [lia|]. exists l', t1, t2.
      replace (c' - c) with (S (c' - S c)) by lia. auto.
Qed.

(** X13.  [parseSRT] prints nothing but the error of a time token: each
    message it prints carries the index of a line that was taken as a
    time-range line and the error that [parseSrtTime] returned for one of
    the two tokens of that line.  Index lines, data lines and unmatched
    lines print nothing. *)
Theorem printed_only_for_a_failed_time_token rt b st c e :
  parseSRT rt b = Some st -> Printf_start_error c e ∈ stdout st ->
  exists l t1 t2,
    strings_Split (drop_bytes 3 b) LF !! c = Some l
    /\ classify_line l = TimeRange t1 t2
    /\ (time_error rt 0 t1 = Some e \/ time_error rt 0 t2 = Some e).
Proof.
  intros Hp He. rewrite parseSRT_unfold in Hp.
  destruct (String.length b <? 3); [discriminate|].
  destruct (run_stdout rt _ 0 init_state st Inv_init Hp c e He)
    as [H|(_ & l & t1 & t2 & Hl & Hc & Ht)].
  - cbn in H. inversion H.
  - rewrite Nat.sub_0_r in Hl. eauto 10.
Qed.

Lemma printed_only_for_a_failed_time_token_witness :
  strings_Split (drop_bytes 3 C8_input) LF !! 1 = Some C8_time_line
  /\ forall rt, exists st,
       parseSRT rt C8_input = Some st
       /\ Printf_start_error 1 (RegexpDidntMatch "1:2") ∈ stdout st
       /\ exists l t1 t2,
            strings_Split (drop_bytes 3 C8_input) LF !! 1 = Some l
            /\ classify_line l = TimeRange t1 t2
            /\ (time_error rt 0 t1 = Some (RegexpDidntMatch "1:2")
                \/ time_error rt 0 t2 = Some (RegexpDidntMatch "1:2")).
Proof.
  split; [vm_compute; reflexivity|]. intros rt.
  assert (H : exists st, parseSRT rt C8_input = Some st
                         /\ stdout st = [Printf_start_error 1 (RegexpDidntMatch "1:2")]).
  { eexists. split; vm_compute; reflexivity. }
  destruct H as (st & Hp & Ho).
  assert (He : Printf_start_error 1 (RegexpDidntMatch "1:2") ∈ stdout st)
    by (rewrite Ho; apply list_elem_of_here).
  exists st. split; [exact Hp|]. split; [exact He|].
  exact (printed_only_for_a_failed_time_token rt C8_input st 1 _ Hp He).
Defined.

(** ** What the data pattern lets pass *)

Lemma FSS_r3_data_line_with x tail f ss iso ev zoom lon lat sat d h hs vs :
  data_fields_ok f ss iso ev zoom lon lat sat d h hs vs = true ->
  (byte_val x <? 194)%N = true -> Ascii.eqb x LF = false ->
  exists whole,
    FindStringSubmatch r3 (data_line_with x tail f ss iso ev zoom lon lat sat d h hs vs)
    = [whole; f; ss; iso; ev; zoom; lon; lat; sat; d; h; hs; vs].
Proof.
  unfold data_fields_ok. rewrite !andb_true_iff.
  intros (((((((((((Hf & Hss) & Hiso) & Hev) & Hzoom) & Hlon) & Hlat) & Hsat) & Hd) & Hh)
            & Hhs) & Hvs) Hx Hlf.
  eexists. apply FSS_leftmost. rewrite r3_eq. unfold data_line_with.
  do 11 group_step.
  lits_step. apply exec_any_some; [exact Hx|exact Hlf|].
  group_step. lits_step. reflexivity.
Qed.

(** X14.  The data pattern has a [.] where the grammar has the comma before
    [V.S], and it is not anchored at the end of the line: a data line is
    matched, with the same twelve submatches, whatever one-byte character
    other than a line feed stands in the place of that comma, and whatever
    follows the last [m/s] (no [>] among them, which would make the line a
    time-range line if part of [ --> ]). *)
Theorem data_line_separator_and_tail x tail f ss iso ev zoom lon lat sat d h hs vs :
  data_fields_ok f ss iso ev zoom lon lat sat d h hs vs = true ->
  (byte_val x <? 194)%N = true -> Ascii.eqb x LF = false -> Ascii.eqb x ">" = false ->
  has_byte ">" tail = false ->
  exists whole,
    classify_line (data_line_with x tail f ss iso ev zoom lon lat sat d h hs vs)
    = DataLine [whole; f; ss; iso; ev; zoom; lon; lat; sat; d; h; hs; vs].
Proof.
  intros Hok Hx Hlf Hgt Htail.
  destruct (FSS_r3_data_line_with x tail _ _ _ _ _ _ _ _ _ _ _ _ Hok Hx Hlf) as [whole Hw].
  exists whole. unfold classify_line.
  assert (Hne : String.eqb (data_line_with x tail f ss iso ev zoom lon lat sat d h hs vs) ""
                = false) by reflexivity.
  assert (Hnd : all_bytes is_digit
                  (data_line_with x tail f ss iso ev zoom lon lat sat d h hs vs) = false)
    by reflexivity.
  rewrite Hne, FSS_r1, Hnd.
  assert (Hng : has_byte ">" (data_line_with x tail f ss iso ev zoom lon lat sat d h hs vs)
                = false).
  { revert Hok. unfold data_fields_ok. rewrite !andb_true_iff.
    intros (((((((((((Hf & Hss) & Hiso) & Hev) & Hzoom) & Hlon) & Hlat) & Hsat) & Hd) & Hh)
              & Hhs) & Hvs).
    unfold data_line_with. rewrite !has_byte_app. cbn [has_byte].
    rewrite !has_byte_app, Htail.
    repeat match goal with
           | H : all_bytes (cset_mem ?c) ?s = true |- _ =>
               rewrite (cls_no_byte c ">" s eq_refl H); clear H
           end.
    rewrite Ascii.eqb_sym, Hgt. reflexivity. }
  rewrite (FSS_r2_requires _ Hng), Hw. reflexivity.
Qed.

Lemma data_line_separator_and_tail_witness :
  data_fields_ok "2.8" "141.87" "110" "-0.7" "1.000" "-69.9191" "46.8451" "19"
    "31.42" "11.80" "1.00" "0.70" = true
  /\ exists whole,
       classify_line
         "F/2.8, SS 141.87, ISO 110, EV -0.7, DZOOM 1.000, GPS (-69.9191, 46.8451, 19), D 31.42m, H 11.80m, H.S 1.00m/s; V.S 0.70m/s and more"
       = DataLine [whole; "2.8"; "141.87"; "110"; "-0.7"; "1.000"; "-69.9191"; "46.8451";
                   "19"; "31.42"; "11.80"; "1.00"; "0.70"].
Proof.
  split; [reflexivity|].
  exact (data_line_separator_and_tail ";" " and more" "2.8" "141.87" "110" "-0.7" "1.000"
           "-69.9191" "46.8451" "19" "31.42" "11.80" "1.00" "0.70"
           eq_refl eq_refl eq_refl eq_refl eq_refl).
Defined.

(** ** Lines that no pattern matches *)

Lemma FSS_r3_requires s : has_byte "F" s = false -> FindStringSubmatch r3 s = [].
Proof. apply FSS_requires. reflexivity. Qed.

(** X15.  A line that is not blank, not a run of digits, and that lacks a
    byte which the time-range pattern needs ([>] or [-]) and a byte which
    the data pattern needs ([F] or [/]) is matched by none of the three
    patterns: in both variants it leaves every variable of the parse as it
    is. *)
Theorem other_lines_change_nothing l :
  l <> "" -> all_bytes is_digit l = false ->
  has_byte ">" l = false \/ has_byte "-" l = false ->
  has_byte "F" l = false \/ has_byte "/" l = false ->
  forall rt c,
    (forall st, step rt c l st = Some st)
    /\ (forall st, Legacy.step rt c l st = Some st).
Proof.
  intros Hn Hd Hgt HF rt c.
  assert (Hc : classify_line l = Unmatched).
  { unfold classify_line. destruct (String.eqb_spec l "") as [->|_]; [contradiction|].
    rewrite FSS_r1, Hd.
    assert (H2 : FindStringSubmatch r2 l = []).
    { destruct Hgt as [H|H]; [now apply FSS_r2_requires|].
      apply (FSS_requires r2 l "-"); [reflexivity|exact H]. }
    assert (H3 : FindStringSubmatch r3 l = []).
    { destruct HF as [H|H]; [now apply FSS_r3_requires|].
      apply (FSS_requires r3 l "/"); [reflexivity|exact H]. }
    now rewrite H2, H3. }
  split; intros st.
  - now rewrite step_classify, Hc.
  - now rewrite legacy_step_classify, Hc.
Qed.

Lemma other_lines_change_nothing_witness :
  "WEBVTT" <> "" /\ all_bytes is_digit "WEBVTT" = false
  /\ forall rt c st, step rt c "WEBVTT" st = Some st.
Proof.
  split; [discriminate|]. split; [reflexivity|]. intros rt c st.
  exact (proj1 (other_lines_change_nothing "WEBVTT" ltac:(discriminate) eq_refl
                  (or_introl eq_refl) (or_introl eq_refl) rt c) st).
Defined.
